(** * Wiki synchronisation scripts: a shallow embedding of
      [scripts/generate_wiki.py] and [scripts/fetch_github_data.py]

    The development follows the Python source function by function.
    Values read with [json.load] are modelled by the type [json];
    exceptions by the type [exn]; the body of a [with open(...) as f:]
    block by a writer monad [W] that collects what [f.write] has emitted
    so far; everything that touches the process environment (files,
    subprocesses, HTTP calls, standard output) by a state-and-exception
    monad [M] over a record [world], reading the answers of the outside
    world from a record [env].

    A text is the sequence of its UTF-8 bytes; the encoding of the
    locale is UTF-8, and the names of the signals are those of Linux,
    as on the machines the script is written for.

    What the model leaves out: numbers in the data other than integers;
    the escapes [repr] writes for characters outside ASCII that cannot
    be printed; a plain file sitting at the path of the wiki directory;
    failures of [os.chdir] back to the original directory, of
    [os.remove] and of [f.write] on an open file (a full disk, a text
    with a lone surrogate, which cannot be encoded).  A response body that
    is not JSON raises a [RequestException], as [requests] does since
    version 2.27.  Of [fetch_github_data.py] the
    model keeps the records it builds from the objects of the GitHub
    client; [scripts/generate_docs.py], which renders a Jinja2
    template, is not part of the development. *)

From Stdlib Require Import String Ascii List ZArith Lia Bool DecimalString Permutation.
#[local] Set Warnings "-register-all".
Import ListNotations.
Open Scope string_scope.

(** ** Text helpers (Python [str] methods used by the script)

    A Python [str] is modelled by a Rocq [string] holding its UTF-8
    encoding. *)

Definition nl : string := String (ascii_of_nat 10) "".
Definition dquote : ascii := ascii_of_nat 34.
Definition squote : ascii := ascii_of_nat 39.
Definition backslash : ascii := ascii_of_nat 92.

(** [needle in hay] *)
Fixpoint contains (needle hay : string) : bool :=
  if prefix needle hay then true
  else match hay with
       | EmptyString => false
       | String _ hay' => contains needle hay'
       end.

(** [sep.join(l)] on a list of [str] *)
Definition join (sep : string) (l : list string) : string := String.concat sep l.

(** The ASCII characters [str.strip()] removes. *)
Definition is_space (c : ascii) : bool :=
  let n := nat_of_ascii c in
  ((9 <=? n)%nat && (n <=? 13)%nat) || ((28 <=? n)%nat && (n <=? 32)%nat).

(** The white space outside ASCII, by its UTF-8 bytes: U+0085 and
    U+00A0 take two bytes; U+1680, U+2000 to U+200A, U+2028, U+2029,
    U+202F, U+205F and U+3000 take three. *)
Definition two_byte_space (a b : ascii) : bool :=
  (nat_of_ascii a =? 194)%nat &&
  ((nat_of_ascii b =? 133)%nat || (nat_of_ascii b =? 160)%nat).

Definition three_byte_space (a b c : ascii) : bool :=
  let x := nat_of_ascii a in
  let y := nat_of_ascii b in
  let z := nat_of_ascii c in
  ((x =? 225)%nat && (y =? 154)%nat && (z =? 128)%nat) ||
  ((x =? 226)%nat && (y =? 128)%nat &&
   (((128 <=? z)%nat && (z <=? 138)%nat) || (z =? 168)%nat || (z =? 169)%nat
    || (z =? 175)%nat)) ||
  ((x =? 226)%nat && (y =? 129)%nat && (z =? 159)%nat) ||
  ((x =? 227)%nat && (y =? 128)%nat && (z =? 128)%nat).

(** The bytes of a text, cut where [str.strip()] has to see a
    character: a white-space character is one piece, every other byte
    is a piece of its own.  (No byte of another character is the first
    byte of a white-space character.) *)
Fixpoint pieces (l : list ascii) : list (list ascii) :=
  match l with
  | [] => []
  | a :: l1 =>
      match l1 with
      | b :: l2 =>
          if two_byte_space a b then [a; b] :: pieces l2
          else match l2 with
               | c :: l3 =>
                   if three_byte_space a b c then [a; b; c] :: pieces l3
                   else [a] :: pieces l1
               | [] => [a] :: pieces l1
               end
      | [] => [a] :: pieces l1
      end
  end.

(** The piece is a white-space character. *)
Definition is_space_piece (p : list ascii) : bool :=
  match p with
  | [a] => is_space a
  | [a; b] => two_byte_space a b
  | [a; b; c] => three_byte_space a b c
  | _ => false
  end.

Fixpoint lstrip_pieces (l : list (list ascii)) : list (list ascii) :=
  match l with
  | p :: l' => if is_space_piece p then lstrip_pieces l' else l
  | [] => []
  end.

(** [s.strip()] *)
Definition strip (s : string) : string :=
  string_of_list_ascii
    (concat (rev (lstrip_pieces (rev (lstrip_pieces (pieces (list_ascii_of_string s))))))).

(** The bytes are the UTF-8 encoding of a text: what a strict decoder
    accepts (no overlong form, no surrogate, nothing above U+10FFFF). *)
Definition is_continuation (c : ascii) : bool :=
  (128 <=? nat_of_ascii c)%nat && (nat_of_ascii c <=? 191)%nat.

Definition second_of_three (lead : nat) (b : ascii) : bool :=
  if (lead =? 224)%nat then (160 <=? nat_of_ascii b)%nat && (nat_of_ascii b <=? 191)%nat
  else if (lead =? 237)%nat then (128 <=? nat_of_ascii b)%nat && (nat_of_ascii b <=? 159)%nat
  else is_continuation b.

Definition second_of_four (lead : nat) (b : ascii) : bool :=
  if (lead =? 240)%nat then (144 <=? nat_of_ascii b)%nat && (nat_of_ascii b <=? 191)%nat
  else if (lead =? 244)%nat then (128 <=? nat_of_ascii b)%nat && (nat_of_ascii b <=? 143)%nat
  else is_continuation b.

Fixpoint valid_utf8_bytes (l : list ascii) : bool :=
  match l with
  | [] => true
  | a :: l1 =>
      let n := nat_of_ascii a in
      if (n <? 128)%nat then valid_utf8_bytes l1
      else match l1 with
           | [] => false
           | b :: l2 =>
               if (194 <=? n)%nat && (n <=? 223)%nat
               then is_continuation b && valid_utf8_bytes l2
               else match l2 with
                    | [] => false
                    | c :: l3 =>
                        if (224 <=? n)%nat && (n <=? 239)%nat
                        then second_of_three n b && is_continuation c
                             && valid_utf8_bytes l3
                        else match l3 with
                             | [] => false
                             | d :: l4 =>
                                 (240 <=? n)%nat && (n <=? 244)%nat
                                 && second_of_four n b && is_continuation c
                                 && is_continuation d && valid_utf8_bytes l4
                             end
                    end
           end
  end.

Definition valid_utf8 (s : string) : bool := valid_utf8_bytes (list_ascii_of_string s).

(** What text mode makes of the line ends of an output: ["\r\n"] and
    ["\r"] become ["\n"]. *)
Fixpoint translate_newlines (s : string) : string :=
  match s with
  | EmptyString => EmptyString
  | String c s1 =>
      if (nat_of_ascii c =? 13)%nat
      then match s1 with
           | String d s2 =>
               if (nat_of_ascii d =? 10)%nat
               then String d (translate_newlines s2)
               else String (ascii_of_nat 10) (translate_newlines s1)
           | EmptyString => String (ascii_of_nat 10) EmptyString
           end
      else String c (translate_newlines s1)
  end.

(** Truth value of a [str]: non-empty. *)
Definition str_truthy (s : string) : bool :=
  match s with EmptyString => false | _ => true end.

(** [str(n)] for an [int] *)
Definition str_int (z : Z) : string := NilZero.string_of_int (Z.to_int z).

Definition hex_digit (n : nat) : ascii :=
  if (n <? 10)%nat then ascii_of_nat (48 + n) else ascii_of_nat (87 + n).

(** One character of [repr(s)], [q] being the quote in use. *)
Definition repr_char (q c : ascii) : string :=
  let n := nat_of_ascii c in
  if Ascii.eqb c backslash then String backslash (String backslash "")
  else if Ascii.eqb c q then String backslash (String q "")
  else if (n =? 10)%nat then String backslash "n"
  else if (n =? 13)%nat then String backslash "r"
  else if (n =? 9)%nat then String backslash "t"
  else if (n <? 32)%nat || (n =? 127)%nat
       then String backslash
              (String "x" (String (hex_digit (n / 16)) (String (hex_digit (n mod 16)) "")))
  else String c "".

Fixpoint repr_chars (q : ascii) (s : string) : string :=
  match s with
  | EmptyString => ""
  | String c s' => repr_char q c ++ repr_chars q s'
  end.

(** [repr(s)] for a [str]: single quotes, unless the text has a single
    quote and no double quote. *)
Definition repr_str (s : string) : string :=
  let q := if contains (String squote "") s && negb (contains (String dquote "") s)
           then dquote else squote in
  String q (repr_chars q s ++ String q "").

(** ** Values produced by [json.load]

    Numbers are integers (the data written by [fetch_github_data.py]
    holds no other number); a [dict] keeps its items in order, each key
    once. *)

Inductive json : Type :=
| JNull
| JBool (b : bool)
| JInt (z : Z)
| JStr (s : string)
| JList (l : list json)
| JDict (items : list (string * json)).

(** [bool(v)] *)
Definition truthy (v : json) : bool :=
  match v with
  | JNull => false
  | JBool b => b
  | JInt z => negb (z =? 0)%Z
  | JStr s => str_truthy s
  | JList l => match l with [] => false | _ => true end
  | JDict kv => match kv with [] => false | _ => true end
  end.

Definition is_dict (v : json) : bool := match v with JDict _ => true | _ => false end.

(** [repr(v)] *)
Fixpoint py_repr (v : json) : string :=
  match v with
  | JNull => "None"
  | JBool true => "True"
  | JBool false => "False"
  | JInt z => str_int z
  | JStr s => repr_str s
  | JList l => "[" ++ join ", " (map py_repr l) ++ "]"
  | JDict kv =>
      "{" ++ join ", " (map (fun p => repr_str (fst p) ++ ": " ++ py_repr (snd p)) kv) ++ "}"
  end.

(** [str(v)], which is what an f-string field [{v}] inserts. *)
Definition py_str (v : json) : string :=
  match v with
  | JStr s => s
  | _ => py_repr v
  end.

(** Lookup in the items of a [dict]. *)
Fixpoint assoc (k : string) (kv : list (string * json)) : option json :=
  match kv with
  | [] => None
  | (k', v) :: kv' => if String.eqb k k' then Some v else assoc k kv'
  end.

(** ** Exceptions *)

(** What [requests.get] / [requests.patch] answer. *)
Inductive http_result : Type :=
| ConnectionFailed                                   (* raises [RequestException] *)
| Response (status_code : Z) (body : option json).   (* [body = None]: not JSON *)

(** The exceptions of the script.  A [WikiGenerationError] carries the
    message it was raised with, as a value of [wiki_msg] (the Spanish
    text of each is given next to its constructor). *)
Inductive exn : Type :=
| KeyError (key : string)
| TypeError
| AttributeError
| UnboundLocalError
| OSError                 (* [IOError] is the same class in Python 3 *)
| CalledProcessError (returncode : Z) (cmd : list string)
| RequestException (status_code : option Z)
| WikiGenerationError (m : wiki_msg)
| UnicodeDecodeError
| ValueError
| RecursionError
with wiki_msg : Type :=
| DataDirMissing        (* "Directorio de datos no encontrado: ..." *)
| TokenMissing          (* "GITHUB_TOKEN no encontrado en variables de entorno" *)
| TokenBlank            (* "GITHUB_TOKEN está vacío" *)
| GitAuthFailed         (* "Autenticación Git fallida. Verifica el token." *)
| GitRepoNotFound       (* "Repositorio wiki no encontrado. Verifica que esté habilitado." *)
| GitFailed (error_msg : option string) (stderr : string)
                        (* "{error_msg}: {stderr}" / "Error en comando Git: {stderr}" *)
| GitNotRun (cause : exn)       (* "Error ejecutando Git: {e}" *)
| EnableWikiFailed (status_code : Z)  (* "Error habilitando wiki: {status}" *)
| NoInitialContent      (* "No se pudo generar el contenido inicial" *)
| NoContent             (* "No se pudo generar el contenido" *)
| GitOperation (cause : exn)    (* "Error en operación Git: {e}" *)
| GithubApi (cause : exn)       (* "Error en API de GitHub: {e}" *)
| Unexpected (cause : exn)      (* "Error inesperado: {e}" *)
| FileMissing (path : string)   (* "Archivo no encontrado: {path}" *)
| DecodeFailed (path : string)  (* "Error decodificando {path}: {e}" *)
| ReadFailed (path : string)    (* "Error leyendo archivo {path}: {e}" *)
| NoWritePermission     (* "El token no tiene permisos de escritura" *)
| NoReadPermission      (* "El token no tiene permisos de lectura" *)
| WikiDisabledNoAdmin   (* "La wiki está deshabilitada y el token no tiene permisos
                            para habilitarla" *)
| TokenInvalid          (* "Token inválido o expirado" *)
| TokenForbidden        (* "Token sin permisos suficientes" *)
| RepoMissing           (* "Repositorio no encontrado" *)
| ApiError (cause : exn).       (* "Error de API: {e}" *)

Definition is_WikiGenerationError (e : exn) : bool :=
  match e with WikiGenerationError _ => true | _ => false end.

(** A computation that returns or raises. *)
Inductive result (A : Type) : Type :=
| Ok (a : A)
| Raise (e : exn).
Arguments Ok {A} a.
Arguments Raise {A} e.

(** ** Operations on values that may raise *)

(** [v[k]] with a [str] key *)
Definition subscript (v : json) (k : string) : result json :=
  match v with
  | JDict kv => match assoc k kv with Some x => Ok x | None => Raise (KeyError k) end
  | _ => Raise TypeError
  end.

(** [v.get(k)] *)
Definition get (v : json) (k : string) : result json :=
  match v with
  | JDict kv => match assoc k kv with Some x => Ok x | None => Ok JNull end
  | _ => Raise AttributeError
  end.

(** [v.get(k, d)] *)
Definition get_default (v : json) (k : string) (d : json) : result json :=
  match v with
  | JDict kv => match assoc k kv with Some x => Ok x | None => Ok d end
  | _ => Raise AttributeError
  end.

Fixpoint chars_of (s : string) : list json :=
  match s with
  | EmptyString => []
  | String c s' => JStr (String c "") :: chars_of s'
  end.

(** The items [for x in v] goes through. *)
Definition iterate (v : json) : result (list json) :=
  match v with
  | JList l => Ok l
  | JDict kv => Ok (map (fun p => JStr (fst p)) kv)
  | JStr s => Ok (chars_of s)
  | _ => Raise TypeError
  end.

(** [v == s] for a [str] literal [s] *)
Definition eq_str (v : json) (s : string) : bool :=
  match v with JStr s' => String.eqb s' s | _ => false end.

Fixpoint strings_of (l : list json) : option (list string) :=
  match l with
  | [] => Some []
  | JStr s :: l' => option_map (cons s) (strings_of l')
  | _ :: _ => None
  end.

(** [sep.join(v)]: every item has to be a [str]. *)
Definition join_value (sep : string) (v : json) : result string :=
  match iterate v with
  | Raise e => Raise e
  | Ok l => match strings_of l with
            | Some ss => Ok (join sep ss)
            | None => Raise TypeError
            end
  end.

(** ** [format_labels] (nested in [generate_wiki_content]) *)

Definition label_name (label : json) : json :=
  match label with
  | JDict kv => match assoc "name" kv with Some x => x | None => JStr "" end
  | _ => JStr ""   (* not reached: only called when every label is a dict *)
  end.

Definition format_labels (labels_data : json) : json :=
  if negb (truthy labels_data) then JList []
  else match labels_data with
       | JList l =>
           if forallb is_dict l then JList (map label_name l)
           else labels_data
       | JStr _ => JList [labels_data]
       | _ => JList []
       end.

(** ** The writer monad of a [with open(...) as f:] block

    A block yields the text it has passed to [f.write], in order, and
    then returns or raises; the text written before an exception stays
    in the file. *)

Definition W (A : Type) : Type := (string * result A)%type.

Definition w_ret {A} (a : A) : W A := ("", Ok a).

Definition w_bind {A B} (m : W A) (f : A -> W B) : W B :=
  match m with
  | (s, Ok a) => let (s', r) := f a in (s ++ s', r)
  | (s, Raise e) => (s, Raise e)
  end.

Definition write (s : string) : W unit := (s, Ok tt).

Definition eval {A} (r : result A) : W A := ("", r).

Declare Scope W_scope.
Delimit Scope W_scope with W.
Notation "x <- m ;; k" := (w_bind m (fun x => k))
  (at level 61, m at next level, right associativity) : W_scope.
Notation "m ;; k" := (w_bind m (fun _ => k))
  (at level 61, right associativity) : W_scope.

(** [for x in l: body(x)] inside a block *)
Fixpoint w_for {A} (l : list A) (body : A -> W unit) : W unit :=
  match l with
  | [] => w_ret tt
  | x :: l' => w_bind (body x) (fun _ => w_for l' body)
  end.

(** [a or b] *)
Definition py_or (a b : json) : json := if truthy a then a else b.

Section Blocks.
Open Scope W_scope.

Definition home_text : string :=
  "# UM Tesorería MercadoPago Service Wiki" ++ nl ++ nl ++
  "Bienvenido a la Wiki del servicio de integración con MercadoPago de UM Tesorería."
  ++ nl ++ nl ++
  "## Navegación Rápida" ++ nl ++ nl ++
  "- [[Milestones]]" ++ nl ++
  "- [[Issues-Activos]]" ++ nl ++
  "- [[Issues-Cerrados]]" ++ nl.

Definition home_block : W unit := write home_text.

Definition milestone_entry (ms : json) : W unit :=
  title <- eval (subscript ms "title") ;;
  write ("## " ++ py_str title ++ nl) ;;
  state <- eval (subscript ms "state") ;;
  write ("**Estado:** " ++ py_str state ++ nl ++ nl) ;;
  d <- eval (get ms "description") ;;
  let description := py_or d (JStr "Sin descripción") in
  write ("**Descripción:** " ++ py_str description ++ nl ++ nl) ;;
  due <- eval (get ms "due_on") ;;
  (if truthy due
   then due_on <- eval (subscript ms "due_on") ;;
        write ("**Fecha límite:** " ++ py_str due_on ++ nl ++ nl)
   else w_ret tt) ;;
  write ("---" ++ nl ++ nl).

Definition milestones_header : string :=
  "# Milestones del Servicio MercadoPago" ++ nl ++ nl.

Definition milestones_block (milestones : json) : W unit :=
  write milestones_header ;;
  items <- eval (iterate milestones) ;;
  w_for items milestone_entry.

(** The milestone, labels and body lines, written the same way on both
    issue pages. *)
Definition issue_milestone (issue : json) : W unit :=
  m <- eval (get issue "milestone") ;;
  if truthy m then
    m1 <- eval (subscript issue "milestone") ;;
    milestone_title <-
      (if is_dict m1
       then m2 <- eval (subscript issue "milestone") ;;
            eval (get_default m2 "title" (JStr "Sin título"))
       else eval (subscript issue "milestone")) ;;
    write ("**Milestone:** " ++ py_str milestone_title ++ nl ++ nl)
  else w_ret tt.

Definition issue_labels (issue : json) : W unit :=
  l <- eval (get issue "labels") ;;
  if truthy l then
    l1 <- eval (subscript issue "labels") ;;
    let labels := format_labels l1 in
    if truthy labels
    then joined <- eval (join_value ", " labels) ;;
         write ("**Labels:** " ++ joined ++ nl ++ nl)
    else w_ret tt
  else w_ret tt.

Definition issue_body (issue : json) : W unit :=
  b <- eval (get issue "body") ;;
  let body := py_or b (JStr "Sin descripción") in
  write (py_str body ++ nl ++ nl ++ "---" ++ nl ++ nl).

Definition active_entry (issue : json) : W unit :=
  number <- eval (subscript issue "number") ;;
  title <- eval (subscript issue "title") ;;
  write ("## #" ++ py_str number ++ ": " ++ py_str title ++ nl) ;;
  created <- eval (subscript issue "created_at") ;;
  write ("**Creado:** " ++ py_str created ++ nl ++ nl) ;;
  issue_milestone issue ;;
  issue_labels issue ;;
  issue_body issue.

Definition closed_entry (issue : json) : W unit :=
  number <- eval (subscript issue "number") ;;
  title <- eval (subscript issue "title") ;;
  write ("## #" ++ py_str number ++ ": " ++ py_str title ++ nl) ;;
  created <- eval (subscript issue "created_at") ;;
  write ("**Creado:** " ++ py_str created ++ nl) ;;
  closed <- eval (get_default issue "closed_at" (JStr "Desconocido")) ;;
  write ("**Cerrado:** " ++ py_str closed ++ nl ++ nl) ;;
  issue_milestone issue ;;
  issue_labels issue ;;
  issue_body issue.

Definition active_header : string := "# Issues Activos - Servicio MercadoPago" ++ nl ++ nl.
Definition closed_header : string := "# Issues Cerrados - Servicio MercadoPago" ++ nl ++ nl.

Definition active_block (active_issues : list json) : W unit :=
  write active_header ;; w_for active_issues active_entry.

Definition closed_block (closed_issues : list json) : W unit :=
  write closed_header ;; w_for closed_issues closed_entry.

End Blocks.

(** [[i for i in items if i['state'] == st]], with [items] the items of
    the iteration. *)
Fixpoint select_state (st : string) (items : list json) : result (list json) :=
  match items with
  | [] => Ok []
  | i :: rest =>
      match subscript i "state" with
      | Raise e => Raise e
      | Ok s =>
          match select_state st rest with
          | Raise e => Raise e
          | Ok r => Ok (if eq_str s st then i :: r else r)
          end
      end
  end.

Definition issues_with_state (st : string) (issues : json) : result (list json) :=
  match iterate issues with
  | Raise e => Raise e
  | Ok items => select_state st items
  end.

(** ** The outside world

    [env] holds what the run reads and never changes: the environment
    variables, the data files, and the answers of the HTTP API and of
    the programs it starts.  [world] holds what the run changes. *)

(** The files of a directory, by name. *)
Definition tree : Type := list (string * string).

Fixpoint tree_put (name text : string) (t : tree) : tree :=
  match t with
  | [] => [(name, text)]
  | (n, x) :: t' =>
      if String.eqb n name then (name, text) :: t' else (n, x) :: tree_put name text t'
  end.

Fixpoint tree_get (name : string) (t : tree) : option string :=
  match t with
  | [] => None
  | (n, x) :: t' => if String.eqb n name then Some x else tree_get name t'
  end.

(** What [json.load] raises on a file other than [JSONDecodeError]:
    the file is not UTF-8, a number of it has too many digits, or its
    values are nested too deep. *)
Inductive load_error : Type :=
| NotUtf8              (* [UnicodeDecodeError] *)
| NumberTooLong        (* [ValueError] *)
| NestedTooDeep.       (* [RecursionError] *)

Definition exn_of_load_error (e : load_error) : exn :=
  match e with
  | NotUtf8 => UnicodeDecodeError
  | NumberTooLong => ValueError
  | NestedTooDeep => RecursionError
  end.

(** A file to be read with [json.load]. *)
Inductive file_state : Type :=
| Absent               (* [os.path.exists] is false *)
| Unreadable           (* [open] or the reading raises [IOError] *)
| NotJson              (* [json.load] raises [JSONDecodeError] *)
| Rejected (e : load_error)   (* [json.load] raises something else *)
| Holds (data : json).

(** [subprocess.CompletedProcess] *)
Record completed : Type := Completed
  { returncode : Z; stdout : string; stderr : string }.

(** What [subprocess.run] answers: a result, or nothing because it
    raised.  As an answer of the outside world ([E_run] below)
    [Exited r] is a program that ran and exited, [r] holding the bytes
    it wrote, and [NotStarted] a program that could not be started
    ([OSError]). *)
Inductive spawn_result : Type :=
| Exited (r : completed)
| NotStarted.

(** The output can be decoded as text. *)
Definition readable (r : completed) : bool :=
  valid_utf8 (stdout r) && valid_utf8 (stderr r).

(** The result with its output as text mode gives it. *)
Definition as_text (r : completed) : completed :=
  Completed (returncode r) (translate_newlines (stdout r)) (translate_newlines (stderr r)).

(** What [subprocess.run(..., text=True)] makes of the answer of the
    outside world: a program whose output is not text has run, but the
    call raises ([UnicodeDecodeError]) and the script gets no result. *)
Definition in_text_mode (o : spawn_result) : spawn_result :=
  match o with
  | Exited r => if readable r then Exited (as_text r) else NotStarted
  | NotStarted => NotStarted
  end.

(** The commands started so far, each with what [subprocess.run] has
    answered the script, oldest first. *)
Definition history : Type := list (list string * spawn_result).

Record env : Type := Env
  { E_cwd : string;                       (* [Path.cwd().absolute()], not the root *)
    E_data_dir_exists : bool;
    E_file : string -> file_state;        (* the data files, by path *)
    E_token : option string;              (* [os.environ.get('GITHUB_TOKEN')] *)
    E_repository : option string;         (* [os.environ['GITHUB_REPOSITORY']] *)
    E_get : http_result;                  (* answer to [requests.get(api_url)] *)
    E_patch : http_result;                (* answer to [requests.patch(api_url)] *)
    E_run : history -> list string -> spawn_result;
                                          (* answer to a command, given those run before *)
    E_git_tree : list string -> completed -> option tree -> option tree;
                                          (* the working tree at the wiki path after a
                                             git clone, checkout or pull *)
    E_can_open : string -> bool;          (* [open(wiki_dir / name, 'w')] succeeds *)
    E_strerror : string }.                (* text of an [OSError] *)

Record world : Type := World
  { w_cwd : string;                       (* current directory *)
    w_wiki : option tree;                 (* the directory at [wiki_dir], if any *)
    w_credentials : bool;                 (* [~/.git-credentials] exists *)
    w_stdout : list string;               (* lines printed, oldest first *)
    w_spawned : history;                  (* commands started, oldest first *)
    w_http : list (string * string) }.    (* HTTP requests sent: method, URL *)

Definition set_cwd (d : string) (w : world) : world :=
  World d (w_wiki w) (w_credentials w) (w_stdout w) (w_spawned w) (w_http w).
Definition set_wiki (t : option tree) (w : world) : world :=
  World (w_cwd w) t (w_credentials w) (w_stdout w) (w_spawned w) (w_http w).
Definition set_credentials (b : bool) (w : world) : world :=
  World (w_cwd w) (w_wiki w) b (w_stdout w) (w_spawned w) (w_http w).
Definition add_stdout (s : string) (w : world) : world :=
  World (w_cwd w) (w_wiki w) (w_credentials w) (w_stdout w ++ [s]) (w_spawned w) (w_http w).
Definition add_spawned (c : list string) (r : spawn_result) (w : world) : world :=
  World (w_cwd w) (w_wiki w) (w_credentials w) (w_stdout w) (w_spawned w ++ [(c, r)])%list (w_http w).
Definition add_http (m u : string) (w : world) : world :=
  World (w_cwd w) (w_wiki w) (w_credentials w) (w_stdout w) (w_spawned w) (w_http w ++ [(m, u)]).

(** [d / name] for a [Path] *)
Definition path_join (d name : string) : string := d ++ "/" ++ name.

(** The members of [signal.Signals]. *)
Definition signals : list (Z * string) :=
  [(1, "SIGHUP"); (2, "SIGINT"); (3, "SIGQUIT"); (4, "SIGILL"); (5, "SIGTRAP");
   (6, "SIGABRT"); (7, "SIGBUS"); (8, "SIGFPE"); (9, "SIGKILL"); (10, "SIGUSR1");
   (11, "SIGSEGV"); (12, "SIGUSR2"); (13, "SIGPIPE"); (14, "SIGALRM");
   (15, "SIGTERM"); (16, "SIGSTKFLT"); (17, "SIGCHLD"); (18, "SIGCONT");
   (19, "SIGSTOP"); (20, "SIGTSTP"); (21, "SIGTTIN"); (22, "SIGTTOU");
   (23, "SIGURG"); (24, "SIGXCPU"); (25, "SIGXFSZ"); (26, "SIGVTALRM");
   (27, "SIGPROF"); (28, "SIGWINCH"); (29, "SIGIO"); (30, "SIGPWR");
   (31, "SIGSYS"); (34, "SIGRTMIN"); (64, "SIGRTMAX")]%Z.

Fixpoint signal_name (n : Z) (table : list (Z * string)) : option string :=
  match table with
  | [] => None
  | (k, name) :: table' => if (k =? n)%Z then Some name else signal_name n table'
  end.

(** [str(e)] for a [CalledProcessError] whose command reads
    [shown]: a negative return code is a signal, named when
    [signal.Signals] knows it. *)
Definition str_process_error (rc : Z) (shown : string) : string :=
  "Command '" ++ shown ++ "' " ++
  (if (rc <? 0)%Z
   then match signal_name (- rc) signals with
        | Some name => "died with <Signals." ++ name ++ ": " ++ str_int (- rc) ++ ">."
        | None => "died with unknown signal " ++ str_int (- rc) ++ "."
        end
   else "returned non-zero exit status " ++ str_int rc ++ ".").

(** [str(e)] for the [CalledProcessError] of a command of [str]. *)
Definition str_CalledProcessError (rc : Z) (cmd : list string) : string :=
  str_process_error rc (py_repr (JList (map JStr cmd))).

(** ** The monad of the script: state and exceptions *)

Definition M (A : Type) : Type := world -> result A * world.

Definition ret {A} (a : A) : M A := fun w => (Ok a, w).

Definition raise {A} (e : exn) : M A := fun w => (Raise e, w).

Definition bind {A B} (m : M A) (f : A -> M B) : M B :=
  fun w => match m w with
           | (Ok a, w') => f a w'
           | (Raise e, w') => (Raise e, w')
           end.

Definition lift {A} (r : result A) : M A := fun w => (r, w).

(** [try: m  except Exception as e: h(e)] *)
Definition try_except {A} (m : M A) (h : exn -> M A) : M A :=
  fun w => match m w with
           | (Ok a, w') => (Ok a, w')
           | (Raise e, w') => h e w'
           end.

(** [try: m  finally: f], where [f] is told whether [m] ran to its end;
    an exception of [f] replaces the outcome of [m]. *)
Definition try_finally {A} (m : M A) (f : bool -> M unit) : M A :=
  fun w => match m w with
           | (Ok a, w') =>
               match f true w' with
               | (Ok _, w'') => (Ok a, w'')
               | (Raise e, w'') => (Raise e, w'')
               end
           | (Raise e, w') =>
               match f false w' with
               | (Ok _, w'') => (Raise e, w'')
               | (Raise e', w'') => (Raise e', w'')
               end
           end.

Definition when (b : bool) (m : M unit) : M unit := if b then m else ret tt.

Declare Scope M_scope.
Delimit Scope M_scope with M.
Notation "x <- m ;; k" := (bind m (fun x => k))
  (at level 61, m at next level, right associativity) : M_scope.
Notation "m ;; k" := (bind m (fun _ => k))
  (at level 61, right associativity) : M_scope.

Definition print (s : string) : M unit := fun w => (Ok tt, add_stdout s w).

Definition wiki_dir_exists : M bool :=
  fun w => (Ok (match w_wiki w with Some _ => true | None => false end), w).

Definition credentials_exist : M bool := fun w => (Ok (w_credentials w), w).

(** [os.remove(os.path.expanduser('~/.git-credentials'))] *)
Definition remove_credentials : M unit := fun w => (Ok tt, set_credentials false w).

(** [os.chdir(d)] to a directory that exists *)
Definition chdir (d : string) : M unit := fun w => (Ok tt, set_cwd d w).

(** [os.chdir(str(wiki_dir))] *)
Definition chdir_wiki (wiki_dir : string) : M unit :=
  fun w => match w_wiki w with
           | Some _ => (Ok tt, set_cwd wiki_dir w)
           | None => (Raise OSError, w)
           end.

(** [wiki_dir.mkdir(exist_ok=True)] *)
Definition mkdir_wiki : M unit :=
  fun w => match w_wiki w with
           | Some _ => (Ok tt, w)
           | None => (Ok tt, set_wiki (Some []) w)
           end.

(** [with open(wiki_dir / name, 'w', encoding='utf-8') as f: block] *)
Definition with_open (can_open : string -> bool) (name : string) (block : W unit)
  : M unit :=
  fun w => match w_wiki w with
           | None => (Raise OSError, w)
           | Some t =>
               if can_open name
               then (snd block, set_wiki (Some (tree_put name (fst block) t)) w)
               else (Raise OSError, w)
           end.

(** ** The functions of [generate_wiki.py] *)

Section Script.
Variable E : env.
Open Scope M_scope.

Definition original_dir : string := E_cwd E.
Definition data_dir : string := path_join original_dir "data".
Definition wiki_dir : string := path_join original_dir "wiki_content".

Definition rm_wiki : list string := ["rm"; "-rf"; wiki_dir].

Definition cmd_eqb (a b : list string) : bool :=
  if list_eq_dec string_dec a b then true else false.

(** [git clone], [git checkout] and [git pull] are the git commands that
    write files of the working tree. *)
Definition writes_tree (cmd : list string) : bool :=
  match cmd with
  | prog :: sub :: _ =>
      String.eqb prog "git" &&
      (String.eqb sub "clone" || String.eqb sub "checkout" || String.eqb sub "pull")
  | _ => false
  end.

(** What a finished command has done to the directory at [wiki_dir]
    (its files; the [.git] directory is not part of the model). *)
Definition after_command (cmd : list string) (r : completed) (t : option tree)
  : option tree :=
  if cmd_eqb cmd rm_wiki
  then (if (returncode r =? 0)%Z then None else t)
  else if writes_tree cmd then E_git_tree E cmd r t
  else t.

(** [subprocess.run(cmd, capture_output=True, text=True)]: the output
    is decoded once the program has exited. *)
Definition subprocess_run (cmd : list string) : M completed :=
  fun w =>
    let outcome := E_run E (w_spawned w) cmd in
    let w1 := add_spawned cmd (in_text_mode outcome) w in
    match outcome with
    | NotStarted => (Raise OSError, w1)
    | Exited r =>
        let w2 := set_wiki (after_command cmd r (w_wiki w1)) w1 in
        if readable r then (Ok (as_text r), w2) else (Raise UnicodeDecodeError, w2)
    end.

(** [subprocess.run(cmd)], the output left where it goes. *)
Definition subprocess_run_plain (cmd : list string) : M completed :=
  fun w =>
    let outcome := E_run E (w_spawned w) cmd in
    let w1 := add_spawned cmd outcome w in
    match outcome with
    | NotStarted => (Raise OSError, w1)
    | Exited r => (Ok r, set_wiki (after_command cmd r (w_wiki w1)) w1)
    end.

Definition run_command (cmd : list string) (check : bool) : M completed :=
  result <- subprocess_run cmd ;;
  if check && negb (returncode result =? 0)%Z
  then print ("Error ejecutando " ++ join " " cmd) ;;
       print ("stdout: " ++ stdout result) ;;
       print ("stderr: " ++ stderr result) ;;
       raise (CalledProcessError (returncode result) cmd)
  else ret result.

Definition get_default_branch (wiki_url : string) : M string :=
  try_except
    (result <- run_command ["git"; "ls-remote"; "--symref"; wiki_url; "HEAD"] false ;;
     if contains "ref: refs/heads/master" (stdout result)
     then ret "master"
     else ret "main")
    (fun _ => ret "main").

Definition opt_truthy (s : option string) : bool :=
  match s with Some s' => str_truthy s' | None => false end.

Definition run_git_command (cmd : list string) (error_msg : option string) (check : bool)
  : M completed :=
  try_except
    (result <- run_command cmd false ;;
     if check && negb (returncode result =? 0)%Z
     then if contains "Authentication failed" (stderr result)
          then raise (WikiGenerationError GitAuthFailed)
          else if contains "repository not found" (stderr result)
          then raise (WikiGenerationError GitRepoNotFound)
          else if opt_truthy error_msg
          then raise (WikiGenerationError (GitFailed error_msg (stderr result)))
          else raise (WikiGenerationError (GitFailed None (stderr result)))
     else ret result)
    (fun e => if is_WikiGenerationError e
              then raise e
              else raise (WikiGenerationError (GitNotRun e))).

Definition verify_token : M string :=
  match E_token E with
  | None => raise (WikiGenerationError TokenMissing)
  | Some token =>
      if negb (str_truthy token) then raise (WikiGenerationError TokenMissing)
      else if negb (str_truthy (strip token)) then raise (WikiGenerationError TokenBlank)
      else ret token
  end.

(** [str(['rm', '-rf', directory])], the directory being a [Path]. *)
Definition rm_wiki_shown : string :=
  "['rm', '-rf', PosixPath(" ++ repr_str wiki_dir ++ ")]".

(** [safe_cleanup(wiki_dir)]; [check=True] makes a non-zero return code a
    [CalledProcessError], which is the one exception caught. *)
Definition safe_cleanup : M unit :=
  is_dir <- wiki_dir_exists ;;
  when is_dir
    (try_except
       (r <- subprocess_run_plain rm_wiki ;;
        if negb (returncode r =? 0)%Z
        then raise (CalledProcessError (returncode r) rm_wiki)
        else ret tt)
       (fun e => match e with
                 | CalledProcessError rc _ =>
                     print ("Error limpiando " ++ wiki_dir ++ ": "
                            ++ str_process_error rc rm_wiki_shown)
                 | _ => raise e
                 end)).

(** [requests.get(api_url, headers=headers)] followed by
    [response.raise_for_status()] and [response.json()].  The
    [RequestException] carries the status code of [response] when that
    name is bound. *)
Definition requests_get (api_url : string) : M (Z * option json) :=
  fun w => let w1 := add_http "GET" api_url w in
           match E_get E with
           | ConnectionFailed => (Raise (RequestException None), w1)
           | Response status body => (Ok (status, body), w1)
           end.

Definition raise_for_status (status : Z) : M unit :=
  if (400 <=? status)%Z && (status <? 600)%Z
  then raise (RequestException (Some status))
  else ret tt.

Definition response_json (status : Z) (body : option json) : M json :=
  match body with
  | Some v => ret v
  | None => raise (RequestException (Some status))
  end.

Definition check_repo_access (api_url : string) : M json :=
  try_except
    (response <- requests_get api_url ;;
     raise_for_status (fst response) ;;
     repo_data <- response_json (fst response) (snd response) ;;
     permissions <- lift (get_default repo_data "permissions" (JDict [])) ;;
     push <- lift (get permissions "push") ;;
     if negb (truthy push)
     then print ("Permisos actuales: " ++ py_str permissions) ;;
          raise (WikiGenerationError NoWritePermission)
     else
     pull <- lift (get permissions "pull") ;;
     if negb (truthy pull)
     then raise (WikiGenerationError NoReadPermission)
     else
     has_wiki <- lift (get repo_data "has_wiki") ;;
     no_admin <- (if negb (truthy has_wiki)
                  then admin <- lift (get permissions "admin") ;; ret (negb (truthy admin))
                  else ret false) ;;
     if no_admin
     then raise (WikiGenerationError WikiDisabledNoAdmin)
     else ret repo_data)
    (fun e => match e with
              | RequestException None => raise UnboundLocalError
              | RequestException (Some status) =>
                  if (status =? 401)%Z then raise (WikiGenerationError TokenInvalid)
                  else if (status =? 403)%Z then raise (WikiGenerationError TokenForbidden)
                  else if (status =? 404)%Z then raise (WikiGenerationError RepoMissing)
                  else raise (WikiGenerationError (ApiError e))
              | _ => raise e
              end).

Definition verify_json_content (file_path : string) : M json :=
  match E_file E file_path with
  | Absent => raise (WikiGenerationError (FileMissing file_path))
  | Unreadable => raise (WikiGenerationError (ReadFailed file_path))
  | NotJson => raise (WikiGenerationError (DecodeFailed file_path))
  | Rejected e => raise (exn_of_load_error e)
  | Holds data =>
      when (negb (truthy data))
           (print ("Advertencia: " ++ file_path ++ " está vacío")) ;;
      ret data
  end.

Definition issues_file : string := path_join data_dir "issues.json".
Definition milestones_file : string := path_join data_dir "milestones.json".

(** The [try] block of [generate_wiki_content]. *)
Definition write_pages (issues milestones : json) : M bool :=
  with_open (E_can_open E) "Home.md" home_block ;;
  with_open (E_can_open E) "Milestones.md" (milestones_block milestones) ;;
  active_issues <- lift (issues_with_state "open" issues) ;;
  with_open (E_can_open E) "Issues-Activos.md" (active_block active_issues) ;;
  closed_issues <- lift (issues_with_state "closed" issues) ;;
  with_open (E_can_open E) "Issues-Cerrados.md" (closed_block closed_issues) ;;
  ret true.

Definition generate_wiki_content : M bool :=
  issues <- verify_json_content issues_file ;;
  milestones <- verify_json_content milestones_file ;;
  if negb (truthy issues) && negb (truthy milestones)
  then print "No hay datos para generar en la wiki" ;;
       ret false
  else
    try_except
      (write_pages issues milestones)
      (fun e => match e with
                | OSError =>
                    print ("Error escribiendo archivos de la wiki del Servicio MercadoPago: "
                           ++ E_strerror E) ;;
                    ret false
                | _ => raise e
                end).

(** [os.environ['GITHUB_REPOSITORY']] *)
Definition environ_repository : M string :=
  match E_repository E with
  | Some repo => ret repo
  | None => raise (KeyError "GITHUB_REPOSITORY")
  end.

(** [requests.patch(api_url, headers=headers, json={'has_wiki': True})] *)
Definition requests_patch (api_url : string) : M Z :=
  fun w => let w1 := add_http "PATCH" api_url w in
           match E_patch E with
           | ConnectionFailed => (Raise (RequestException None), w1)
           | Response status _ => (Ok status, w1)
           end.

(** The branch of [generate_wiki_pages] taken when the clone failed. *)
Definition new_wiki (wiki_url : string) : M unit :=
  mkdir_wiki ;;
  chdir_wiki wiki_dir ;;
  run_git_command ["git"; "init"] (Some "Error inicializando repositorio") true ;;
  run_git_command ["git"; "remote"; "add"; "origin"; wiki_url]
                  (Some "Error configurando remote") true ;;
  generated <- generate_wiki_content ;;
  if negb generated
  then raise (WikiGenerationError NoInitialContent)
  else
  run_git_command ["git"; "add"; "."] None true ;;
  run_git_command ["git"; "commit"; "-m"; "Initial wiki content"] None true ;;
  run_git_command ["git"; "branch"; "-M"; "main"] None true ;;
  run_git_command ["git"; "push"; "--force"; "origin"; "main"] None true ;;
  print "Wiki inicializada exitosamente".

(** The branch taken when the clone succeeded. *)
Definition existing_wiki (wiki_url : string) : M unit :=
  chdir_wiki wiki_dir ;;
  default_branch <- get_default_branch wiki_url ;;
  print ("Usando rama existente: " ++ default_branch) ;;
  run_git_command ["git"; "checkout"; default_branch]
                  (Some "Error cambiando a rama por defecto") true ;;
  run_git_command ["git"; "pull"; "origin"; default_branch]
                  (Some "Error actualizando rama") true ;;
  generated <- generate_wiki_content ;;
  if negb generated
  then raise (WikiGenerationError NoContent)
  else
  run_git_command ["git"; "add"; "."] None true ;;
  status <- run_git_command ["git"; "status"; "--porcelain"] None true ;;
  when (str_truthy (strip (stdout status)))
       (run_git_command ["git"; "commit"; "-m"; "Update wiki content"] None true ;;
        run_git_command ["git"; "push"; "origin"; default_branch] None true ;;
        print "Wiki actualizada exitosamente").

(** The [try] block of [generate_wiki_pages]. *)
Definition try_block : M unit :=
  token <- verify_token ;;
  present <- wiki_dir_exists ;;
  when present safe_cleanup ;;
  repo <- environ_repository ;;
  let api_url := "https://api.github.com/repos/" ++ repo in
  print "Verificando acceso al repositorio y permisos..." ;;
  repo_data <- check_repo_access api_url ;;
  has_wiki <- lift (get repo_data "has_wiki") ;;
  when (negb (truthy has_wiki))
       (print "Habilitando wiki..." ;;
        status <- requests_patch api_url ;;
        when (negb (status =? 200)%Z)
             (raise (WikiGenerationError (EnableWikiFailed status)))) ;;
  let wiki_url := "https://x-access-token:" ++ token ++ "@github.com/" ++ repo ++ ".wiki.git" in
  print "URL de wiki configurada (token oculto)" ;;
  run_command ["git"; "config"; "--global"; "user.name"; "github-actions[bot]"] true ;;
  run_command ["git"; "config"; "--global"; "user.email";
               "github-actions[bot]@users.noreply.github.com"] true ;;
  print "Verificando acceso Git..." ;;
  run_git_command ["git"; "ls-remote"; wiki_url]
                  (Some "No se puede acceder al repositorio wiki") true ;;
  print ("Intentando clonar wiki en: " ++ wiki_dir) ;;
  clone_result <- run_git_command ["git"; "clone"; wiki_url; wiki_dir]
                                  (Some "Error clonando repositorio wiki") false ;;
  let is_new_wiki := negb (returncode clone_result =? 0)%Z in
  if is_new_wiki then new_wiki wiki_url else existing_wiki wiki_url.

(** The [except] clauses of [generate_wiki_pages], in order. *)
Definition handlers (e : exn) : M unit :=
  match e with
  | WikiGenerationError _ => raise e
  | CalledProcessError rc cmd =>
      if contains "Authentication failed" (str_CalledProcessError rc cmd)
      then raise (WikiGenerationError GitAuthFailed)
      else raise (WikiGenerationError (GitOperation e))
  | RequestException _ => raise (WikiGenerationError (GithubApi e))
  | _ => raise (WikiGenerationError (Unexpected e))
  end.

(** The [finally] clause; [success] is the flag the [try] block sets as
    its last statement. *)
Definition finalizer (success : bool) : M unit :=
  chdir original_dir ;;
  print ("Volviendo a directorio original: " ++ original_dir) ;;
  present <- wiki_dir_exists ;;
  when (negb success && present) safe_cleanup ;;
  creds <- credentials_exist ;;
  when creds remove_credentials.

Definition generate_wiki_pages : M unit :=
  print ("Iniciando generación de Wiki desde " ++ original_dir) ;;
  if negb (E_data_dir_exists E)
  then raise (WikiGenerationError DataDirMissing)
  else try_finally (try_except try_block handlers) finalizer.

End Script.

(** ** Reading the history of a run *)

(** The word after the program name. *)
Definition subcommand (cmd : list string) : string := nth 1 cmd "".

(** Commands only: the first components of a history. *)
Definition commands (h : history) : list (list string) := map fst h.

(** The command exited with status 0. *)
Definition passed (o : spawn_result) : bool :=
  match o with
  | Exited c => (returncode c =? 0)%Z
  | NotStarted => false
  end.

(** [cmd] is [git sub ...]. *)
Definition is_git (sub : string) (cmd : list string) : bool :=
  String.eqb (hd "" cmd) "git" && String.eqb (subcommand cmd) sub.

Definition is_add : list string -> bool := is_git "add".
Definition is_commit : list string -> bool := is_git "commit".
Definition is_push : list string -> bool := is_git "push".
Definition is_clone : list string -> bool := is_git "clone".

(** Staging, committing or pushing. *)
Definition is_publish (cmd : list string) : bool :=
  is_add cmd || is_commit cmd || is_push cmd.

(** [cmd] was run in [h] and exited with status 0. *)
Definition ran_ok (cmd : list string) (h : history) : Prop :=
  exists c, In (cmd, Exited c) h /\ returncode c = 0%Z.

(** A clone was attempted in [h] and passed (resp. did not pass). *)
Definition clone_passed (h : history) : Prop :=
  exists cmd o, In (cmd, o) h /\ is_clone cmd = true /\ passed o = true.
Definition clone_failed (h : history) : Prop :=
  exists cmd o, In (cmd, o) h /\ is_clone cmd = true /\ passed o = false.

(** The output of [git status --porcelain] shows no change. *)
Definition clean (status : completed) : bool := negb (str_truthy (strip (stdout status))).

(** ** The commands of a run and the shape of its history *)

Definition cmd_config_name : list string :=
  ["git"; "config"; "--global"; "user.name"; "github-actions[bot]"].
Definition cmd_config_email : list string :=
  ["git"; "config"; "--global"; "user.email";
   "github-actions[bot]@users.noreply.github.com"].
Definition cmd_ls_remote (url : string) : list string := ["git"; "ls-remote"; url].
Definition cmd_clone (url dir : string) : list string := ["git"; "clone"; url; dir].
Definition cmd_init : list string := ["git"; "init"].
Definition cmd_remote_add (url : string) : list string :=
  ["git"; "remote"; "add"; "origin"; url].
Definition cmd_symref (url : string) : list string :=
  ["git"; "ls-remote"; "--symref"; url; "HEAD"].
Definition cmd_checkout (branch : string) : list string := ["git"; "checkout"; branch].
Definition cmd_pull (branch : string) : list string := ["git"; "pull"; "origin"; branch].
Definition cmd_add : list string := ["git"; "add"; "."].
Definition cmd_status : list string := ["git"; "status"; "--porcelain"].
Definition cmd_commit (message : string) : list string := ["git"; "commit"; "-m"; message].
Definition cmd_branch_main : list string := ["git"; "branch"; "-M"; "main"].
Definition cmd_push (branch : string) : list string := ["git"; "push"; "origin"; branch].
Definition cmd_push_force : list string := ["git"; "push"; "--force"; "origin"; "main"].

(** [checked script h ok]: the commands of [script] were started one
    after the other, each one only after the one before had passed;
    [ok] tells whether all of them passed, and when it is false the
    last entry of [h] is the one that did not. *)
Inductive checked : list (list string) -> history -> bool -> Prop :=
| checked_done : checked [] [] true
| checked_pass cmd c script h ok :
    returncode c = 0%Z -> checked script h ok ->
    checked (cmd :: script) ((cmd, Exited c) :: h) ok
| checked_stop cmd o script :
    passed o = false -> checked (cmd :: script) [(cmd, o)] false.

Definition default_branch_name (b : string) : Prop := b = "main" \/ b = "master".

(** No Git command removes the directory of the checkout: a command
    started in the directory leaves a directory behind. *)
Definition keeps_directory (E : env) : Prop :=
  forall cmd r t, E_git_tree E cmd r (Some t) <> None.

Section Traces.
Variable E : env.
Open Scope list_scope.

(** Content generation can return [True]. *)
Definition generated : Prop :=
  exists w1 w2, generate_wiki_content E w1 = (Ok true, w2).

(** How content generation stops a branch: it returned [False], which
    the branch turns into the message [no_content], or it raised.  A
    return of [False] is met in a world without the directory only when
    a Git command of the branch removed it. *)
Definition content_failure (no_content : wiki_msg) (e : exn) : Prop :=
  (e = WikiGenerationError no_content /\
   exists w1 w2, generate_wiki_content E w1 = (Ok false, w2) /\
                 (keeps_directory E -> w_wiki w1 <> None)) \/
  (exists w1 w2, generate_wiki_content E w1 = (Raise e, w2)).

(** What [new_wiki] starts, and how it ends. *)
Inductive new_trace (url : string) : history -> result unit -> Prop :=
| new_init_failed h m :
    checked [cmd_init; cmd_remote_add url] h false ->
    new_trace url h (Raise (WikiGenerationError m))
| new_content_failed h e :
    checked [cmd_init; cmd_remote_add url] h true ->
    content_failure NoInitialContent e ->
    new_trace url h (Raise e)
| new_publish_failed h h' m :
    checked [cmd_init; cmd_remote_add url] h true ->
    generated ->
    checked [cmd_add; cmd_commit "Initial wiki content"; cmd_branch_main; cmd_push_force]
            h' false ->
    new_trace url (h ++ h') (Raise (WikiGenerationError m))
| new_published h h' :
    checked [cmd_init; cmd_remote_add url] h true ->
    generated ->
    checked [cmd_add; cmd_commit "Initial wiki content"; cmd_branch_main; cmd_push_force]
            h' true ->
    new_trace url (h ++ h') (Ok tt).

(** What [existing_wiki] starts, and how it ends. *)
Inductive existing_trace (url : string) : history -> result unit -> Prop :=
| existing_no_directory :
    existing_trace url [] (Raise OSError)
| existing_sync_failed b o h m :
    default_branch_name b ->
    checked [cmd_checkout b; cmd_pull b] h false ->
    existing_trace url ((cmd_symref url, o) :: h) (Raise (WikiGenerationError m))
| existing_content_failed b o h e :
    default_branch_name b ->
    checked [cmd_checkout b; cmd_pull b] h true ->
    content_failure NoContent e ->
    existing_trace url ((cmd_symref url, o) :: h) (Raise e)
| existing_stage_failed b o h h' m :
    default_branch_name b ->
    checked [cmd_checkout b; cmd_pull b] h true ->
    generated ->
    checked [cmd_add; cmd_status] h' false ->
    existing_trace url ((cmd_symref url, o) :: h ++ h') (Raise (WikiGenerationError m))
| existing_no_change b o h added status :
    default_branch_name b ->
    checked [cmd_checkout b; cmd_pull b] h true ->
    generated ->
    returncode added = 0%Z -> returncode status = 0%Z ->
    clean status = true ->
    existing_trace url
      ((cmd_symref url, o) :: h ++ [(cmd_add, Exited added); (cmd_status, Exited status)])
      (Ok tt)
| existing_publish_failed b o h added status h' m :
    default_branch_name b ->
    checked [cmd_checkout b; cmd_pull b] h true ->
    generated ->
    returncode added = 0%Z -> returncode status = 0%Z ->
    clean status = false ->
    checked [cmd_commit "Update wiki content"; cmd_push b] h' false ->
    existing_trace url
      ((cmd_symref url, o) :: h
       ++ [(cmd_add, Exited added); (cmd_status, Exited status)] ++ h')
      (Raise (WikiGenerationError m))
| existing_published b o h added status h' :
    default_branch_name b ->
    checked [cmd_checkout b; cmd_pull b] h true ->
    generated ->
    returncode added = 0%Z -> returncode status = 0%Z ->
    clean status = false ->
    checked [cmd_commit "Update wiki content"; cmd_push b] h' true ->
    existing_trace url
      ((cmd_symref url, o) :: h
       ++ [(cmd_add, Exited added); (cmd_status, Exited status)] ++ h')
      (Ok tt).

(** What the [try] block starts after its first clean-up. *)
Inductive main_trace : history -> result unit -> Prop :=
| main_stopped_early e :
    main_trace [] (Raise e)
| main_setup_failed url h e :
    checked [cmd_config_name; cmd_config_email; cmd_ls_remote url] h false ->
    main_trace h (Raise e)
| main_clone_not_started url h m :
    checked [cmd_config_name; cmd_config_email; cmd_ls_remote url] h true ->
    main_trace (h ++ [(cmd_clone url (wiki_dir E), NotStarted)])
               (Raise (WikiGenerationError m))
| main_new url h c h' r :
    checked [cmd_config_name; cmd_config_email; cmd_ls_remote url] h true ->
    returncode c <> 0%Z ->
    new_trace url h' r ->
    main_trace (h ++ (cmd_clone url (wiki_dir E), Exited c) :: h') r
| main_existing url h c h' r :
    checked [cmd_config_name; cmd_config_email; cmd_ls_remote url] h true ->
    returncode c = 0%Z ->
    existing_trace url h' r ->
    main_trace (h ++ (cmd_clone url (wiki_dir E), Exited c) :: h') r.

(** A clean-up: nothing, or one [rm -rf wiki_dir]. *)
Definition cleanup_trace (h : history) : Prop :=
  h = [] \/ exists o, h = [(rm_wiki E, o)].

(** The exception of a run whose [try] block raised [e]: what the
    [except] clauses make of [e], or the [OSError] of a clean-up that
    could not be started. *)
Definition final_exception (e e' : exn) : Prop :=
  e' = OSError \/ exists w, handlers e w = (Raise e', w).

(** The history of a whole run: clean-up, the [try] block, clean-up. *)
Inductive run_trace : history -> result unit -> Prop :=
| run_succeeded pre h :
    cleanup_trace pre -> main_trace h (Ok tt) ->
    run_trace (pre ++ h) (Ok tt)
| run_failed pre h e post e' :
    cleanup_trace pre -> main_trace h (Raise e) -> cleanup_trace post ->
    final_exception e e' ->
    run_trace (pre ++ h ++ post) (Raise e').

End Traces.

(** How a push is protected, given what was run before it. *)
Definition push_guard (before : history) (cmd : list string) : Prop :=
  (cmd = cmd_push_force /\ clone_failed before) \/
  (exists b, cmd = cmd_push b /\ clone_passed before /\
             ran_ok (cmd_checkout b) before /\ ran_ok (cmd_pull b) before).

(** How a commit comes about, given what was run before it. *)
Definition commit_guard (before : history) (cmd : list string) : Prop :=
  (cmd = cmd_commit "Initial wiki content" /\ clone_failed before /\
   ran_ok cmd_add before /\ ~ In cmd_status (commands before)) \/
  (cmd = cmd_commit "Update wiki content" /\ clone_passed before /\
   ran_ok cmd_add before /\
   exists st, In (cmd_status, Exited st) before /\ returncode st = 0%Z /\ clean st = false).

(** ** How one call changes the world *)

(** Nothing started, no file of the wiki directory or credential touched
    (the call may print, change directory or send a request). *)
Definition quiet (w w' : world) : Prop :=
  w_spawned w' = w_spawned w /\ w_credentials w' = w_credentials w /\
  w_wiki w' = w_wiki w.

(** Nothing started and no credential touched. *)
Definition local (w w' : world) : Prop :=
  w_spawned w' = w_spawned w /\ w_credentials w' = w_credentials w.

(** Exactly [cmd] was started, in text mode, and [o] is what the
    script was answered. *)
Definition started (E : env) (cmd : list string) (o : spawn_result) (w w' : world) : Prop :=
  o = in_text_mode (E_run E (w_spawned w) cmd) /\
  w_spawned w' = (w_spawned w ++ [(cmd, o)])%list /\
  w_credentials w' = w_credentials w /\
  w_wiki w' = match E_run E (w_spawned w) cmd with
              | Exited c => after_command E cmd c (w_wiki w)
              | NotStarted => w_wiki w
              end.

(** [m] changes the world only in ways allowed by [R]. *)
Definition preserves (R : world -> world -> Prop) {A} (m : M A) : Prop :=
  forall w r w', m w = (r, w') -> R w w'.

(** ** Reading the data and the answer of the API *)

(** A data file that makes [verify_json_content] raise. *)
Definition unusable (f : file_state) : bool :=
  match f with Holds _ => false | _ => true end.

(** The error of a data file that cannot be used: the
    [WikiGenerationError] made for a file that is absent, unreadable or
    not JSON, and what [json.load] raised otherwise. *)
Definition load_failure (path : string) (f : file_state) : option exn :=
  match f with
  | Absent => Some (WikiGenerationError (FileMissing path))
  | Unreadable => Some (WikiGenerationError (ReadFailed path))
  | NotJson => Some (WikiGenerationError (DecodeFailed path))
  | Rejected e => Some (exn_of_load_error e)
  | Holds _ => None
  end.

(** The error of the first of the two data files that cannot be used. *)
Definition first_load_failure (E : env) : option exn :=
  match load_failure (issues_file E) (E_file E (issues_file E)) with
  | Some e => Some e
  | None => load_failure (milestones_file E) (E_file E (milestones_file E))
  end.

(** The state of an issue is the text [st]. *)
Definition state_is (st : string) (issue : json) : bool :=
  match subscript issue "state" with
  | Ok s => eq_str s st
  | Raise _ => false
  end.

(** A milestone that is an object without a title. *)
Definition lacks_title (ms : json) : Prop :=
  exists kv, ms = JDict kv /\ assoc "title" kv = None.

(** The four pages, laid over the files already in the directory. *)
Definition pages (milestones : json) (active closed : list json) (t : tree) : tree :=
  tree_put "Issues-Cerrados.md" (fst (closed_block closed))
    (tree_put "Issues-Activos.md" (fst (active_block active))
       (tree_put "Milestones.md" (fst (milestones_block milestones))
          (tree_put "Home.md" home_text t))).


(** The texts of a list, one after the other. *)
Definition concat_text (l : list string) : string := fold_right String.append "" l.

(** The capability summary read by [check_repo_access] from the answer
    of the API: [permissions.get('pull')], [permissions.get('push')],
    [permissions.get('admin')] and [repo_data.get('has_wiki')], each by
    its truth value. *)
Record access : Type := Access
  { canRead : bool; canWrite : bool; canAdmin : bool; wikiEnabled : bool }.

Definition reported (repo_data : json) : option access :=
  match repo_data with
  | JDict kv =>
      match (match assoc "permissions" kv with Some p => p | None => JDict [] end) with
      | JDict perms =>
          let flag k := match assoc k perms with Some v => truthy v | None => false end in
          Some (Access (flag "pull") (flag "push") (flag "admin")
                       (match assoc "has_wiki" kv with Some v => truthy v | None => false end))
      | _ => None
      end
  | _ => None
  end.

(** The message [check_repo_access] raises for a token that lacks a
    capability: the checks are made in this order. *)
Definition denial (a : access) : wiki_msg :=
  if negb (canWrite a) then NoWritePermission
  else if negb (canRead a) then NoReadPermission
  else WikiDisabledNoAdmin.

(** The messages of the class the specification calls Forbidden. *)
Definition forbidden (m : wiki_msg) : bool :=
  match m with
  | NoWritePermission | NoReadPermission | WikiDisabledNoAdmin
  | TokenForbidden | EnableWikiFailed _ => true
  | _ => false
  end.

(** ** Statements of the specification that the code does not meet *)

(** Content generation rejects the input before it writes anything. *)
Definition rejected_before_rendering (E : env) (w : world) : Prop :=
  exists e w', generate_wiki_content E w = (Raise e, w') /\ w_wiki w' = w_wiki w.

(** The heading of the entry of an issue. *)
Definition heading (issue : json) : option string :=
  match subscript issue "number", subscript issue "title" with
  | Ok number, Ok title => Some ("## #" ++ py_str number ++ ": " ++ py_str title ++ nl)
  | _, _ => None
  end.

(** The page [name] of the wiki directory has the heading of [issue]. *)
Definition on_page (name : string) (issue : json) (w : world) : bool :=
  match w_wiki w, heading issue with
  | Some t, Some h =>
      match tree_get name t with
      | Some text => contains h text
      | None => false
      end
  | _, _ => false
  end.

(** The pages are generated, and every issue of the data is on one of
    the two issue pages and one only. *)
Definition every_issue_on_one_page (E : env) (w : world) : Prop :=
  fst (generate_wiki_content E w) = Ok true /\
  forall items,
    E_file E (issues_file E) = Holds (JList items) ->
    forall i, In i items ->
      xorb (on_page "Issues-Activos.md" i (snd (generate_wiki_content E w)))
           (on_page "Issues-Cerrados.md" i (snd (generate_wiki_content E w))) = true.

(** The run cleans up: the wiki directory and the credential file are
    gone when it returns. *)
Definition cleaned_up (E : env) (w : world) : Prop :=
  w_wiki (snd (generate_wiki_pages E w)) = None /\
  w_credentials (snd (generate_wiki_pages E w)) = false.

(** The run ends well and has staged, committed and pushed nothing. *)
Definition no_change_outcome (E : env) (w : world) : Prop :=
  fst (generate_wiki_pages E w) = Ok tt /\
  Forall (fun c => is_publish c = false)
         (commands (w_spawned (snd (generate_wiki_pages E w)))).

(** The run never pushes with [--force]. *)
Definition never_force_pushes (E : env) (w : world) : Prop :=
  ~ In cmd_push_force (commands (w_spawned (snd (generate_wiki_pages E w)))).

(** The run commits only after [git status] has shown a change. *)
Definition commits_only_if_dirty (E : env) (w : world) : Prop :=
  forall cmd, In cmd (commands (w_spawned (snd (generate_wiki_pages E w)))) ->
              is_commit cmd = true ->
              exists st, In (cmd_status, Exited st) (w_spawned (snd (generate_wiki_pages E w)))
                         /\ clean st = false.

(** ** Sample runs

    A work directory [/work], a token and a repository name, an API
    that grants every permission, and programs that all exit with
    status 0 unless told otherwise. *)

Definition exit0 : completed := Completed 0 "" "".

Definition sample_repo_data (push pull admin has_wiki : bool) : json :=
  JDict [("has_wiki", JBool has_wiki);
         ("permissions",
          JDict [("admin", JBool admin); ("push", JBool push); ("pull", JBool pull)])].

Definition sample_files (issues milestones : file_state) (path : string) : file_state :=
  if String.eqb path "/work/data/issues.json" then issues
  else if String.eqb path "/work/data/milestones.json" then milestones
  else Absent.

(** Programs: [git clone] exits with [clone_rc], [git status] prints
    [status_out], everything else exits with 0 and prints nothing. *)
Definition sample_run (clone_rc : Z) (status_out : string)
  (_ : history) (cmd : list string) : spawn_result :=
  if String.eqb (subcommand cmd) "clone" then Exited (Completed clone_rc "" "")
  else if String.eqb (subcommand cmd) "status" then Exited (Completed 0 status_out "")
  else Exited exit0.

(** A successful clone brings one page; nothing else changes the tree. *)
Definition sample_git_tree (cmd : list string) (r : completed) (t : option tree)
  : option tree :=
  if String.eqb (subcommand cmd) "clone" && (returncode r =? 0)%Z
  then Some [("Home.md", "old")]
  else t.

Definition sample_env (issues milestones : file_state) (repo_data : json)
  (clone_rc : Z) (status_out : string) : env :=
  {| E_cwd := "/work";
     E_data_dir_exists := true;
     E_file := sample_files issues milestones;
     E_token := Some "t0k3n";
     E_repository := Some "owner/project";
     E_get := Response 200 (Some repo_data);
     E_patch := Response 200 None;
     E_run := sample_run clone_rc status_out;
     E_git_tree := sample_git_tree;
     E_can_open := fun _ => true;
     E_strerror := "" |}.

(** The world before a run: no wiki directory, a credential file left
    by git, nothing printed or started yet. *)
Definition fresh_world : world :=
  {| w_cwd := "/work"; w_wiki := None; w_credentials := true;
     w_stdout := []; w_spawned := []; w_http := [] |}.

Definition sample_issue (number : Z) (title state : string) (labels : json) : json :=
  JDict [("number", JInt number); ("title", JStr title); ("state", JStr state);
         ("created_at", JStr "2024-01-01T00:00:00Z"); ("closed_at", JNull);
         ("labels", labels); ("milestone", JNull); ("body", JStr "")].

Definition sample_issues : list json :=
  [sample_issue 1 "Timeout" "open" (JList [JStr "bug"]);
   sample_issue 2 "Typo" "closed" (JList []);
   sample_issue 3 "Crash" "open" (JList [JStr "bug"; JStr "urgent"])].

Definition sample_milestones : json :=
  JList [JDict [("title", JStr "v1"); ("description", JStr ""); ("state", JStr "open");
                ("created_at", JNull); ("due_on", JNull)]].

Definition all_granted : json := sample_repo_data true true true true.

(** The world once the wiki directory exists and is empty. *)
Definition empty_checkout : world := set_wiki (Some []) fresh_world.

Definition titled (title : string) : json :=
  JDict [("title", JStr title); ("description", JStr ""); ("state", JStr "open");
         ("created_at", JNull); ("due_on", JNull)].

(** A milestone with every field but the title. *)
Definition untitled : json :=
  JDict [("description", JStr "later"); ("state", JStr "open");
         ("created_at", JNull); ("due_on", JNull)].

(** An existing wiki, one milestone without a title after a titled one. *)
Definition untitled_env : env :=
  sample_env (Holds (JList sample_issues)) (Holds (JList [titled "v1"; untitled]))
             all_granted 0 " M Home.md".

(** An existing wiki; the labels of the first issue mix a text and a
    number, the second issue is well formed. *)
Definition mixed_labels_env : env :=
  sample_env
    (Holds (JList [sample_issue 1 "Timeout" "open" (JList [JStr "bug"; JInt 1]);
                   sample_issue 2 "Typo" "open" (JList [JStr "docs"])]))
    (Holds sample_milestones) all_granted 0 " M Home.md".

(** An existing wiki; the second issue of the data is a draft. *)
Definition draft_env : env :=
  sample_env
    (Holds (JList [sample_issue 1 "Timeout" "open" (JList []);
                   sample_issue 2 "Refund" "draft" (JList [])]))
    (Holds sample_milestones) all_granted 0 " M Home.md".

(** Both data files hold an empty list; the wiki exists. *)
Definition empty_data_env : env :=
  sample_env (Holds (JList [])) (Holds (JList [])) all_granted 0 "".

(** The issues file is missing. *)
Definition missing_issues_env : env :=
  sample_env Absent (Holds sample_milestones) all_granted 0 "".

(** An existing wiki whose pages change. *)
Definition update_env : env :=
  sample_env (Holds (JList sample_issues)) (Holds sample_milestones)
             all_granted 0 " M Home.md".

(** A wiki that cannot be cloned yet; [git status] would report nothing. *)
Definition first_run_env : env :=
  sample_env (Holds (JList sample_issues)) (Holds sample_milestones)
             all_granted 1 "".

(** The token may read but not write. *)
Definition read_only_env : env :=
  sample_env (Holds (JList sample_issues)) (Holds sample_milestones)
             (sample_repo_data false true true true) 0 " M Home.md".

(** ** Further readings of the source *)

(** Some character of the text is not white space, of ASCII or of the
    rest of Unicode. *)
Definition has_ink (s : string) : bool :=
  existsb (fun p => negb (is_space_piece p)) (pieces (list_ascii_of_string s)).

(** The message [run_git_command] raises for a command that exited
    with a status other than 0, by what it printed on its error
    output. *)
Definition git_failure (error_msg : option string) (stderr : string) : wiki_msg :=
  if contains "Authentication failed" stderr then GitAuthFailed
  else if contains "repository not found" stderr then GitRepoNotFound
  else if opt_truthy error_msg then GitFailed error_msg stderr
  else GitFailed None stderr.

(** The message [check_repo_access] raises for an HTTP error status. *)
Definition http_failure (status : Z) : wiki_msg :=
  if (status =? 401)%Z then TokenInvalid
  else if (status =? 403)%Z then TokenForbidden
  else if (status =? 404)%Z then RepoMissing
  else ApiError (RequestException (Some status)).

(** The address of the repository in the API. *)
Definition api_url (repo : string) : string := "https://api.github.com/repos/" ++ repo.

(** The call sends no request. *)
Definition same_http (w w' : world) : Prop := w_http w' = w_http w.

(** The call leaves the current directory where it was. *)
Definition same_cwd (w w' : world) : Prop := w_cwd w' = w_cwd w.

(** The requests of a run: none, the GET of the access check, or that
    GET and the PATCH that enables the wiki. *)
Definition requests_of_run (E : env) (reqs : list (string * string)) : Prop :=
  reqs = [] \/
  exists repo,
    E_repository E = Some repo /\
    (reqs = [("GET", api_url repo)] \/
     (reqs = [("GET", api_url repo); ("PATCH", api_url repo)] /\
      exists status repo_data has_wiki,
        E_get E = Response status (Some repo_data) /\
        get repo_data "has_wiki" = Ok has_wiki /\ truthy has_wiki = false)).

(** The [try] block of [generate_wiki_pages] from the statement after
    the access check on: the wiki is enabled when the API says it is
    not, then git is set up and the wiki synchronised. *)
Definition after_access (E : env) (token repo : string) (repo_data : json) : M unit :=
  (let api_url := "https://api.github.com/repos/" ++ repo in
   has_wiki <- lift (get repo_data "has_wiki") ;;
   when (negb (truthy has_wiki))
        (print "Habilitando wiki..." ;;
         status <- requests_patch E api_url ;;
         when (negb (status =? 200)%Z)
              (raise (WikiGenerationError (EnableWikiFailed status)))) ;;
   let wiki_url := "https://x-access-token:" ++ token ++ "@github.com/" ++ repo ++ ".wiki.git" in
   print "URL de wiki configurada (token oculto)" ;;
   run_command E ["git"; "config"; "--global"; "user.name"; "github-actions[bot]"] true ;;
   run_command E ["git"; "config"; "--global"; "user.email";
                  "github-actions[bot]@users.noreply.github.com"] true ;;
   print "Verificando acceso Git..." ;;
   run_git_command E ["git"; "ls-remote"; wiki_url]
                   (Some "No se puede acceder al repositorio wiki") true ;;
   print ("Intentando clonar wiki en: " ++ wiki_dir E) ;;
   clone_result <- run_git_command E ["git"; "clone"; wiki_url; wiki_dir E]
                                   (Some "Error clonando repositorio wiki") false ;;
   let is_new_wiki := negb (returncode clone_result =? 0)%Z in
   if is_new_wiki then new_wiki E wiki_url else existing_wiki E wiki_url)%M.

(** What a run raises when the wiki could not be enabled: the status of
    the answer to the PATCH, or the failure to get an answer. *)
Definition enable_failure (patch : http_result) : wiki_msg :=
  match patch with
  | Response status _ => EnableWikiFailed status
  | ConnectionFailed => GithubApi (RequestException None)
  end.

(** Only clean-ups have been started. *)
Definition only_cleanups (E : env) (h : history) : Prop :=
  Forall (fun cmd => cmd = rm_wiki E) (commands h).

(** The API cannot be reached. *)
Definition offline_env : env :=
  {| E_cwd := "/work"; E_data_dir_exists := true;
     E_file := sample_files (Holds (JList sample_issues)) (Holds sample_milestones);
     E_token := Some "t0k3n";
     E_repository := Some "owner/project";
     E_get := ConnectionFailed; E_patch := ConnectionFailed;
     E_run := sample_run 0 ""; E_git_tree := sample_git_tree;
     E_can_open := fun _ => true; E_strerror := "" |}.

(** The wiki is disabled, the token is an administrator, and the API
    answers the request to enable the wiki with [patch]. *)
Definition disabled_wiki_env (patch : http_result) : env :=
  {| E_cwd := "/work"; E_data_dir_exists := true;
     E_file := sample_files (Holds (JList sample_issues)) (Holds sample_milestones);
     E_token := Some "t0k3n";
     E_repository := Some "owner/project";
     E_get := Response 200 (Some (sample_repo_data true true true false));
     E_patch := patch;
     E_run := sample_run 0 ""; E_git_tree := sample_git_tree;
     E_can_open := fun _ => true; E_strerror := "" |}.

(** [git ls-remote --symref <url> HEAD], the five-word command with
    which [get_default_branch] asks for the branch of the wiki. *)
Definition is_probe (cmd : list string) : bool :=
  is_git "ls-remote" cmd && (length cmd =? 5)%nat.

(** How a run that ended well has published the pages: by the forced
    push of a new wiki, by the push of an update, or not at all because
    [git status] showed nothing to commit. *)
Definition published (l : history) : Prop :=
  (clone_failed l /\ ran_ok (cmd_commit "Initial wiki content") l /\
   ran_ok cmd_push_force l) \/
  (clone_passed l /\
   ((exists b, ran_ok (cmd_commit "Update wiki content") l /\ ran_ok (cmd_push b) l) \/
    (exists st, In (cmd_status, Exited st) l /\ returncode st = 0%Z /\ clean st = true /\
                Forall (fun c => is_commit c = false /\ is_push c = false) (commands l)))).

(** Programs that all exit with 0, but for [git push], which exits
    with 1. *)
Definition push_rejected_run (_ : history) (cmd : list string) : spawn_result :=
  if String.eqb (subcommand cmd) "push" then Exited (Completed 1 "" "rejected")
  else if String.eqb (subcommand cmd) "status" then Exited (Completed 0 " M Home.md" "")
  else Exited exit0.

(** An existing wiki whose pages change and whose push is rejected. *)
Definition push_rejected_env : env :=
  {| E_cwd := "/work"; E_data_dir_exists := true;
     E_file := sample_files (Holds (JList sample_issues)) (Holds sample_milestones);
     E_token := Some "t0k3n";
     E_repository := Some "owner/project";
     E_get := Response 200 (Some all_granted); E_patch := Response 200 None;
     E_run := push_rejected_run; E_git_tree := sample_git_tree;
     E_can_open := fun _ => true; E_strerror := "" |}.

(** ** [fetch_github_data.py]

    The script reads the issues and the milestones of the repository
    through the GitHub client and writes, of each, the fields below to
    [data/issues.json] and [data/milestones.json].  The objects of the
    client are modelled by records of the attributes the script reads;
    a [datetime] is kept abstract, with its method [isoformat].  What
    [json.dump] writes of these values [json.load] reads back as the
    same values. *)

Record github_label : Type := GithubLabel { gl_name : string }.

Section Fetch.
Variable datetime : Type.
Variable isoformat : datetime -> string.

Record github_milestone : Type := GithubMilestone
  { gm_title : string;
    gm_description : option string;
    gm_state : string;
    gm_created_at : option datetime;
    gm_due_on : option datetime }.

Record github_issue : Type := GithubIssue
  { gi_number : Z;
    gi_title : string;
    gi_state : string;
    gi_created_at : datetime;
    gi_closed_at : option datetime;
    gi_labels : list github_label;
    gi_milestone : option github_milestone;
    gi_body : option string }.

(** [s or ''] for a [str] that may be [None] *)
Definition or_empty (s : option string) : string :=
  match s with
  | Some s' => if str_truthy s' then s' else ""
  | None => ""
  end.

(** [d.isoformat() if d else None] *)
Definition isoformat_or_none (d : option datetime) : json :=
  match d with
  | Some d' => JStr (isoformat d')
  | None => JNull
  end.

(** The [dict] appended to [issues_data] for one issue. *)
Definition issue_record (issue : github_issue) : json :=
  JDict [("number", JInt (gi_number issue));
         ("title", JStr (gi_title issue));
         ("state", JStr (gi_state issue));
         ("created_at", JStr (isoformat (gi_created_at issue)));
         ("closed_at", isoformat_or_none (gi_closed_at issue));
         ("labels", JList (map (fun label => JStr (gl_name label)) (gi_labels issue)));
         ("milestone", match gi_milestone issue with
                       | Some m => JStr (gm_title m)
                       | None => JNull
                       end);
         ("body", JStr (or_empty (gi_body issue)))].

(** The [dict] appended to [milestones_data] for one milestone. *)
Definition milestone_record (milestone : github_milestone) : json :=
  JDict [("title", JStr (gm_title milestone));
         ("description", JStr (or_empty (gm_description milestone)));
         ("state", JStr (gm_state milestone));
         ("created_at", isoformat_or_none (gm_created_at milestone));
         ("due_on", isoformat_or_none (gm_due_on milestone))].

(** [fetch_github_data], given what [repo.get_issues(state='all')] and
    [repo.get_milestones(state='all')] yield: the values written to
    [data/issues.json] and to [data/milestones.json]. *)
Definition fetch_github_data (issues : list github_issue)
  (milestones : list github_milestone) : json * json :=
  (JList (map issue_record issues), JList (map milestone_record milestones)).

(** The issues whose state is [st], as written by the script. *)
Definition fetched_with_state (st : string) (issues : list github_issue) : list json :=
  map issue_record (filter (fun i => String.eqb (gi_state i) st) issues).

End Fetch.

Arguments GithubMilestone {datetime}.
Arguments gm_title {datetime}.
Arguments gm_description {datetime}.
Arguments gm_state {datetime}.
Arguments gm_created_at {datetime}.
Arguments gm_due_on {datetime}.
Arguments GithubIssue {datetime}.
Arguments gi_number {datetime}.
Arguments gi_title {datetime}.
Arguments gi_state {datetime}.
Arguments gi_created_at {datetime}.
Arguments gi_closed_at {datetime}.
Arguments gi_labels {datetime}.
Arguments gi_milestone {datetime}.
Arguments gi_body {datetime}.
Arguments isoformat_or_none {datetime}.
Arguments issue_record {datetime}.
Arguments milestone_record {datetime}.
Arguments fetch_github_data {datetime}.
Arguments fetched_with_state {datetime}.

(** The lines of an entry that both issue pages write alike, for an
    issue written by [fetch_github_data]. *)
Definition fetched_issue_tail {datetime} (issue : github_issue datetime) : string :=
  (match gi_milestone issue with
   | Some m => if str_truthy (gm_title m)
               then "**Milestone:** " ++ gm_title m ++ nl ++ nl
               else ""
   | None => ""
   end) ++
  (match gi_labels issue with
   | [] => ""
   | _ => "**Labels:** " ++ join ", " (map gl_name (gi_labels issue)) ++ nl ++ nl
   end) ++
  (if str_truthy (or_empty (gi_body issue))
   then or_empty (gi_body issue) else "Sin descripción")
  ++ nl ++ nl ++ "---" ++ nl ++ nl.

(** A repository as the GitHub client shows it, with dates already in
    ISO form: an open issue with a milestone and two labels, a closed
    issue without body, and one milestone. *)
Definition sample_github_milestone : github_milestone string :=
  GithubMilestone "v1" None "open" (Some "2024-01-01T00:00:00+00:00") None.

Definition sample_github_issues : list (github_issue string) :=
  [GithubIssue 7 "Timeout" "open" "2024-02-01T10:00:00+00:00" None
     [GithubLabel "bug"; GithubLabel "urgent"] (Some sample_github_milestone)
     (Some "Fails after 30 s");
   GithubIssue 8 "Typo" "closed" "2024-02-02T10:00:00+00:00"
     (Some "2024-02-03T10:00:00+00:00") [] None None].

(** An existing wiki and the data files just written by
    [fetch_github_data]. *)
Definition fetched_env : env :=
  sample_env
    (Holds (fst (fetch_github_data (fun d => d) sample_github_issues
                   [sample_github_milestone])))
    (Holds (snd (fetch_github_data (fun d => d) sample_github_issues
                   [sample_github_milestone])))
    all_granted 0 " M Home.md".

(** ** What content generation writes and raises *)

(** The files [generate_wiki_content] writes. *)
Definition page_names : list string :=
  ["Home.md"; "Milestones.md"; "Issues-Activos.md"; "Issues-Cerrados.md"].

(** The exceptions raised by data of an unexpected shape: a missing
    key, a value that cannot be indexed, iterated or joined, a value
    without [get]. *)
Definition data_error (e : exn) : bool :=
  match e with
  | KeyError _ | TypeError | AttributeError => true
  | _ => false
  end.

(** The errors [verify_json_content] raises for the file at [path]. *)
Definition file_error (path : string) (e : exn) : bool :=
  match e with
  | WikiGenerationError (FileMissing p)
  | WikiGenerationError (DecodeFailed p)
  | WikiGenerationError (ReadFailed p) => String.eqb p path
  | _ => false
  end.

(** The exceptions of [json.load] that [verify_json_content] does not
    catch: of a file that is not UTF-8 text, of a number too long to
    convert, of a nesting too deep. *)
Definition load_exception (e : exn) : bool :=
  match e with
  | UnicodeDecodeError | ValueError | RecursionError => true
  | _ => false
  end.

(** A block raises nothing but errors of the data. *)
Definition raises_data_errors {A} (m : W A) : Prop :=
  forall e, snd m = Raise e -> data_error e = true.

(** The line printed when a page cannot be written. *)
Definition write_failure_line (E : env) : string :=
  "Error escribiendo archivos de la wiki del Servicio MercadoPago: " ++ E_strerror E.

(** The data is there, but no page can be opened for writing. *)
Definition read_only_wiki_env : env :=
  {| E_cwd := "/work"; E_data_dir_exists := true;
     E_file := sample_files (Holds (JList sample_issues)) (Holds sample_milestones);
     E_token := Some "t0k3n";
     E_repository := Some "owner/project";
     E_get := Response 200 (Some all_granted); E_patch := Response 200 None;
     E_run := sample_run 0 " M Home.md"; E_git_tree := sample_git_tree;
     E_can_open := fun _ => false; E_strerror := "[Errno 13] Permission denied" |}.

(** An issue with every field but the state. *)
Definition stateless_issue : json :=
  JDict [("number", JInt 4); ("title", JStr "Draft");
         ("created_at", JStr "2024-01-01T00:00:00Z"); ("closed_at", JNull);
         ("labels", JList []); ("milestone", JNull); ("body", JStr "")].

(** An existing wiki; the last issue of the data has no state. *)
Definition stateless_env : env :=
  sample_env (Holds (JList (sample_issues ++ [stateless_issue])))
             (Holds sample_milestones) all_granted 0 " M Home.md".

(** ** Where a reported authentication failure comes from *)

(** Some command of [l] exited with a status other than 0 and wrote
    "Authentication failed" on its error output. *)
Definition auth_evidence (l : history) : Prop :=
  exists cmd c, In (cmd, Exited c) l /\ returncode c <> 0%Z /\
                contains "Authentication failed" (stderr c) = true.

(** What the commands [l] started by a call say of the exception it
    raised: an authentication failure has its evidence in [l], and a
    [CalledProcessError] is that of one of the two [git config]
    commands, the only ones run with [check=True] outside a handler. *)
Definition accounted (l : history) (e : exn) : Prop :=
  match e with
  | WikiGenerationError GitAuthFailed => auth_evidence l
  | CalledProcessError _ cmd => cmd = cmd_config_name \/ cmd = cmd_config_email
  | _ => True
  end.

(** [m] only adds to the history, and what it adds accounts for the
    exception it raises. *)
Definition accounts {A} (m : M A) : Prop :=
  forall w r w', m w = (r, w') ->
    exists l, w_spawned w' = (w_spawned w ++ l)%list /\
              match r with
              | Raise e => accounted l e
              | Ok _ => True
              end.

(** No character of [s] is [c]. *)
Definition lacks_char (c : ascii) (s : string) : bool :=
  forallb (fun x => negb (Ascii.eqb x c)) (list_ascii_of_string s).

(** Every program exits with 0, but for [git ls-remote], which is
    refused. *)
Definition auth_refused_run (_ : history) (cmd : list string) : spawn_result :=
  if String.eqb (subcommand cmd) "ls-remote"
  then Exited (Completed 128 "" "fatal: Authentication failed for 'https://github.com/'")
  else Exited exit0.

Definition auth_refused_env : env :=
  {| E_cwd := "/work"; E_data_dir_exists := true;
     E_file := sample_files (Holds (JList sample_issues)) (Holds sample_milestones);
     E_token := Some "t0k3n";
     E_repository := Some "owner/project";
     E_get := Response 200 (Some all_granted); E_patch := Response 200 None;
     E_run := auth_refused_run; E_git_tree := sample_git_tree;
     E_can_open := fun _ => true; E_strerror := "" |}.

(** ** Issues in the shape of the REST API *)

(** [label] is an object whose name is the text [name]. *)
Definition named (label : json) (name : string) : Prop :=
  exists fields, label = JDict fields /\ assoc "name" fields = Some (JStr name).

(** An issue as the REST API of GitHub gives it, with its milestone and
    its labels as objects. *)
Definition api_shaped_issue : json :=
  JDict [("number", JInt 5); ("title", JStr "Refund"); ("state", JStr "open");
         ("created_at", JStr "2024-03-01T00:00:00Z");
         ("milestone", JDict [("number", JInt 1); ("title", JStr "v2")]);
         ("labels", JList [JDict [("id", JInt 10); ("name", JStr "bug")];
                           JDict [("id", JInt 11); ("name", JStr "payments")]]);
         ("body", JNull)].

(** * Properties *)

(** ** The monad *)

Lemma bind_inv {A B} (m : M A) (f : A -> M B) w r w' :
  bind m f w = (r, w') ->
  (exists a w1, m w = (Ok a, w1) /\ f a w1 = (r, w')) \/
  (exists e, m w = (Raise e, w') /\ r = Raise e).
Proof.
  unfold bind. destruct (m w) as [[a|e] w1]; intros H.
  - left. eauto.
  - right. inversion H; subst. eauto.
Qed.

Lemma try_except_inv {A} (m : M A) (h : exn -> M A) w r w' :
  try_except m h w = (r, w') ->
  (exists a, m w = (Ok a, w') /\ r = Ok a) \/
  (exists e w1, m w = (Raise e, w1) /\ h e w1 = (r, w')).
Proof.
  unfold try_except. destruct (m w) as [[a|e] w1]; intros H.
  - left. inversion H; subst. eauto.
  - right. eauto.
Qed.

Lemma quiet_refl w : quiet w w.
Proof. repeat split. Qed.

Lemma quiet_trans w1 w2 w3 : quiet w1 w2 -> quiet w2 w3 -> quiet w1 w3.
Proof. unfold quiet. intuition congruence. Qed.

Lemma quiet_local w w' : quiet w w' -> local w w'.
Proof. unfold quiet, local. tauto. Qed.

Lemma local_refl w : local w w.
Proof. split; reflexivity. Qed.

Lemma local_trans w1 w2 w3 : local w1 w2 -> local w2 w3 -> local w1 w3.
Proof. unfold local. intuition congruence. Qed.

Lemma print_quiet s w r w' : print s w = (r, w') -> r = Ok tt /\ quiet w w'.
Proof. unfold print. intros H. inversion H; subst. split; [reflexivity | repeat split]. Qed.

Lemma lift_inv {A} (x : result A) w r w' : lift x w = (r, w') -> r = x /\ w' = w.
Proof. unfold lift. intros H. inversion H; auto. Qed.

Lemma ret_inv {A} (a : A) w r w' : ret a w = (r, w') -> r = Ok a /\ w' = w.
Proof. unfold ret. intros H. inversion H; auto. Qed.

Lemma raise_inv {A} e w (r : result A) w' : raise e w = (r, w') -> r = Raise e /\ w' = w.
Proof. unfold raise. intros H. inversion H; auto. Qed.

(** ** Starting programs *)

Lemma subprocess_run_spec E cmd w r w' :
  subprocess_run E cmd w = (r, w') ->
  exists o, started E cmd o w w' /\
            match o with
            | Exited c => r = Ok c
            | NotStarted => r = Raise OSError \/ r = Raise UnicodeDecodeError
            end.
Proof.
  unfold subprocess_run, started, in_text_mode. intros H.
  exists (in_text_mode (E_run E (w_spawned w) cmd)). unfold in_text_mode.
  destruct (E_run E (w_spawned w) cmd) as [c|]; [destruct (readable c)|];
    inversion H; subst; simpl; auto.
Qed.

(** A command started with its output left alone. *)
Lemma subprocess_run_plain_spec E cmd w r w' :
  subprocess_run_plain E cmd w = (r, w') ->
  exists o,
    (o = E_run E (w_spawned w) cmd /\
     w_spawned w' = (w_spawned w ++ [(cmd, o)])%list /\
     w_credentials w' = w_credentials w /\
     w_wiki w' = match o with
                 | Exited c => after_command E cmd c (w_wiki w)
                 | NotStarted => w_wiki w
                 end) /\
    r = match o with Exited c => Ok c | NotStarted => Raise OSError end.
Proof.
  unfold subprocess_run_plain. intros H.
  exists (E_run E (w_spawned w) cmd).
  destruct (E_run E (w_spawned w) cmd) as [c|]; inversion H; subst; simpl; auto.
Qed.

Lemma started_then_quiet E cmd o w w1 w' :
  started E cmd o w w1 -> quiet w1 w' -> started E cmd o w w'.
Proof.
  unfold quiet, started. intros (Ho & Hs' & Hc' & Hw') (Hs & Hc & Hw).
  rewrite Hs, Hc, Hw. auto.
Qed.

(** The script was answered a result: the program has exited, and the
    result is its output as text. *)
Lemma started_exited E cmd c w w' :
  started E cmd (Exited c) w w' ->
  exists c0, E_run E (w_spawned w) cmd = Exited c0 /\ readable c0 = true /\
             c = as_text c0 /\ w_wiki w' = after_command E cmd c0 (w_wiki w).
Proof.
  unfold started, in_text_mode. intros (Ho & _ & _ & Hw).
  destruct (E_run E (w_spawned w) cmd) as [c0|]; [|discriminate].
  destruct (readable c0) eqn:Hr; [|discriminate].
  inversion Ho. eauto.
Qed.

Lemma run_command_spec E cmd check w r w' :
  run_command E cmd check w = (r, w') ->
  exists o, started E cmd o w w' /\
    match o with
    | Exited c => if check && negb (returncode c =? 0)%Z
                  then r = Raise (CalledProcessError (returncode c) cmd)
                  else r = Ok c
    | NotStarted => r = Raise OSError \/ r = Raise UnicodeDecodeError
    end.
Proof.
  unfold run_command. intros H.
  apply bind_inv in H as [(c & w1 & H1 & H2) | (e & H1 & ->)];
    apply subprocess_run_spec in H1 as (o & Hst & Hr); exists o.
  - destruct o as [c'|]; [|destruct Hr; discriminate]. inversion Hr; subst c'.
    destruct (check && negb (returncode c =? 0)%Z).
    + apply bind_inv in H2 as [(? & w2 & P1 & H2) | (e & P1 & ->)];
        [|apply print_quiet in P1 as [? _]; discriminate].
      apply print_quiet in P1 as [_ Q1].
      apply bind_inv in H2 as [(? & w3 & P2 & H2) | (e & P2 & ->)];
        [|apply print_quiet in P2 as [? _]; discriminate].
      apply print_quiet in P2 as [_ Q2].
      apply bind_inv in H2 as [(? & w4 & P3 & H2) | (e & P3 & ->)];
        [|apply print_quiet in P3 as [? _]; discriminate].
      apply print_quiet in P3 as [_ Q3].
      apply raise_inv in H2 as [-> ->].
      split; [|reflexivity].
      eapply started_then_quiet; [eassumption|].
      eauto using quiet_trans.
    + apply ret_inv in H2 as [-> ->]. auto.
  - destruct o as [c'|]; [discriminate|]. auto.
Qed.

Lemma run_git_command_spec E cmd msg check w r w' :
  run_git_command E cmd msg check w = (r, w') ->
  exists o, started E cmd o w w' /\
    ((exists c, r = Ok c /\ o = Exited c /\ (check = true -> returncode c = 0%Z)) \/
     (exists m, r = Raise (WikiGenerationError m) /\ passed o = false)).
Proof.
  unfold run_git_command. intros H.
  apply try_except_inv in H as [(c & H & ->) | (e & w1 & H & Hh)].
  - apply bind_inv in H as [(c' & w1 & H1 & H2) | (e & H1 & ?)]; [|discriminate].
    apply run_command_spec in H1 as (o & Hst & Hr).
    destruct o as [c0|]; [|destruct Hr; discriminate]. simpl in Hr. inversion Hr; subst c0.
    destruct (check && negb (returncode c' =? 0)%Z) eqn:Hc.
    + destruct (contains "Authentication failed" (stderr c'));
        [apply raise_inv in H2 as [? _]; discriminate|].
      destruct (contains "repository not found" (stderr c'));
        [apply raise_inv in H2 as [? _]; discriminate|].
      destruct (opt_truthy msg); apply raise_inv in H2 as [? _]; discriminate.
    + apply ret_inv in H2 as [H2 ->]. inversion H2; subst c'.
      exists (Exited c). split; [assumption|]. left. exists c. repeat split.
      intros ->. simpl in Hc. apply negb_false_iff in Hc. lia.
  - apply bind_inv in H as [(c' & w2 & H1 & H2) | (e' & H1 & He)].
    + apply run_command_spec in H1 as (o & Hst & Hr).
      destruct o as [c0|]; [|destruct Hr; discriminate]. simpl in Hr. inversion Hr; subst c0.
      destruct (check && negb (returncode c' =? 0)%Z) eqn:Hc;
        [|apply ret_inv in H2 as [? _]; discriminate].
      assert (Hp : passed (Exited c') = false).
      { simpl. apply andb_true_iff in Hc as [_ Hc]. now apply negb_true_iff in Hc. }
      assert (Hw : w1 = w2 /\ exists m, e = WikiGenerationError m).
      { destruct (contains "Authentication failed" (stderr c'));
          [apply raise_inv in H2 as [H2 ->]; inversion H2; eauto|].
        destruct (contains "repository not found" (stderr c'));
          [apply raise_inv in H2 as [H2 ->]; inversion H2; eauto|].
        destruct (opt_truthy msg); apply raise_inv in H2 as [H2 ->]; inversion H2; eauto. }
      destruct Hw as (-> & m & ->). simpl in Hh.
      apply raise_inv in Hh as [-> ->].
      exists (Exited c'). split; [assumption|]. right. eauto.
    + inversion He; subst e'.
      apply run_command_spec in H1 as (o & Hst & Hr).
      destruct o as [c0|].
      * simpl in Hr. destruct (returncode c0 =? 0)%Z; discriminate.
      * destruct Hr as [Hr | Hr]; inversion Hr; subst e; simpl in Hh;
          apply raise_inv in Hh as [-> ->];
          exists NotStarted; (split; [assumption|]); right; eauto.
Qed.

(** ** Writing the pages *)

Lemma with_open_spec can name block w r w' :
  with_open can name block w = (r, w') ->
  local w w' /\
  ((w' = w /\ r = Raise OSError) \/
   (exists t, w_wiki w = Some t /\ w_wiki w' = Some (tree_put name (fst block) t) /\
              r = snd block)).
Proof.
  unfold with_open. intros H.
  destruct (w_wiki w) as [t|] eqn:Hw.
  - destruct (can name); inversion H; subst.
    + split; [split; reflexivity|]. right. exists t. auto.
    + split; [apply local_refl|]. auto.
  - inversion H; subst. split; [apply local_refl|]. auto.
Qed.

Lemma verify_json_content_spec E path w r w' :
  verify_json_content E path w = (r, w') ->
  quiet w w' /\
  match E_file E path with
  | Absent => r = Raise (WikiGenerationError (FileMissing path))
  | Unreadable => r = Raise (WikiGenerationError (ReadFailed path))
  | NotJson => r = Raise (WikiGenerationError (DecodeFailed path))
  | Rejected e => r = Raise (exn_of_load_error e)
  | Holds data => r = Ok data
  end.
Proof.
  unfold verify_json_content. intros H.
  destruct (E_file E path) as [| | |le|data].
  1-4: apply raise_inv in H as [-> ->]; split; [apply quiet_refl | reflexivity].
  unfold when, bind in H. destruct (negb (truthy data)).
  - unfold print, ret in H. inversion H; subst. split; [repeat split | reflexivity].
  - unfold ret in H. inversion H; subst. split; [apply quiet_refl | reflexivity].
Qed.

Ltac pages_side :=
  split; [eauto using local_trans, local_refl|];
  repeat split; intros; try discriminate; eauto; congruence.

Lemma write_pages_spec E issues milestones w r w' :
  write_pages E issues milestones w = (r, w') ->
  local w w' /\
  (w_wiki w = None -> w_wiki w' = None) /\
  (forall t, w_wiki w = Some t -> exists t', w_wiki w' = Some t') /\
  (forall b, r = Ok b ->
     b = true /\
     exists t active closed,
       w_wiki w = Some t /\
       issues_with_state "open" issues = Ok active /\
       issues_with_state "closed" issues = Ok closed /\
       snd (milestones_block milestones) = Ok tt /\
       snd (active_block active) = Ok tt /\
       snd (closed_block closed) = Ok tt /\
       w_wiki w' = Some (pages milestones active closed t)).
Proof.
  unfold write_pages. intros H.
  apply bind_inv in H as [(? & w1 & H1 & H) | (e & H1 & ->)];
    apply with_open_spec in H1 as (L1 & [(-> & R1) | (t1 & W0 & W1 & R1)]);
    try discriminate; try solve [pages_side].
  apply bind_inv in H as [(? & w2 & H2 & H) | (e & H2 & ->)];
    apply with_open_spec in H2 as (L2 & [(-> & R2) | (t2 & W1' & W2 & R2)]);
    try discriminate; try solve [pages_side].
  apply bind_inv in H as [(active & w3 & H3 & H) | (e & H3 & ->)];
    apply lift_inv in H3 as (R3 & ->); try solve [pages_side].
  apply bind_inv in H as [(? & w4 & H4 & H) | (e & H4 & ->)];
    apply with_open_spec in H4 as (L4 & [(-> & R4) | (t4 & W2' & W4 & R4)]);
    try discriminate; try solve [pages_side].
  apply bind_inv in H as [(closed & w5 & H5 & H) | (e & H5 & ->)];
    apply lift_inv in H5 as (R5 & ->); try solve [pages_side].
  apply bind_inv in H as [(? & w6 & H6 & H) | (e & H6 & ->)];
    apply with_open_spec in H6 as (L6 & [(-> & R6) | (t6 & W4' & W6 & R6)]);
    try discriminate; try solve [pages_side].
  apply ret_inv in H as [-> ->].
  split; [eauto using local_trans|]. repeat split; intros; try congruence; eauto.
  exists t1, active, closed. unfold pages.
  rewrite W1 in W1'. inversion W1'; subst t2.
  rewrite W2 in W2'. inversion W2'; subst t4.
  rewrite W4 in W4'. inversion W4'; subst t6.
  destruct x0, x1, x2. repeat split; auto.
Qed.

Lemma generate_wiki_content_spec E w r w' :
  generate_wiki_content E w = (r, w') ->
  local w w' /\
  (w_wiki w = None -> w_wiki w' = None) /\
  (forall t, w_wiki w = Some t -> exists t', w_wiki w' = Some t') /\
  ((unusable (E_file E (issues_file E)) || unusable (E_file E (milestones_file E)) = true /\
    (exists e, r = Raise e /\ first_load_failure E = Some e) /\ w_wiki w' = w_wiki w) \/
   (exists issues milestones,
      E_file E (issues_file E) = Holds issues /\
      E_file E (milestones_file E) = Holds milestones /\
      if negb (truthy issues) && negb (truthy milestones)
      then r = Ok false /\ w_wiki w' = w_wiki w
      else r = Ok true ->
           exists t active closed,
             w_wiki w = Some t /\
             issues_with_state "open" issues = Ok active /\
             issues_with_state "closed" issues = Ok closed /\
             snd (milestones_block milestones) = Ok tt /\
             snd (active_block active) = Ok tt /\
             snd (closed_block closed) = Ok tt /\
             w_wiki w' = Some (pages milestones active closed t))).
Proof.
  unfold generate_wiki_content. intros H.
  apply bind_inv in H as [(issues & w1 & H1 & H) | (e & H1 & ->)];
    apply verify_json_content_spec in H1 as (Q1 & R1).
  2:{ destruct Q1 as (Qs & Qc & Qw).
      split; [split; assumption|]. rewrite Qw.
      split; [auto|]. split; [eauto|]. left. unfold first_load_failure.
      destruct (E_file E (issues_file E)); try discriminate;
        inversion R1; subst e;
        (split; [reflexivity|]; split; [eauto|reflexivity]). }
  destruct (E_file E (issues_file E)) as [| | |le|i0] eqn:Fi; try discriminate.
  inversion R1; subst i0. clear R1.
  apply bind_inv in H as [(milestones & w2 & H2 & H) | (e & H2 & ->)];
    apply verify_json_content_spec in H2 as (Q2 & R2).
  2:{ pose proof (quiet_trans _ _ _ Q1 Q2) as (Qs & Qc & Qw).
      split; [split; assumption|]. rewrite Qw.
      split; [auto|]. split; [eauto|]. left. unfold first_load_failure.
      rewrite Fi. cbn [load_failure].
      destruct (E_file E (milestones_file E)); try discriminate;
        inversion R2; subst e;
        (split; [apply orb_true_r|]; split; [eauto|reflexivity]). }
  destruct (E_file E (milestones_file E)) as [| | |le|m0] eqn:Fm; try discriminate.
  inversion R2; subst m0. clear R2.
  pose proof (quiet_trans _ _ _ Q1 Q2) as Q. clear Q1 Q2.
  destruct (negb (truthy issues) && negb (truthy milestones)) eqn:Hempty.
  - apply bind_inv in H as [(? & w3 & P & H) | (e & P & ->)];
      apply print_quiet in P as (? & Q3); try discriminate.
    apply ret_inv in H as [-> ->].
    pose proof (quiet_trans _ _ _ Q Q3) as (Qs & Qc & Qw).
    split; [split; assumption|]. rewrite Qw.
    split; [auto|]. split; [eauto|]. right.
    exists issues, milestones. rewrite Hempty. auto.
  - destruct Q as (Qs & Qc & Qw).
    assert (Hgoal : forall w3 : world,
      local w2 w3 ->
      (w_wiki w2 = None -> w_wiki w3 = None) ->
      (forall t, w_wiki w2 = Some t -> exists t', w_wiki w3 = Some t') ->
      local w w3 /\ (w_wiki w = None -> w_wiki w3 = None) /\
      (forall t, w_wiki w = Some t -> exists t', w_wiki w3 = Some t')).
    { intros w3 (Ls & Lc) Hn Hs. rewrite <- Qw.
      repeat split; try congruence; auto. }
    apply try_except_inv in H as [(b & H & ->) | (e & w3 & H & Hh)];
      apply write_pages_spec in H as (L & Hn & Hs & Hok).
    + destruct (Hgoal w' L Hn Hs) as (G1 & G2 & G3).
      split; [assumption|]. split; [assumption|]. split; [assumption|]. right.
      exists issues, milestones. rewrite Hempty.
      split; [reflexivity|]. split; [reflexivity|].
      intros Hb. destruct (Hok b eq_refl) as (_ & t & a & c & Hx).
      rewrite <- Qw. eauto.
    + assert (Hq : quiet w3 w' /\ r <> Ok true).
      { destruct e; try (apply raise_inv in Hh as [-> ->];
                         split; [apply quiet_refl | discriminate]).
        apply bind_inv in Hh as [(? & w4 & P & Hh) | (e & P & ->)];
          apply print_quiet in P as (? & Q3); try discriminate.
        apply ret_inv in Hh as [-> ->]. split; [assumption | discriminate]. }
      destruct Hq as ((Q3s & Q3c & Q3w) & Hr).
      assert (L' : local w2 w') by (destruct L; split; congruence).
      rewrite <- Q3w in Hn, Hs.
      destruct (Hgoal w' L' Hn Hs) as (G1 & G2 & G3).
      split; [assumption|]. split; [assumption|]. split; [assumption|]. right.
      exists issues, milestones. rewrite Hempty.
      split; [reflexivity|]. split; [reflexivity|].
      intros Hb. contradiction.
Qed.

(** ** Label normalisation *)

(** C9. [format_labels] is a total function (it is one by construction:
    no case of it raises); it maps an absent value and the empty list to
    the empty list, the single text "bug" to the list holding "bug", a
    list of texts to itself, and a list of objects named "bug" to as
    many times "bug", so the one object [{name: "bug"}] to ["bug"]. *)
Theorem format_labels_cases :
  format_labels JNull = JList [] /\
  format_labels (JList []) = JList [] /\
  format_labels (JStr "bug") = JList [JStr "bug"] /\
  (forall texts, format_labels (JList (map JStr texts)) = JList (map JStr texts)) /\
  format_labels (JList [JDict [("name", JStr "bug")]]) = JList [JStr "bug"] /\
  (forall others : list (list (string * json)),
     format_labels (JList (map (fun kv => JDict (("name", JStr "bug") :: kv)) others))
     = JList (map (fun _ => JStr "bug") others)).
Proof.
  repeat split; try reflexivity.
  - intros [|s texts]; reflexivity.
  - intros others. unfold format_labels.
    destruct others as [|kv others]; [reflexivity|].
    cbn [truthy negb map].
    replace (forallb is_dict (JDict (("name", JStr "bug") :: kv)
               :: map (fun kv0 => JDict (("name", JStr "bug") :: kv0)) others))
      with true.
    + f_equal. cbn [map]. f_equal. rewrite map_map. apply map_ext. reflexivity.
    + symmetry. apply forallb_forall. intros x [<- | Hx]; [reflexivity|].
      apply in_map_iff in Hx as (kv0 & <- & _). reflexivity.
Qed.

(** ** The data files *)

(** C10. When the issues file or the milestones file is absent,
    unreadable or not JSON, [generate_wiki_content] raises an error
    and the wiki directory is as it was: no page has been written.
    The error is that of the first file that cannot be used: the
    [WikiGenerationError] that [verify_json_content] makes for a file
    that is absent, unreadable or not JSON, and, for a file on which
    [json.load] raises something else (it is not UTF-8, say), that
    exception as it is.  A file holding an empty value is accepted by
    [verify_json_content]: the value is returned, and a warning is the
    one line printed. *)
Theorem data_files_checked E w :
  (unusable (E_file E (issues_file E)) = true \/
   unusable (E_file E (milestones_file E)) = true ->
   exists e w', first_load_failure E = Some e /\
                generate_wiki_content E w = (Raise e, w') /\
                w_wiki w' = w_wiki w) /\
  (forall path data,
     E_file E path = Holds data -> truthy data = false ->
     verify_json_content E path w
     = (Ok data, add_stdout ("Advertencia: " ++ path ++ " está vacío") w)).
Proof.
  split.
  - intros Hbad.
    destruct (generate_wiki_content E w) as [r w'] eqn:Hg.
    apply generate_wiki_content_spec in Hg
      as (_ & _ & _ & [(_ & (e & -> & He) & Hw) | Hh]).
    + eauto.
    + destruct Hh as (i & m & Hi & Hm & _). rewrite Hi, Hm in Hbad.
      destruct Hbad; discriminate.
  - intros path data Hf Hd. unfold verify_json_content. rewrite Hf.
    unfold when, bind. rewrite Hd. reflexivity.
Qed.

Lemma data_files_checked_witness :
  (exists e w', first_load_failure missing_issues_env = Some e /\
                generate_wiki_content missing_issues_env empty_checkout = (Raise e, w') /\
                w_wiki w' = w_wiki empty_checkout) /\
  verify_json_content empty_data_env "/work/data/issues.json" empty_checkout
  = (Ok (JList []),
     add_stdout "Advertencia: /work/data/issues.json está vacío" empty_checkout).
Proof.
  split.
  - apply (proj1 (data_files_checked missing_issues_env empty_checkout)).
    left. reflexivity.
  - apply (proj2 (data_files_checked empty_data_env empty_checkout)
             "/work/data/issues.json" (JList [])); reflexivity.
Defined.

(** ** The issue pages *)

Lemma w_for_ok {A} (body : A -> W unit) l s :
  w_for l body = (s, Ok tt) ->
  s = concat_text (map (fun x => fst (body x)) l) /\
  Forall (fun x => snd (body x) = Ok tt) l.
Proof.
  revert s. induction l as [|x l IH]; intros s H.
  - inversion H. split; [reflexivity | constructor].
  - simpl in H. unfold w_bind in H.
    destruct (body x) as [sx [[]|e]] eqn:Hx; [|discriminate].
    destruct (w_for l body) as [sl rl] eqn:Hl.
    inversion H; subst s rl.
    destruct (IH sl eq_refl) as (-> & Hall).
    split; [simpl; rewrite Hx; reflexivity|].
    constructor; [rewrite Hx; reflexivity | assumption].
Qed.

Lemma select_state_filter st items :
  Forall (fun i => state_is "open" i = true \/ state_is "closed" i = true) items ->
  select_state st items = Ok (filter (state_is st) items).
Proof.
  induction 1 as [|i items Hi _ IH]; [reflexivity|].
  simpl. rewrite IH. unfold state_is in *.
  destruct (subscript i "state") as [s|e].
  - destruct (eq_str s st); reflexivity.
  - destruct Hi; discriminate.
Qed.

(** What the selection returns when it returns. *)
Lemma select_state_ok st items l :
  select_state st items = Ok l -> l = filter (state_is st) items.
Proof.
  revert l. induction items as [|i items IH]; intros l H.
  - now inversion H.
  - cbn [select_state] in H.
    destruct (subscript i "state") as [s|e] eqn:Hs; [|discriminate].
    destruct (select_state st items) as [r|e]; [|discriminate].
    inversion H. rewrite (IH r eq_refl). cbn [filter].
    replace (state_is st i) with (eq_str s st)
      by (unfold state_is; now rewrite Hs).
    reflexivity.
Qed.

Lemma open_not_closed i : state_is "open" i = true -> state_is "closed" i = true -> False.
Proof.
  unfold state_is. destruct (subscript i "state") as [s|e]; [|discriminate].
  destruct s as [| | |s| |]; simpl; try discriminate.
  intros Ho Hc. apply String.eqb_eq in Ho. apply String.eqb_eq in Hc.
  subst s. discriminate.
Qed.

Lemma tree_get_put_same name text t : tree_get name (tree_put name text t) = Some text.
Proof.
  induction t as [|[n x] t IH]; simpl.
  - now rewrite String.eqb_refl.
  - destruct (String.eqb n name) eqn:Hn; simpl.
    + now rewrite String.eqb_refl.
    + now rewrite Hn.
Qed.

Lemma tree_get_put_other name other text t :
  String.eqb other name = false ->
  tree_get name (tree_put other text t) = tree_get name t.
Proof.
  intros Hne. induction t as [|[n x] t IH]; simpl.
  - now rewrite Hne.
  - destruct (String.eqb n other) eqn:Hn; simpl.
    + apply String.eqb_eq in Hn. subst n. now rewrite Hne.
    + now rewrite IH.
Qed.

Lemma open_xor_closed i :
  state_is "open" i = true \/ state_is "closed" i = true ->
  state_is "open" i = negb (state_is "closed" i).
Proof.
  unfold state_is. destruct (subscript i "state") as [s|e]; [|intros []; discriminate].
  destruct s as [| | |s| |]; simpl; try (intros []; discriminate).
  destruct (String.eqb s "open") eqn:Ho.
  - apply String.eqb_eq in Ho. subst s. reflexivity.
  - intros [Hf | ->]; [discriminate | reflexivity].
Qed.

Lemma partition_by_state items :
  Forall (fun i => state_is "open" i = true \/ state_is "closed" i = true) items ->
  Permutation (filter (state_is "open") items ++ filter (state_is "closed") items) items.
Proof.
  induction 1 as [|i items Hi _ IH]; [constructor|].
  simpl. rewrite (open_xor_closed i Hi).
  destruct (state_is "closed" i); simpl.
  - apply Permutation_sym, Permutation_cons_app, Permutation_sym, IH.
  - constructor. exact IH.
Qed.

Lemma w_bind_eval_ok {A B} (a : A) (k : A -> W B) : w_bind (eval (Ok a)) k = k a.
Proof. unfold w_bind, eval. destruct (k a). reflexivity. Qed.

Lemma w_bind_write {B} s (k : unit -> W B) : fst (w_bind (write s) k) = s ++ fst (k tt).
Proof. unfold w_bind, write. destruct (k tt). reflexivity. Qed.

(** An entry that was written in full opens with the heading of its
    issue. *)
Lemma active_entry_heading i :
  snd (active_entry i) = Ok tt ->
  exists number title rest,
    subscript i "number" = Ok number /\ subscript i "title" = Ok title /\
    fst (active_entry i)
    = ("## #" ++ py_str number ++ ": " ++ py_str title ++ nl) ++ rest.
Proof.
  unfold active_entry. intros H.
  destruct (subscript i "number") as [number|e]; [|discriminate].
  destruct (subscript i "title") as [title|e]; [|discriminate].
  exists number, title. rewrite !w_bind_eval_ok, w_bind_write. eauto.
Qed.

Lemma closed_entry_heading i :
  snd (closed_entry i) = Ok tt ->
  exists number title rest,
    subscript i "number" = Ok number /\ subscript i "title" = Ok title /\
    fst (closed_entry i)
    = ("## #" ++ py_str number ++ ": " ++ py_str title ++ nl) ++ rest.
Proof.
  unfold closed_entry. intros H.
  destruct (subscript i "number") as [number|e]; [|discriminate].
  destruct (subscript i "title") as [title|e]; [|discriminate].
  exists number, title. rewrite !w_bind_eval_ok, w_bind_write. eauto.
Qed.

(** C6, as the code has it.  When the pages are generated, the page of
    active issues is its header followed by the entries of the issues
    whose state is the text "open", in the order of the data, and the
    page of closed issues its header followed by the entries of those
    whose state is "closed", in the order of the data.  No issue is on
    both pages, and an issue is on a page only by its state: one whose
    state is another value ("draft", "OPEN") is on neither.  So the two
    pages split the data — each issue on one page and one only — when
    every issue is open or closed, and not otherwise.  Each entry opens
    with the heading [## #number: title] of its issue. *)
Theorem issue_pages_partition E w w' items :
  E_file E (issues_file E) = Holds (JList items) ->
  generate_wiki_content E w = (Ok true, w') ->
  let active := filter (state_is "open") items in
  let closed := filter (state_is "closed") items in
  exists t,
    w_wiki w' = Some t /\
    tree_get "Issues-Activos.md" t
    = Some (active_header ++ concat_text (map (fun i => fst (active_entry i)) active)) /\
    tree_get "Issues-Cerrados.md" t
    = Some (closed_header ++ concat_text (map (fun i => fst (closed_entry i)) closed)) /\
    (forall i, In i active -> ~ In i closed) /\
    (forall i, In i items ->
       state_is "open" i = false -> state_is "closed" i = false ->
       ~ In i active /\ ~ In i closed) /\
    (Forall (fun i => state_is "open" i = true \/ state_is "closed" i = true) items ->
     Permutation (active ++ closed) items) /\
    (forall i, In i active ->
       exists number title rest,
         subscript i "number" = Ok number /\ subscript i "title" = Ok title /\
         fst (active_entry i)
         = ("## #" ++ py_str number ++ ": " ++ py_str title ++ nl) ++ rest) /\
    (forall i, In i closed ->
       exists number title rest,
         subscript i "number" = Ok number /\ subscript i "title" = Ok title /\
         fst (closed_entry i)
         = ("## #" ++ py_str number ++ ": " ++ py_str title ++ nl) ++ rest).
Proof.
  intros Hfile Hgen active closed.
  apply generate_wiki_content_spec in Hgen
    as (_ & _ & _ & [(_ & (e & He & _) & _) | Hh]); [discriminate|].
  destruct Hh as (issues & milestones & Hi & _ & Hh).
  rewrite Hfile in Hi. inversion Hi; subst issues. clear Hi.
  destruct (negb (truthy (JList items)) && negb (truthy milestones));
    [destruct Hh; discriminate|].
  destruct (Hh eq_refl) as (t & act & cl & _ & Hact & Hcl & _ & Bact & Bcl & Hw).
  unfold issues_with_state in Hact, Hcl. simpl in Hact, Hcl.
  apply select_state_ok in Hact. apply select_state_ok in Hcl. subst act cl.
  fold active in Bact, Hw. fold closed in Bcl, Hw.
  exists (pages milestones active closed t).
  split; [assumption|]. unfold pages.
  unfold active_block, closed_block, write, w_bind in Bact, Bcl.
  destruct (w_for active active_entry) as [sa ra] eqn:Hfa. simpl in Bact. subst ra.
  destruct (w_for closed closed_entry) as [sc rc] eqn:Hfc. simpl in Bcl. subst rc.
  pose proof (w_for_ok _ _ _ Hfa) as (Hsa & Ha).
  pose proof (w_for_ok _ _ _ Hfc) as (Hsc & Hc).
  rewrite Forall_forall in Ha, Hc.
  split; [|split; [|split; [|split; [|split; [|split]]]]].
  - rewrite tree_get_put_other by reflexivity. rewrite tree_get_put_same.
    f_equal. unfold active_block, write, w_bind. rewrite Hfa, Hsa. reflexivity.
  - rewrite tree_get_put_same.
    f_equal. unfold closed_block, write, w_bind. rewrite Hfc, Hsc. reflexivity.
  - intros i Hin Hin'. apply filter_In in Hin as (_ & Ho).
    apply filter_In in Hin' as (_ & Hc'). apply (open_not_closed i); assumption.
  - intros i _ Ho Hc'. split; intros Hin; apply filter_In in Hin as (_ & Hin);
      congruence.
  - apply partition_by_state.
  - intros i Hin. apply active_entry_heading. auto.
  - intros i Hin. apply closed_entry_heading. auto.
Qed.

(** C6 fails as stated: an issue whose state is "draft" is in the data
    and on neither issue page. *)
Lemma draft_issue_on_no_page : ~ every_issue_on_one_page draft_env empty_checkout.
Proof.
  intros (_ & H).
  specialize (H _ eq_refl (sample_issue 2 "Refund" "draft" (JList []))).
  vm_compute in H. discriminate H. right. left. reflexivity.
Qed.

(** ** Milestones without a title *)

Lemma append_assoc (a b c : string) : (a ++ b) ++ c = a ++ (b ++ c).
Proof. induction a as [|x a IH]; simpl; [reflexivity | now rewrite IH]. Qed.

Lemma append_nil_r (a : string) : a ++ "" = a.
Proof. induction a as [|x a IH]; simpl; [reflexivity | now rewrite IH]. Qed.

Lemma w_for_raises {A} (body : A -> W unit) before x after s e :
  Forall (fun y => snd (body y) = Ok tt) before ->
  body x = (s, Raise e) ->
  w_for (before ++ x :: after) body
  = (concat_text (map (fun y => fst (body y)) before) ++ s, Raise e).
Proof.
  intros Hb Hx. induction Hb as [|y before Hy _ IH]; simpl.
  - unfold w_bind. rewrite Hx. reflexivity.
  - unfold w_bind. destruct (body y) as [sy ry] eqn:Ey. simpl in Hy. subst ry.
    rewrite IH. simpl. now rewrite append_assoc.
Qed.

Lemma untitled_entry ms : lacks_title ms -> milestone_entry ms = ("", Raise (KeyError "title")).
Proof.
  intros (kv & -> & Hk). unfold milestone_entry, w_bind, eval, subscript.
  now rewrite Hk.
Qed.

(** A milestone with a null title and a state is rendered, under the
    heading [## None]. *)
Lemma null_title_entry kv st :
  assoc "title" kv = Some JNull -> assoc "state" kv = Some st ->
  exists rest, milestone_entry (JDict kv) = (("## None" ++ nl) ++ rest, Ok tt).
Proof.
  intros Ht Hs. unfold milestone_entry, w_bind, eval, subscript, get, write, w_ret.
  rewrite Ht, Hs. cbn [fst snd py_str py_repr].
  destruct (assoc "description" kv) as [d|];
    destruct (assoc "due_on" kv) as [due|]; cbn [fst snd truthy];
    try destruct (truthy due); cbn [fst snd];
    eexists; rewrite ?append_assoc; reflexivity.
Qed.

(** Content generation with a milestone without title in the list,
    after milestones that render: in a directory it raises
    [KeyError('title')] with [Home.md] written and [Milestones.md] cut
    short; without the directory it returns [False]. *)
Lemma untitled_generation E issues before ms after :
  E_file E (issues_file E) = Holds issues ->
  E_file E (milestones_file E) = Holds (JList (before ++ ms :: after)) ->
  lacks_title ms ->
  Forall (fun m => snd (milestone_entry m) = Ok tt) before ->
  E_can_open E "Home.md" = true ->
  E_can_open E "Milestones.md" = true ->
  forall w r w',
    generate_wiki_content E w = (r, w') ->
    (exists t, w_wiki w = Some t /\ r = Raise (KeyError "title") /\
               w_wiki w'
               = Some (tree_put "Milestones.md"
                         (milestones_header
                          ++ concat_text (map (fun m => fst (milestone_entry m)) before))
                         (tree_put "Home.md" home_text t))) \/
    (w_wiki w = None /\ r = Ok false).
Proof.
  intros Hi Hm Hms Hbefore Hhome Hmil w r w' Hg.
  assert (Hblock : milestones_block (JList (before ++ ms :: after))
                   = (milestones_header
                      ++ concat_text (map (fun m => fst (milestone_entry m)) before),
                      Raise (KeyError "title"))).
  { unfold milestones_block, write, eval, iterate. cbn [w_bind].
    rewrite (w_for_raises milestone_entry before ms after "" (KeyError "title")
               Hbefore (untitled_entry ms Hms)).
    now rewrite append_nil_r. }
  assert (Htruthy : truthy (JList (before ++ ms :: after)) = true)
    by (destruct before; reflexivity).
  unfold generate_wiki_content in Hg.
  apply bind_inv in Hg as [(i & w1 & H1 & Hg) | (e & H1 & _)];
    apply verify_json_content_spec in H1 as (Q1 & R1); rewrite Hi in R1;
    [|discriminate].
  inversion R1; subst i. clear R1.
  apply bind_inv in Hg as [(m & w2 & H2 & Hg) | (e & H2 & _)];
    apply verify_json_content_spec in H2 as (Q2 & R2); rewrite Hm in R2;
    [|discriminate].
  inversion R2; subst m. clear R2.
  rewrite Htruthy, andb_false_r in Hg.
  destruct (quiet_trans _ _ _ Q1 Q2) as (_ & _ & Qw).
  unfold try_except, write_pages in Hg.
  unfold bind at 1 in Hg. unfold with_open at 1 in Hg.
  destruct (w_wiki w) as [t|] eqn:Hw; rewrite Qw in Hg.
  - left. exists t. split; [reflexivity|].
    rewrite Hhome in Hg. cbn [snd home_block write fst] in Hg.
    unfold bind at 1 in Hg. unfold with_open at 1 in Hg.
    cbn [w_wiki set_wiki] in Hg. rewrite Hmil, Hblock in Hg.
    cbn [snd fst raise] in Hg. inversion Hg; subst r w'.
    split; reflexivity.
  - right. split; [reflexivity|].
    unfold bind, print, ret in Hg. inversion Hg. reflexivity.
Qed.

(** ** The steps of a run *)

Lemma chdir_wiki_spec d w r w' :
  chdir_wiki d w = (r, w') ->
  quiet w w' /\
  ((r = Ok tt /\ exists t, w_wiki w = Some t) \/ (r = Raise OSError /\ w_wiki w = None)).
Proof.
  unfold chdir_wiki. destruct (w_wiki w) as [t|] eqn:Hw; intros H; inversion H; subst.
  - split; [repeat split|]. left. eauto.
  - split; [apply quiet_refl|]. auto.
Qed.

Lemma mkdir_wiki_spec w r w' :
  mkdir_wiki w = (r, w') ->
  r = Ok tt /\ local w w' /\ exists t, w_wiki w' = Some t.
Proof.
  unfold mkdir_wiki. destruct (w_wiki w) as [t|] eqn:Hw; intros H; inversion H; subst.
  - split; [reflexivity|]. split; [apply local_refl|]. eauto.
  - split; [reflexivity|]. split; [split; reflexivity|]. simpl. eauto.
Qed.

Lemma verify_token_spec E w r w' : verify_token E w = (r, w') -> w' = w.
Proof.
  unfold verify_token. destruct (E_token E) as [token|].
  - destruct (negb (str_truthy token)); [intros H; now apply raise_inv in H|].
    destruct (negb (str_truthy (strip token))); intros H;
      [now apply raise_inv in H | now apply ret_inv in H].
  - intros H. now apply raise_inv in H.
Qed.

Lemma environ_repository_spec E w r w' : environ_repository E w = (r, w') -> w' = w.
Proof.
  unfold environ_repository. destruct (E_repository E); intros H;
    [now apply ret_inv in H | now apply raise_inv in H].
Qed.

Lemma requests_get_quiet E url w r w' : requests_get E url w = (r, w') -> quiet w w'.
Proof.
  unfold requests_get. destruct (E_get E); intros H; inversion H; subst; repeat split.
Qed.

Lemma requests_patch_quiet E url w r w' : requests_patch E url w = (r, w') -> quiet w w'.
Proof.
  unfold requests_patch. destruct (E_patch E); intros H; inversion H; subst; repeat split.
Qed.

Lemma wiki_dir_exists_spec w r w' :
  wiki_dir_exists w = (r, w') ->
  w' = w /\ r = Ok (match w_wiki w with Some _ => true | None => false end).
Proof. unfold wiki_dir_exists. intros H. inversion H; auto. Qed.

(** Computations built from steps that respect a reflexive and
    transitive relation respect it. *)
Section Preserves.
Variable R : world -> world -> Prop.
Hypothesis R_refl : forall w, R w w.
Hypothesis R_trans : forall w1 w2 w3, R w1 w2 -> R w2 w3 -> R w1 w3.

Lemma preserves_ret {A} (a : A) : preserves R (ret a).
Proof. intros w r w' H. apply ret_inv in H as [_ ->]. apply R_refl. Qed.

Lemma preserves_raise {A} e : preserves R (@raise A e).
Proof. intros w r w' H. apply raise_inv in H as [_ ->]. apply R_refl. Qed.

Lemma preserves_lift {A} (x : result A) : preserves R (lift x).
Proof. intros w r w' H. apply lift_inv in H as [_ ->]. apply R_refl. Qed.

Lemma preserves_bind {A B} (m : M A) (f : A -> M B) :
  preserves R m -> (forall a, preserves R (f a)) -> preserves R (bind m f).
Proof.
  intros Hm Hf w r w' H.
  apply bind_inv in H as [(a & w1 & H1 & H2) | (e & H1 & _)].
  - eapply R_trans; [eapply Hm | eapply Hf]; eassumption.
  - eapply Hm; eassumption.
Qed.

Lemma preserves_try_except {A} (m : M A) h :
  preserves R m -> (forall e, preserves R (h e)) -> preserves R (try_except m h).
Proof.
  intros Hm Hh w r w' H.
  apply try_except_inv in H as [(a & H1 & _) | (e & w1 & H1 & H2)].
  - eapply Hm; eassumption.
  - eapply R_trans; [eapply Hm | eapply Hh]; eassumption.
Qed.

Lemma preserves_when b m : preserves R m -> preserves R (when b m).
Proof. intros Hm. destruct b; [assumption | apply preserves_ret]. Qed.

End Preserves.

Lemma preserves_print s : preserves quiet (print s).
Proof. intros w r w' H. now apply print_quiet in H. Qed.

Create HintDb world.
#[local] Hint Resolve quiet_refl quiet_trans local_refl local_trans : world.

(** Goals [preserves quiet m] for [m] made of prints, pure steps and
    branches. *)
Ltac quiet_steps :=
  repeat first
    [ apply preserves_print
    | apply (preserves_ret quiet quiet_refl)
    | apply (preserves_raise quiet quiet_refl)
    | apply (preserves_lift quiet quiet_refl)
    | apply (preserves_when quiet quiet_refl)
    | apply (preserves_bind quiet quiet_trans); [|intros ?]
    | apply (preserves_try_except quiet quiet_trans); [|intros ?]
    | match goal with
      | |- preserves _ (if ?b then _ else _) => destruct b
      | |- preserves _ (match ?x with _ => _ end) => destruct x
      end ].

Lemma check_repo_access_quiet E url : preserves quiet (check_repo_access E url).
Proof.
  unfold check_repo_access, raise_for_status, response_json.
  quiet_steps.
  intros w r w' H. eapply requests_get_quiet; eassumption.
Qed.

Lemma check_repo_access_reported E url w status repo_data a :
  E_get E = Response status (Some repo_data) ->
  (400 <=? status)%Z && (status <? 600)%Z = false ->
  reported repo_data = Some a ->
  fst (check_repo_access E url w)
  = if negb (canWrite a) then Raise (WikiGenerationError NoWritePermission)
    else if negb (canRead a) then Raise (WikiGenerationError NoReadPermission)
    else if negb (wikiEnabled a) && negb (canAdmin a)
         then Raise (WikiGenerationError WikiDisabledNoAdmin)
    else Ok repo_data.
Proof.
  intros Hget Hstatus Hrep.
  destruct repo_data as [| | | | |kv]; try discriminate.
  unfold reported in Hrep.
  unfold check_repo_access, try_except, bind at 1, requests_get.
  rewrite Hget. cbn [fst snd]. unfold bind at 1, raise_for_status.
  rewrite Hstatus. unfold ret at 1, bind at 1, response_json, ret at 1.
  unfold bind at 1, lift at 1, get_default.
  destruct (match assoc "permissions" kv with Some p => p | None => JDict [] end)
    as [| | | | |perms] eqn:Hperms; try discriminate.
  inversion Hrep; subst a; clear Hrep. cbn [canWrite canRead canAdmin wikiEnabled].
  assert (Hp : match assoc "permissions" kv with
               | Some x => Ok x | None => Ok (JDict [])
               end = Ok (JDict perms)).
  { destruct (assoc "permissions" kv); congruence. }
  rewrite Hp. clear Hp.
  unfold bind at 1, lift at 1, get.
  destruct (assoc "push" perms) as [push|]; [destruct (truthy push)|];
    cbn [truthy negb]; try reflexivity.
  unfold bind at 1, lift at 1.
  destruct (assoc "pull" perms) as [pull|]; [destruct (truthy pull)|];
    cbn [truthy negb]; try reflexivity.
  unfold bind at 1, lift at 1.
  destruct (assoc "has_wiki" kv) as [hw|]; [destruct (truthy hw)|];
    cbn [truthy negb andb]; try reflexivity;
    unfold bind at 1 2, lift at 1;
    (destruct (assoc "admin" perms) as [adm|]; [destruct (truthy adm)|]);
    reflexivity.
Qed.

Lemma cmd_eqb_refl cmd : cmd_eqb cmd cmd = true.
Proof. unfold cmd_eqb. destruct (list_eq_dec string_dec cmd cmd); congruence. Qed.

Lemma cmd_eqb_git E cmd : hd "" cmd = "git" -> cmd_eqb cmd (rm_wiki E) = false.
Proof.
  unfold cmd_eqb. intros H.
  destruct (list_eq_dec string_dec cmd (rm_wiki E)) as [->|]; [discriminate | reflexivity].
Qed.

(** A git command that does not write the working tree leaves the wiki
    directory as it is. *)
Lemma after_command_git E cmd c t :
  hd "" cmd = "git" -> writes_tree cmd = false -> after_command E cmd c t = t.
Proof.
  intros Hg Hw. unfold after_command. now rewrite (cmd_eqb_git E cmd Hg), Hw.
Qed.

(** A git command leaves a directory where there was one, when no Git
    command removes it. *)
Lemma after_command_keeps E cmd c t :
  keeps_directory E -> hd "" cmd = "git" -> t <> None ->
  after_command E cmd c t <> None.
Proof.
  intros Hk Hg Ht. unfold after_command. rewrite (cmd_eqb_git E cmd Hg).
  destruct (writes_tree cmd); [|exact Ht].
  destruct t as [t|]; [apply Hk | contradiction].
Qed.

Ltac directory_kept :=
  let Hk := fresh "Hk" in
  intros Hk;
  repeat match goal with
         | H : w_wiki ?x = _ |- w_wiki ?x <> None => rewrite H; clear H
         | |- after_command _ _ _ _ <> None =>
             apply after_command_keeps; [exact Hk | reflexivity |]
         end;
  discriminate.

Lemma safe_cleanup_spec E w r w' :
  safe_cleanup E w = (r, w') ->
  w_credentials w' = w_credentials w /\
  ((w_wiki w = None /\ r = Ok tt /\ quiet w w') \/
   (exists o,
      o = E_run E (w_spawned w) (rm_wiki E) /\
      w_spawned w' = (w_spawned w ++ [(rm_wiki E, o)])%list /\
      match o with
      | NotStarted => r = Raise OSError /\ w_wiki w' = w_wiki w
      | Exited c =>
          r = Ok tt /\
          w_wiki w' = if (returncode c =? 0)%Z then None else w_wiki w
      end)).
Proof.
  unfold safe_cleanup. intros H.
  apply bind_inv in H as [(present & w1 & H1 & H) | (e & H1 & _)];
    apply wiki_dir_exists_spec in H1 as (-> & R1); [|discriminate].
  inversion R1; subst present; clear R1.
  destruct (w_wiki w) as [t|] eqn:Hw; cbn [when] in H.
  2:{ apply ret_inv in H as [-> ->]. split; [reflexivity|]. left.
      split; [reflexivity|]. split; [reflexivity | apply quiet_refl]. }
  apply try_except_inv in H as [(a & H & ->) | (e & w1 & H & Hh)].
  - apply bind_inv in H as [(c & w1 & H1 & H) | (e & H1 & ?)]; [|discriminate].
    apply subprocess_run_plain_spec in H1 as (o & (Ho & Hs & Hc & Hwk) & Hr).
    destruct o as [c'|]; [|discriminate]. inversion Hr; subst c'. clear Hr.
    destruct (negb (returncode c =? 0)%Z) eqn:Hrc;
      [apply raise_inv in H as [? _]; discriminate|].
    apply ret_inv in H as [H ->]. destruct a.
    split; [assumption|]. right. exists (Exited c).
    split; [assumption|]. split; [assumption|]. split; [reflexivity|].
    rewrite Hwk, Hw. unfold after_command. rewrite cmd_eqb_refl. reflexivity.
  - apply bind_inv in H as [(c & w2 & H1 & H) | (e' & H1 & He)].
    + apply subprocess_run_plain_spec in H1 as (o & (Ho & Hs & Hc & Hwk) & Hr).
      destruct o as [c'|]; [|discriminate]. inversion Hr; subst c'. clear Hr.
      destruct (negb (returncode c =? 0)%Z) eqn:Hrc;
        [|apply ret_inv in H as [? _]; discriminate].
      apply raise_inv in H as [H ->]. inversion H; subst e. clear H.
      apply print_quiet in Hh as (-> & Q1 & Q2 & Q3).
      split; [congruence|]. right. exists (Exited c).
      split; [assumption|]. split; [congruence|]. split; [reflexivity|].
      rewrite Q3, Hwk, Hw. unfold after_command. rewrite cmd_eqb_refl.
      apply negb_true_iff in Hrc. rewrite Hrc. reflexivity.
    + inversion He; subst e'. clear He.
      apply subprocess_run_plain_spec in H1 as (o & (Ho & Hs & Hc & Hwk) & Hr).
      destruct o as [c'|]; [discriminate|]. inversion Hr; subst e. clear Hr.
      apply raise_inv in Hh as [-> ->].
      split; [assumption|]. right. exists NotStarted.
      split; [assumption|]. split; [assumption|]. split; [reflexivity|].
      rewrite Hwk, Hw. reflexivity.
Qed.

Lemma get_default_branch_spec E url w r w' :
  get_default_branch E url w = (r, w') ->
  exists o b, started E (cmd_symref url) o w w' /\ r = Ok b /\ default_branch_name b.
Proof.
  unfold get_default_branch, default_branch_name. intros H.
  apply try_except_inv in H as [(b & H & ->) | (e & w1 & H & Hh)].
  - apply bind_inv in H as [(c & w1 & H1 & H) | (e & H1 & ?)]; [|discriminate].
    apply run_command_spec in H1 as (o & Hst & Hr). exists o.
    destruct (contains "ref: refs/heads/master" (stdout c));
      apply ret_inv in H as [H ->]; inversion H; subst b; eauto.
  - apply ret_inv in Hh as [-> ->].
    apply bind_inv in H as [(c & w2 & H1 & H) | (e' & H1 & ?)].
    + destruct (contains "ref: refs/heads/master" (stdout c));
        apply ret_inv in H as [? _]; discriminate.
    + apply run_command_spec in H1 as (o & Hst & Hr). exists o. eauto.
Qed.

Lemma git_step_ok E cmd msg check w c w' :
  run_git_command E cmd msg check w = (Ok c, w') ->
  started E cmd (Exited c) w w' /\ (check = true -> returncode c = 0%Z).
Proof.
  intros H. apply run_git_command_spec in H as (o & St & [(c' & Hr & -> & Hrc) | (m & Hr & _)]);
    [|discriminate].
  inversion Hr; subst c'. auto.
Qed.

Lemma git_step_raise E cmd msg check w e w' :
  run_git_command E cmd msg check w = (Raise e, w') ->
  exists o m, started E cmd o w w' /\ e = WikiGenerationError m /\ passed o = false.
Proof.
  intros H. apply run_git_command_spec in H as (o & St & [(c' & Hr & _) | (m & Hr & Hp)]);
    [discriminate|].
  inversion Hr; subst e. eauto.
Qed.

(** One [run_git_command] at the head of a chain. *)
Ltac git_step H :=
  let c := fresh "c" in let w1 := fresh "w" in let H1 := fresh "H" in
  let e := fresh "e" in let o := fresh "o" in let m := fresh "m" in
  let St := fresh "St" in let Hrc := fresh "Hrc" in let Hp := fresh "Hp" in
  apply bind_inv in H as [(c & w1 & H1 & H) | (e & H1 & ->)];
  [ apply git_step_ok in H1 as (St & Hrc); try specialize (Hrc eq_refl)
  | apply git_step_raise in H1 as (o & m & St & -> & Hp) ].

(** A git command that does not write the working tree leaves the
    wiki directory as it is, whatever its outcome. *)
Lemma started_keeps_tree E cmd o w w' :
  started E cmd o w w' -> hd "" cmd = "git" -> writes_tree cmd = false ->
  w_wiki w' = w_wiki w.
Proof.
  intros (_ & _ & _ & Hw) Hg Ht. rewrite Hw.
  destruct (E_run E (w_spawned w) cmd); [now apply after_command_git | reflexivity].
Qed.

(** Puts the facts of a [started] step in the context. *)
Ltac open_started :=
  repeat match goal with
    | St : started _ _ (Exited _) _ _ |- _ =>
        let c0 := fresh "c" in let Hrun := fresh "Hrun" in
        let Hread := fresh "Hread" in let Htext := fresh "Htext" in
        let Hs := fresh "Hs" in let Hc := fresh "Hc" in let Hw := fresh "Hw" in
        pose proof (started_exited _ _ _ _ _ St) as (c0 & Hrun & Hread & Htext & Hw);
        destruct St as (_ & Hs & Hc & _)
    | St : started ?E ?cmd ?o ?w ?w' |- _ =>
        let Ho := fresh "Ho" in let Hs := fresh "Hs" in
        let Hc := fresh "Hc" in let Hw := fresh "Hw" in
        first [ pose proof (started_keeps_tree E cmd o w w' St eq_refl eq_refl) as Hw;
                destruct St as (Ho & Hs & Hc & _)
              | destruct St as (Ho & Hs & Hc & Hw) ]
    | Q : quiet _ _ |- _ =>
        let Hs := fresh "Hs" in let Hc := fresh "Hc" in let Hw := fresh "Hw" in
        destruct Q as (Hs & Hc & Hw)
    | L : local _ _ |- _ =>
        let Hs := fresh "Hs" in let Hc := fresh "Hc" in
        destruct L as (Hs & Hc)
    end.

(** [w_spawned w' = w_spawned w ++ ?l], from the equations in the context. *)
Ltac solve_log :=
  repeat match goal with
    | H : w_spawned ?x = _ |- context [w_spawned ?x] => rewrite H; clear H
    end;
  repeat rewrite <- app_assoc;
  first [ reflexivity | symmetry; apply app_nil_r ].

Ltac solve_credentials :=
  repeat match goal with
    | H : w_credentials ?x = _ |- context [w_credentials ?x] => rewrite H; clear H
    end;
  reflexivity.

#[local] Hint Constructors checked : world.

Lemma generated_some E w w' :
  generate_wiki_content E w = (Ok true, w') -> exists t, w_wiki w' = Some t.
Proof.
  intros H. apply generate_wiki_content_spec in H as (_ & _ & _ & Hcase).
  destruct Hcase as [(_ & (m & Hm & _) & _) | (i & ms & _ & _ & Hcase)]; [discriminate|].
  destruct (negb (truthy i) && negb (truthy ms)); [destruct Hcase; discriminate|].
  destruct (Hcase eq_refl) as (t & a & c & _ & _ & _ & _ & _ & _ & Ht). eauto.
Qed.

(** [exists t, w_wiki w' = Some t], when the steps after the last write
    are git commands that leave the working tree alone. *)
Ltac solve_wiki :=
  repeat match goal with
    | H : context [after_command _ _ _ _] |- _ =>
        rewrite after_command_git in H by reflexivity
    end;
  repeat match goal with
    | H : w_wiki ?x = _ |- context [w_wiki ?x] => rewrite H; clear H
    end;
  eauto.

Lemma new_wiki_trace E url w r w' :
  new_wiki E url w = (r, w') ->
  exists l, w_spawned w' = (w_spawned w ++ l)%list /\
            new_trace E url l r /\
            w_credentials w' = w_credentials w /\
            (r = Ok tt -> exists t, w_wiki w' = Some t).
Proof.
  unfold new_wiki. intros H.
  apply bind_inv in H as [(? & w1 & H1 & H) | (e & H1 & ->)];
    apply mkdir_wiki_spec in H1 as (R1 & L1 & (t1 & W1)); [|discriminate].
  apply bind_inv in H as [(? & w2 & H2 & H) | (e & H2 & ->)];
    apply chdir_wiki_spec in H2 as (Q2 & [(R2 & _) | (R2 & W2)]);
    try discriminate; [|congruence].
  git_step H.
  2:{ open_started. eexists. split; [solve_log|]. split.
      - apply new_init_failed. eauto with world.
      - split; [solve_credentials | discriminate]. }
  git_step H.
  2:{ open_started. eexists. split; [solve_log|]. split.
      - apply new_init_failed. simpl. eauto with world.
      - split; [solve_credentials | discriminate]. }
  apply bind_inv in H as [(made & w5 & H5 & H) | (e & H5 & ->)].
  2:{ pose proof H5 as G5.
      apply generate_wiki_content_spec in H5 as (L5 & _).
      open_started. eexists. split; [solve_log|]. split.
      - apply new_content_failed; [simpl; eauto with world|].
        right. do 2 eexists. exact G5.
      - split; [solve_credentials | discriminate]. }
  pose proof H5 as G5.
  apply generate_wiki_content_spec in H5 as (L5 & _ & W5 & _).
  destruct made; cbn [negb] in H.
  2:{ apply raise_inv in H as [-> ->].
      open_started. eexists. split; [solve_log|]. split.
      - apply new_content_failed; [simpl; eauto with world|].
        left. split; [reflexivity|]. do 2 eexists. split; [exact G5|].
        directory_kept.
      - split; [solve_credentials | discriminate]. }
  assert (Hgen : generated E) by (do 2 eexists; exact G5).
  apply generated_some in G5 as (t5 & G5).
  git_step H.
  2:{ open_started. eexists. split; [solve_log|]. split.
      - eapply (new_publish_failed E url [_; _]); simpl; eauto with world.
      - split; [solve_credentials | discriminate]. }
  git_step H.
  2:{ open_started. eexists. split; [solve_log|]. split.
      - eapply (new_publish_failed E url [_; _]); simpl; eauto with world.
      - split; [solve_credentials | discriminate]. }
  git_step H.
  2:{ open_started. eexists. split; [solve_log|]. split.
      - eapply (new_publish_failed E url [_; _]); simpl; eauto 6 with world.
      - split; [solve_credentials | discriminate]. }
  git_step H.
  2:{ open_started. eexists. split; [solve_log|]. split.
      - eapply (new_publish_failed E url [_; _]); simpl; eauto 7 with world.
      - split; [solve_credentials | discriminate]. }
  apply print_quiet in H as (-> & Q).
  open_started. eexists. split; [solve_log|]. split.
  - eapply (new_published E url [_; _]); simpl; eauto 7 with world.
  - split; [solve_credentials | intros _; solve_wiki].
Qed.

Lemma existing_wiki_trace E url w r w' :
  existing_wiki E url w = (r, w') ->
  exists l, w_spawned w' = (w_spawned w ++ l)%list /\
            existing_trace E url l r /\
            w_credentials w' = w_credentials w /\
            (r = Ok tt -> exists t, w_wiki w' = Some t).
Proof.
  unfold existing_wiki. intros H.
  apply bind_inv in H as [(? & w1 & H1 & H) | (e & H1 & ->)];
    apply chdir_wiki_spec in H1 as (Q1 & [(R1 & t0 & W1) | (R1 & W1)]);
    try discriminate.
  2:{ inversion R1; subst e. open_started. exists []. split; [solve_log|]. split.
      - apply existing_no_directory.
      - split; [solve_credentials | discriminate]. }
  apply bind_inv in H as [(b & w2 & H2 & H) | (e & H2 & ->)];
    apply get_default_branch_spec in H2 as (o & b' & St2 & R2 & Hb); [|discriminate].
  inversion R2; subst b'. clear R2.
  apply bind_inv in H as [(? & w3 & H3 & H) | (e & H3 & ->)];
    apply print_quiet in H3 as (R3 & Q3); [|discriminate].
  git_step H.
  2:{ open_started. eexists. split; [solve_log|]. split.
      - eapply existing_sync_failed; eauto with world.
      - split; [solve_credentials | discriminate]. }
  git_step H.
  2:{ open_started. eexists. split; [solve_log|]. split.
      - eapply existing_sync_failed; simpl; eauto with world.
      - split; [solve_credentials | discriminate]. }
  apply bind_inv in H as [(made & w6 & H6 & H) | (e & H6 & ->)].
  2:{ pose proof H6 as G6.
      apply generate_wiki_content_spec in H6 as (L6 & _).
      open_started. eexists. split; [solve_log|]. split.
      - eapply existing_content_failed; [eassumption | simpl; eauto with world|].
        right. do 2 eexists. exact G6.
      - split; [solve_credentials | discriminate]. }
  pose proof H6 as G6.
  apply generate_wiki_content_spec in H6 as (L6 & _).
  destruct made; cbn [negb] in H.
  2:{ apply raise_inv in H as [-> ->].
      open_started. eexists. split; [solve_log|]. split.
      - eapply existing_content_failed; [eassumption | simpl; eauto with world|].
        left. split; [reflexivity|]. do 2 eexists. split; [exact G6|].
        directory_kept.
      - split; [solve_credentials | discriminate]. }
  assert (Hgen : generated E) by (do 2 eexists; exact G6).
  apply generated_some in G6 as (t6 & G6).
  git_step H.
  2:{ open_started. eexists. split; [solve_log|]. split.
      - eapply (existing_stage_failed E url _ _ [_; _]); simpl; eauto with world.
      - split; [solve_credentials | discriminate]. }
  git_step H.
  2:{ open_started. eexists. split; [solve_log|]. split.
      - eapply (existing_stage_failed E url _ _ [_; _]); simpl; eauto with world.
      - split; [solve_credentials | discriminate]. }
  destruct (str_truthy (strip (stdout c2))) eqn:Hdirty; cbn [when] in H.
  2:{ apply ret_inv in H as [-> ->].
      open_started. eexists. split; [solve_log|]. split.
      - eapply (existing_no_change E url _ _ [_; _]); simpl; eauto with world.
        unfold clean. now rewrite Hdirty.
      - split; [solve_credentials | intros _; solve_wiki]. }
  assert (Hclean : clean c2 = false) by (unfold clean; now rewrite Hdirty).
  git_step H.
  2:{ open_started. eexists. split; [solve_log|]. split.
      - eapply (existing_publish_failed E url _ _ [_; _]); simpl; eauto with world.
      - split; [solve_credentials | discriminate]. }
  git_step H.
  2:{ open_started. eexists. split; [solve_log|]. split.
      - eapply (existing_publish_failed E url _ _ [_; _]); simpl; eauto with world.
      - split; [solve_credentials | discriminate]. }
  apply print_quiet in H as (-> & Q).
  open_started. eexists. split; [solve_log|]. split.
  - eapply (existing_published E url _ _ [_; _]); simpl; eauto with world.
  - split; [solve_credentials | intros _; solve_wiki].
Qed.

Lemma run_command_ok E cmd w c w' :
  run_command E cmd true w = (Ok c, w') ->
  started E cmd (Exited c) w w' /\ returncode c = 0%Z.
Proof.
  intros H. apply run_command_spec in H as (o & St & Hr).
  destruct o as [c'|]; [|destruct Hr; discriminate]. cbn [andb] in Hr.
  destruct (negb (returncode c' =? 0)%Z) eqn:Hrc; [discriminate|].
  inversion Hr; subst c'. split; [assumption|].
  apply negb_false_iff in Hrc. lia.
Qed.

Lemma run_command_raise E cmd w e w' :
  run_command E cmd true w = (Raise e, w') ->
  exists o, started E cmd o w w' /\ passed o = false.
Proof.
  intros H. apply run_command_spec in H as (o & St & Hr). exists o.
  split; [assumption|].
  destruct o as [c'|]; [|reflexivity]. cbn [andb] in Hr. simpl.
  destruct (returncode c' =? 0)%Z; [discriminate | reflexivity].
Qed.

Lemma git_unchecked_raise E cmd msg w e w' :
  run_git_command E cmd msg false w = (Raise e, w') ->
  exists m, started E cmd NotStarted w w' /\ e = WikiGenerationError m.
Proof.
  unfold run_git_command. intros H.
  apply try_except_inv in H as [(c & _ & ?) | (e0 & w1 & H & Hh)]; [discriminate|].
  apply bind_inv in H as [(c & w2 & H1 & H) | (e' & H1 & He)].
  - cbn [andb] in H. apply ret_inv in H as [? _]. discriminate.
  - inversion He; subst e'. apply run_command_spec in H1 as (o & St & Hr).
    destruct o as [c|]; [discriminate|].
    destruct Hr as [Hr | Hr]; inversion Hr; subst e0;
      apply raise_inv in Hh as [Hh ->]; inversion Hh; subst e; eauto.
Qed.

(** The part of the [try] block between the first clean-up and the git
    set-up: the repository name, the access check, enabling the wiki. *)
Lemma enable_wiki_quiet E api_url has_wiki :
  preserves quiet
    (when (negb (truthy has_wiki))
       (bind (print "Habilitando wiki...")
          (fun _ => bind (requests_patch E api_url)
             (fun status => when (negb (status =? 200)%Z)
                              (raise (WikiGenerationError (EnableWikiFailed status))))))).
Proof.
  quiet_steps.
  intros w r w' H. eapply requests_patch_quiet; eassumption.
Qed.

Lemma try_block_trace E w r w' :
  try_block E w = (r, w') ->
  exists pre l,
    w_spawned w' = (w_spawned w ++ pre ++ l)%list /\
    cleanup_trace E pre /\ main_trace E l r /\
    w_credentials w' = w_credentials w /\
    (r = Ok tt -> exists t, w_wiki w' = Some t).
Proof.
  unfold try_block. intros H.
  apply bind_inv in H as [(token & w1 & H1 & H) | (e & H1 & ->)];
    apply verify_token_spec in H1 as ->.
  2:{ exists [], []. split; [symmetry; apply app_nil_r|]. split; [now left|].
      split; [constructor|]. split; [reflexivity | discriminate]. }
  apply bind_inv in H as [(present & w1 & H1 & H) | (e & H1 & ->)];
    apply wiki_dir_exists_spec in H1 as (-> & R1); [|discriminate].
  assert (Hpre : exists pre w2 r2,
             when present (safe_cleanup E) w = (r2, w2) /\
             w_spawned w2 = (w_spawned w ++ pre)%list /\ cleanup_trace E pre /\
             w_credentials w2 = w_credentials w).
  { destruct (when present (safe_cleanup E) w) as [r2 w2] eqn:Hc.
    destruct present; cbn [when] in Hc.
    - apply safe_cleanup_spec in Hc as (Hcr & [(_ & _ & (Qs & _)) | (o & _ & Hs & _)]).
      + exists [], w2, r2. rewrite app_nil_r. repeat split; auto. now left.
      + exists [(rm_wiki E, o)], w2, r2. repeat split; auto. right. eauto.
    - apply ret_inv in Hc as [-> ->]. exists [], w, (Ok tt). rewrite app_nil_r.
      repeat split. now left. }
  destruct Hpre as (pre & w2 & r2 & Hc & Hs2 & Hpre & Hc2).
  apply bind_inv in H as [(? & w2' & H2 & H) | (e & H2 & ->)];
    rewrite Hc in H2; inversion H2; subst; clear H2.
  2:{ exists pre, []. rewrite app_nil_r. split; [assumption|]. split; [assumption|].
      split; [constructor|]. split; [assumption | discriminate]. }
  clear Hc.
  apply bind_inv in H as [(repo & w3 & H3 & H) | (e & H3 & ->)];
    apply environ_repository_spec in H3 as ->.
  2:{ exists pre, []. rewrite app_nil_r. split; [assumption|]. split; [assumption|].
      split; [constructor|]. split; [assumption | discriminate]. }
  apply bind_inv in H as [(? & w3 & H3 & H) | (e & H3 & ->)];
    apply print_quiet in H3 as (RH3 & Q3); [|discriminate].
  apply bind_inv in H as [(repo_data & w4 & H4 & H) | (e & H4 & ->)];
    apply check_repo_access_quiet in H4.
  2:{ open_started. exists pre, []. rewrite app_nil_r.
      split; [congruence|]. split; [assumption|].
      split; [constructor|]. split; [congruence | discriminate]. }
  apply bind_inv in H as [(has_wiki & w5 & H5 & H) | (e & H5 & ->)];
    apply lift_inv in H5 as (_ & ->).
  2:{ open_started. exists pre, []. rewrite app_nil_r.
      split; [congruence|]. split; [assumption|].
      split; [constructor|]. split; [congruence | discriminate]. }
  apply bind_inv in H as [(? & w5 & H5 & H) | (e & H5 & ->)];
    apply enable_wiki_quiet in H5.
  2:{ open_started. exists pre, []. rewrite app_nil_r.
      split; [congruence|]. split; [assumption|].
      split; [constructor|]. split; [congruence | discriminate]. }
  apply bind_inv in H as [(? & w6 & H6 & H) | (e & H6 & ->)];
    apply print_quiet in H6 as (RH6 & Q6); [|discriminate].
  set (url := "https://x-access-token:" ++ token ++ "@github.com/" ++ repo ++ ".wiki.git")
    in *.
  apply bind_inv in H as [(c7 & w7 & H7 & H) | (e & H7 & ->)];
    [apply run_command_ok in H7 as (St7 & Hrc7)
    |apply run_command_raise in H7 as (o7 & St7 & Hp7)].
  2:{ open_started. exists pre. eexists. split; [solve_log|]. split; [assumption|].
      split; [eapply (main_setup_failed E url); eauto with world|].
      split; [solve_credentials | discriminate]. }
  apply bind_inv in H as [(c8 & w8 & H8 & H) | (e & H8 & ->)];
    [apply run_command_ok in H8 as (St8 & Hrc8)
    |apply run_command_raise in H8 as (o8 & St8 & Hp8)].
  2:{ open_started. exists pre. eexists. split; [solve_log|]. split; [assumption|].
      split; [eapply (main_setup_failed E url); simpl; eauto with world|].
      split; [solve_credentials | discriminate]. }
  apply bind_inv in H as [(? & w9 & H9 & H) | (e & H9 & ->)];
    apply print_quiet in H9 as (RH9 & Q9); [|discriminate].
  git_step H.
  2:{ open_started. exists pre. eexists. split; [solve_log|]. split; [assumption|].
      split; [eapply (main_setup_failed E url); simpl; eauto 6 with world|].
      split; [solve_credentials | discriminate]. }
  apply bind_inv in H as [(? & w10 & H10 & H) | (e & H10 & ->)];
    apply print_quiet in H10 as (RH10 & Q10); [|discriminate].
  apply bind_inv in H as [(clone & w11 & H11 & H) | (e & H11 & ->)];
    [apply git_step_ok in H11 as (St11 & _)
    |apply git_unchecked_raise in H11 as (m11 & St11 & ->)].
  2:{ open_started. exists pre. eexists. split; [solve_log|]. split; [assumption|].
      split; [eapply (main_clone_not_started E url [_; _; _]); simpl; eauto 6 with world|].
      split; [solve_credentials | discriminate]. }
  destruct (negb (returncode clone =? 0)%Z) eqn:Hclone.
  - apply new_wiki_trace in H as (lb & Hlb & Tr & Hcr & Hwk).
    open_started. exists pre. eexists. split; [solve_log|]. split; [assumption|].
    split; [|split; [solve_credentials | assumption]].
    eapply (main_new E url [_; _; _]); simpl; eauto 6 with world.
    apply negb_true_iff in Hclone. lia.
  - apply existing_wiki_trace in H as (lb & Hlb & Tr & Hcr & Hwk).
    open_started. exists pre. eexists. split; [solve_log|]. split; [assumption|].
    split; [|split; [solve_credentials | assumption]].
    eapply (main_existing E url [_; _; _]); simpl; eauto 6 with world.
    apply negb_false_iff in Hclone. lia.
Qed.

Lemma finalizer_spec E success w r w' :
  finalizer E success w = (r, w') ->
  exists post,
    cleanup_trace E post /\
    w_spawned w' = (w_spawned w ++ post)%list /\
    ((r = Ok tt /\ w_credentials w' = false) \/
     (r = Raise OSError /\ success = false /\
      exists h, E_run E h (rm_wiki E) = NotStarted)) /\
    (success = true -> post = [] /\ w_wiki w' = w_wiki w) /\
    (success = false -> r = Ok tt ->
     w_wiki w' = None \/
     exists h c, E_run E h (rm_wiki E) = Exited c /\ returncode c <> 0%Z) /\
    (w_wiki w' = None \/ w_wiki w' = w_wiki w).
Proof.
  unfold finalizer. intros H.
  apply bind_inv in H as [(? & w1 & H1 & H) | (e & H1 & ->)]; [|discriminate].
  assert (Q1 : quiet w w1) by (inversion H1; repeat split). clear H1.
  apply bind_inv in H as [(? & w2 & H2 & H) | (e & H2 & ->)];
    apply print_quiet in H2 as (R2 & Q2); [|discriminate].
  apply bind_inv in H as [(present & w3 & H3 & H) | (e & H3 & ->)];
    apply wiki_dir_exists_spec in H3 as (-> & R3); [|discriminate].
  inversion R3; subst present; clear R3.
  pose proof (quiet_trans _ _ _ Q1 Q2) as (Qs & Qc & Qw). clear Q1 Q2.
  assert (Hcreds : forall w3 r3 w4,
    (creds <- credentials_exist ;; when creds remove_credentials)%M w3 = (r3, w4) ->
    r3 = Ok tt /\ w_credentials w4 = false /\ w_spawned w4 = w_spawned w3 /\
    w_wiki w4 = w_wiki w3).
  { intros w3 r3 w4 Hx. unfold bind, credentials_exist, when in Hx.
    destruct (w_credentials w3) eqn:Hcr; inversion Hx; subst; auto. }
  destruct (negb success && match w_wiki w2 with Some _ => true | None => false end)
    eqn:Hclean; cbn [when] in H.
  - apply andb_true_iff in Hclean as (Hsucc & Hpresent).
    apply negb_true_iff in Hsucc. subst success.
    apply bind_inv in H as [(? & w3 & H3 & H) | (e & H3 & ->)];
      apply safe_cleanup_spec in H3 as (Hc3 & [(Hn & _) | (o & Ho & Hs3 & Hcase)]);
      try (rewrite Hn in Hpresent; discriminate).
    + destruct o as [c|]; [|destruct Hcase; discriminate].
      destruct Hcase as (_ & Hw3).
      apply Hcreds in H as (-> & Hcr & Hs4 & Hw4).
      exists [(rm_wiki E, Exited c)]. split; [right; eauto|].
      split; [congruence|]. split; [left; auto|]. split; [discriminate|].
      rewrite Hw4, Hw3.
      destruct (returncode c =? 0)%Z eqn:Hrc; [split; intros; now left|].
      split; [|right; congruence].
      intros _ _. right. exists (w_spawned w2), c. split; [auto | lia].
    + destruct o as [c|]; [destruct Hcase; discriminate|].
      destruct Hcase as (Hr & Hw3). inversion Hr; subst e.
      exists [(rm_wiki E, NotStarted)]. split; [right; eauto|].
      split; [congruence|]. split; [right; eauto|]. split; [discriminate|].
      split; [discriminate|]. right. congruence.
  - apply bind_inv in H as [(? & w3 & H3 & H) | (e & H3 & ->)];
      apply ret_inv in H3 as (R3 & ->); [|discriminate].
    apply Hcreds in H as (-> & Hcr & Hs4 & Hw4).
    exists []. split; [now left|]. rewrite app_nil_r.
    split; [congruence|]. split; [left; auto|].
    split; [intros _; split; [reflexivity | congruence]|].
    split; [|right; congruence].
    intros -> _. cbn [negb andb] in Hclean. left.
    rewrite Hw4. destruct (w_wiki w2); [discriminate | reflexivity].
Qed.

Lemma handlers_raise e w r w' :
  handlers e w = (r, w') -> w' = w /\ exists m, r = Raise (WikiGenerationError m).
Proof.
  unfold handlers. intros H.
  destruct e as [k| | | | |rc cmd|st|m| | | ];
    try (apply raise_inv in H as [-> ->]; eauto; fail).
  destruct (contains "Authentication failed" (str_CalledProcessError rc cmd));
    apply raise_inv in H as [-> ->]; eauto.
Qed.

Lemma try_finally_inv {A} (m : M A) f w r w' :
  try_finally m f w = (r, w') ->
  exists r1 w1 r2,
    m w = (r1, w1) /\
    f (match r1 with Ok _ => true | Raise _ => false end) w1 = (r2, w') /\
    r = match r2 with Ok _ => r1 | Raise e => Raise e end.
Proof.
  unfold try_finally. destruct (m w) as [[a|e] w1] eqn:Hm.
  - destruct (f true w1) as [[u|e'] w2] eqn:Hf; intros H; inversion H; subst;
      exists (Ok a), w1; eexists; rewrite Hf; eauto.
  - destruct (f false w1) as [[u|e'] w2] eqn:Hf; intros H; inversion H; subst;
      exists (Raise e), w1; eexists; rewrite Hf; eauto.
Qed.

(** The history and the final state of a whole run. *)
Lemma run_spec E w r w' :
  generate_wiki_pages E w = (r, w') ->
  (exists l, w_spawned w' = (w_spawned w ++ l)%list /\ run_trace E l r) /\
  (r = Ok tt -> exists t, w_wiki w' = Some t) /\
  (E_data_dir_exists E = true ->
   (forall h, E_run E h (rm_wiki E) <> NotStarted) ->
   w_credentials w' = false /\
   (r <> Ok tt ->
    (forall h c, E_run E h (rm_wiki E) = Exited c -> returncode c = 0%Z) ->
    w_wiki w' = None)).
Proof.
  unfold generate_wiki_pages. intros H.
  apply bind_inv in H as [(? & w1 & H1 & H) | (e & H1 & ->)];
    apply print_quiet in H1 as (R1 & (Qs & Qc & Qw)); [|discriminate].
  destruct (E_data_dir_exists E) eqn:Hdata; cbn [negb] in H.
  2:{ apply raise_inv in H as [-> ->]. split; [|split; [discriminate | discriminate]].
      exists []. rewrite app_nil_r. split; [assumption|].
      apply (run_failed E [] [] (WikiGenerationError DataDirMissing) []);
        [now left | constructor | now left | right; exists w; reflexivity]. }
  apply try_finally_inv in H as (r1 & w2 & r2 & Htry & Hfin & ->).
  apply try_except_inv in Htry as [(a & Htry & ->) | (e & w3 & Htry & Hh)].
  - destruct a.
    apply try_block_trace in Htry as (pre & l & Hs & Hpre & Hmain & Hcr & Hwk).
    apply finalizer_spec in Hfin as (post & _ & Hs' & Hres & Hsucc & _).
    destruct (Hsucc eq_refl) as (-> & Hw').
    destruct Hres as [(-> & Hcreds) | (_ & ? & _)]; [|discriminate].
    rewrite app_nil_r in Hs'.
    split; [|split].
    + exists (pre ++ l)%list. split; [congruence|]. now apply run_succeeded.
    + intros _. rewrite Hw'. auto.
    + intros _ _. split; [assumption|]. intros Hne. now contradiction Hne.
  - pose proof Hh as Hhandled.
    apply handlers_raise in Hh as (-> & m & ->).
    apply try_block_trace in Htry as (pre & l & Hs & Hpre & Hmain & Hcr & _).
    apply finalizer_spec in Hfin as (post & Hpost & Hs' & Hres & _ & Hfail & _).
    split; [|split].
    + exists (pre ++ l ++ post)%list. split.
      * rewrite Hs', Hs, Qs. now rewrite <- !app_assoc.
      * destruct Hres as [(-> & _) | (-> & _)];
          (eapply run_failed; [eassumption | eassumption | eassumption |]);
          [right; eexists; exact Hhandled | now left].
    + destruct r2; discriminate.
    + intros _ Hrm.
      destruct Hres as [(-> & Hcreds) | (_ & _ & (h & Hh))]; [|now apply Hrm in Hh].
      split; [assumption|]. intros _ Hok.
      destruct (Hfail eq_refl eq_refl) as [Hnone | (h & c & Hc & Hrc)]; [assumption|].
      apply Hok in Hc. contradiction.
Qed.

(** ** Reading the history of a run *)

Ltac invert_trace :=
  repeat match goal with
    | H : run_trace _ _ _ |- _ => inversion H; subst; clear H
    | H : main_trace _ _ _ |- _ => inversion H; subst; clear H
    | H : new_trace _ _ _ _ |- _ => inversion H; subst; clear H
    | H : existing_trace _ _ _ _ |- _ => inversion H; subst; clear H
    | H : checked _ _ _ |- _ => inversion H; subst; clear H
    | H : cleanup_trace _ _ |- _ => destruct H as [-> | (? & ->)]
    end.

(** Goes through the positions of an entry in an explicit history. *)
Ltac positions H :=
  match type of H with
  | _ = (?p ++ _ :: _)%list =>
      destruct p as [|? p]; cbn [app] in H;
      [ inversion H; subst; clear H
      | first [ discriminate H
              | let H' := fresh "Hpos" in
                injection H as <- H'; positions H' ] ]
  end.

(** An entry of an explicit history. *)
Ltac in_history := simpl; solve [repeat (first [left; reflexivity | right])].

Ltac show_ran_ok :=
  match goal with
  | |- ran_ok ?cmd ?h =>
      match h with
      | context [(cmd, Exited ?c)] => exists c; split; [in_history | assumption]
      end
  end.

Ltac show_clone :=
  match goal with
  | |- clone_failed ?h =>
      match h with
      | context [(cmd_clone ?u ?d, Exited ?c)] =>
          exists (cmd_clone u d), (Exited c);
          split; [in_history | split; [reflexivity | simpl; apply Z.eqb_neq; assumption]]
      end
  | |- clone_passed ?h =>
      match h with
      | context [(cmd_clone ?u ?d, Exited ?c)] =>
          exists (cmd_clone u d), (Exited c);
          split; [in_history | split; [reflexivity | simpl; apply Z.eqb_eq; assumption]]
      end
  end.

(** The members of an explicit history, one goal each. *)
Ltac members H :=
  simpl in H;
  repeat match type of H with
    | _ \/ _ => destruct H as [H | H]
    end;
  first [ contradiction | inversion H; subst; clear H ].

Lemma pushes_guarded E l r :
  run_trace E l r ->
  forall pre cmd o post,
    l = (pre ++ (cmd, o) :: post)%list -> is_push cmd = true -> push_guard pre cmd.
Proof.
  intros Htr. invert_trace; intros pre0 cmd0 out0 post0 Hl Hpush; simpl in Hl;
    positions Hl; try discriminate Hpush.
  all: first
    [ left; split; [reflexivity | show_clone]
    | right; eexists; split; [reflexivity|];
      split; [show_clone|]; split; show_ran_ok ].
Qed.

Lemma sync_failure_fatal E l r :
  run_trace E l r ->
  forall cmd o,
    In (cmd, o) l ->
    is_git "checkout" cmd = true \/ is_git "pull" cmd = true ->
    passed o = false ->
    (exists e, r = Raise e) /\ Forall (fun c => is_push c = false) (commands l).
Proof.
  intros Htr. invert_trace; intros cmd0 out0 Hin Hsync Hfailed;
    members Hin;
    try (destruct Hsync as [Hsync | Hsync]; discriminate Hsync);
    try (simpl in Hfailed; lia).
  all: split; [eauto | repeat constructor].
Qed.

(** ** The access guard *)

Lemma first_cleanup E present w r w' :
  (forall h, E_run E h (rm_wiki E) <> NotStarted) ->
  when present (safe_cleanup E) w = (r, w') ->
  r = Ok tt /\
  exists l, w_spawned w' = (w_spawned w ++ l)%list /\ cleanup_trace E l /\
            (w_wiki w' = None \/ w_wiki w' = w_wiki w).
Proof.
  intros Hrm H. destruct present; cbn [when] in H.
  - apply safe_cleanup_spec in H as (_ & [(_ & -> & (Qs & _ & Qw)) | (o & Ho & Hs & Hcase)]).
    + split; [reflexivity|]. exists []. rewrite app_nil_r.
      split; [assumption|]. split; [now left | now right].
    + destruct o as [c|]; [|symmetry in Ho; now apply Hrm in Ho].
      destruct Hcase as (-> & Hw). split; [reflexivity|].
      exists [(rm_wiki E, Exited c)]. split; [assumption|]. split; [right; eauto|].
      rewrite Hw. destruct (returncode c =? 0)%Z; auto.
  - apply ret_inv in H as (-> & ->). split; [reflexivity|].
    exists []. rewrite app_nil_r. split; [reflexivity|]. split; [now left | now right].
Qed.

Lemma guard_stops_try_block E w r w' token repo status repo_data a :
  E_token E = Some token -> str_truthy token = true -> str_truthy (strip token) = true ->
  E_repository E = Some repo ->
  (forall h, E_run E h (rm_wiki E) <> NotStarted) ->
  E_get E = Response status (Some repo_data) ->
  (400 <=? status)%Z && (status <? 600)%Z = false ->
  reported repo_data = Some a ->
  canWrite a = false \/ canRead a = false \/ (wikiEnabled a = false /\ canAdmin a = false) ->
  try_block E w = (r, w') ->
  r = Raise (WikiGenerationError (denial a)) /\
  exists l, w_spawned w' = (w_spawned w ++ l)%list /\ cleanup_trace E l /\
            (w_wiki w' = None \/ w_wiki w' = w_wiki w).
Proof.
  intros Htoken Htok1 Htok2 Hrepo Hrm Hget Hstatus Hrep Hdenied H.
  unfold try_block in H.
  apply bind_inv in H as [(tk & w1 & H1 & H) | (e & H1 & _)];
    [|unfold verify_token in H1; rewrite Htoken, Htok1, Htok2 in H1; discriminate].
  apply verify_token_spec in H1 as ->.
  apply bind_inv in H as [(present & w2 & H2 & H) | (e & H2 & _)];
    apply wiki_dir_exists_spec in H2 as (-> & R2); [|discriminate].
  apply bind_inv in H as [(? & w3 & H3 & H) | (e & H3 & _)];
    apply (first_cleanup E present w _ _ Hrm) in H3 as (R3 & l & Hl & Hcl & Hwl);
    [|discriminate].
  apply bind_inv in H as [(rp & w4 & H4 & H) | (e & H4 & _)];
    [|unfold environ_repository in H4; rewrite Hrepo in H4; discriminate].
  apply environ_repository_spec in H4 as ->.
  apply bind_inv in H as [(? & w5 & H5 & H) | (e & H5 & _)];
    apply print_quiet in H5 as (R5 & (Q5s & _ & Q5w)); [|discriminate].
  pose proof (check_repo_access_reported E ("https://api.github.com/repos/" ++ rp)
                w5 status repo_data a Hget Hstatus Hrep) as Hacc.
  assert (Hdeny : fst (check_repo_access E ("https://api.github.com/repos/" ++ rp) w5)
                  = Raise (WikiGenerationError (denial a))).
  { rewrite Hacc. unfold denial.
    destruct (canWrite a), (canRead a), (wikiEnabled a), (canAdmin a);
      try reflexivity; destruct Hdenied as [? | [? | (? & ?)]]; discriminate. }
  apply bind_inv in H as [(rd & w6 & H6 & H) | (e & H6 & ->)];
    rewrite H6 in Hdeny; cbn [fst] in Hdeny; [discriminate|].
  inversion Hdeny; subst e.
  apply check_repo_access_quiet in H6 as (Q6s & _ & Q6w).
  split; [reflexivity|]. exists l.
  split; [congruence|]. split; [assumption|]. rewrite Q6w, Q5w. assumption.
Qed.

(** C7. When the access check is reached and the API reports that the
    token cannot write, or cannot read, or that the wiki is disabled and
    the token is no administrator, the run ends with a
    [WikiGenerationError] of the Forbidden class — the one for the
    first of these that holds — and by then no git command has been
    started: the programs started are clean-ups only, so no clone has
    been made, and the wiki directory has been removed or left as it
    was, never created. *)
Theorem guard_forbidden E w r w' token repo status repo_data a :
  E_data_dir_exists E = true ->
  E_token E = Some token -> str_truthy token = true -> str_truthy (strip token) = true ->
  E_repository E = Some repo ->
  (forall h, E_run E h (rm_wiki E) <> NotStarted) ->
  E_get E = Response status (Some repo_data) ->
  (400 <=? status)%Z && (status <? 600)%Z = false ->
  reported repo_data = Some a ->
  canWrite a = false \/ canRead a = false \/ (wikiEnabled a = false /\ canAdmin a = false) ->
  generate_wiki_pages E w = (r, w') ->
  exists m,
    r = Raise (WikiGenerationError m) /\
    forbidden m = true /\
    m = denial a /\
    exists l,
      w_spawned w' = (w_spawned w ++ l)%list /\
      Forall (fun c => c = rm_wiki E) (commands l) /\
      (w_wiki w' = None \/ w_wiki w' = w_wiki w).
Proof.
  intros Hdata Htoken Htok1 Htok2 Hrepo Hrm Hget Hstatus Hrep Hdenied H.
  unfold generate_wiki_pages in H.
  apply bind_inv in H as [(? & w1 & H1 & H) | (e & H1 & ->)];
    apply print_quiet in H1 as (R1 & (Qs & Qc & Qw)); [|discriminate].
  rewrite Hdata in H. cbn [negb] in H.
  apply try_finally_inv in H as (r1 & w2 & r2 & Htry & Hfin & ->).
  apply try_except_inv in Htry as [(u & Htry & ->) | (e & w3 & Htry & Hh)];
    apply (guard_stops_try_block E w1 _ _ token repo status repo_data a
             Htoken Htok1 Htok2 Hrepo Hrm Hget Hstatus Hrep Hdenied) in Htry
      as (Hr & l & Hl & Hcl & Hwl);
    [discriminate|].
  inversion Hr; subst e. apply raise_inv in Hh as (-> & ->).
  apply finalizer_spec in Hfin as (post & Hpost & Hs' & Hres & _ & _ & Hw').
  destruct Hres as [(-> & _) | (_ & _ & (h & Hh))]; [|now apply Hrm in Hh].
  exists (denial a). split; [reflexivity|]. split; [|split; [reflexivity|]].
  - unfold denial. destruct (canWrite a), (canRead a); reflexivity.
  - exists (l ++ post)%list. split; [rewrite Hs', Hl, Qs; now rewrite app_assoc|].
    split.
    + unfold commands. rewrite map_app. apply Forall_app.
      split; [destruct Hcl as [-> | (o & ->)] | destruct Hpost as [-> | (o & ->)]];
        repeat constructor.
    + destruct Hw' as [-> | ->]; [now left|].
      destruct Hwl as [-> | ->]; [now left | right; assumption].
Qed.

(** ** The end of a run *)

(** C2, as the code has it.  In a run that finds its data directory and
    can start [rm], the credential file is gone when the run returns;
    the wiki directory is removed when the run failed and [rm] exits
    with status 0; after a run that succeeded the directory is still
    there.  Its path is the same for every run: [wiki_content] under
    the current directory. *)
Theorem cleanup_on_exit E w r w' :
  E_data_dir_exists E = true ->
  (forall h, E_run E h (rm_wiki E) <> NotStarted) ->
  generate_wiki_pages E w = (r, w') ->
  w_credentials w' = false /\
  (r <> Ok tt ->
   (forall h c, E_run E h (rm_wiki E) = Exited c -> returncode c = 0%Z) ->
   w_wiki w' = None) /\
  (r = Ok tt -> exists t, w_wiki w' = Some t) /\
  wiki_dir E = path_join (E_cwd E) "wiki_content".
Proof.
  intros Hdata Hrm H. apply run_spec in H as (_ & Hok & Hfin).
  destruct (Hfin Hdata Hrm) as (Hcreds & Hfailed).
  repeat split; assumption.
Qed.

(** C2 fails as stated: after the successful update of an existing wiki
    the directory is still there. *)
Lemma directory_kept_after_success : ~ cleaned_up update_env fresh_world.
Proof. intros (Hwiki & _). vm_compute in Hwiki. discriminate. Qed.

Lemma cleanup_on_exit_witness :
  w_credentials (snd (generate_wiki_pages empty_data_env fresh_world)) = false /\
  (fst (generate_wiki_pages empty_data_env fresh_world) <> Ok tt ->
   (forall h c, E_run empty_data_env h (rm_wiki empty_data_env) = Exited c ->
                returncode c = 0%Z) ->
   w_wiki (snd (generate_wiki_pages empty_data_env fresh_world)) = None) /\
  (fst (generate_wiki_pages empty_data_env fresh_world) = Ok tt ->
   exists t, w_wiki (snd (generate_wiki_pages empty_data_env fresh_world)) = Some t) /\
  wiki_dir empty_data_env = path_join (E_cwd empty_data_env) "wiki_content".
Proof.
  apply (cleanup_on_exit empty_data_env fresh_world).
  - reflexivity.
  - intros h. vm_compute. discriminate.
  - vm_compute. reflexivity.
Defined.

(** ** Empty data *)

Lemma empty_data_returns_false E issues milestones :
  E_file E (issues_file E) = Holds issues ->
  E_file E (milestones_file E) = Holds milestones ->
  truthy issues = false -> truthy milestones = false ->
  forall w r w', generate_wiki_content E w = (r, w') ->
                 r = Ok false /\ w_wiki w' = w_wiki w /\ w_spawned w' = w_spawned w.
Proof.
  intros Hi Hm Ti Tm w r w' Hg.
  apply generate_wiki_content_spec in Hg
    as ((Hs & _) & _ & _ & [(Hbad & _) | (i & ms & Hi' & Hm' & Hcase)]).
  - rewrite Hi, Hm in Hbad. discriminate.
  - rewrite Hi in Hi'. rewrite Hm in Hm'. inversion Hi'; inversion Hm'; subst i ms.
    rewrite Ti, Tm in Hcase. destruct Hcase as (-> & Hw). auto.
Qed.

(** What is left of the shapes of a run when content generation can
    only return [False]. *)
Ltac without_content Hfalse :=
  repeat match goal with
    | H : generated _ |- _ =>
        let w1 := fresh "w" in let w2 := fresh "w" in
        destruct H as (w1 & w2 & H); apply Hfalse in H; discriminate H
    | H : content_failure _ _ _ |- _ =>
        let w1 := fresh "w" in let w2 := fresh "w" in
        destruct H as [(-> & _) | (w1 & w2 & H)];
        [|apply Hfalse in H; discriminate H]
    end.

Lemma no_publish_without_content E l r :
  (forall w r w', generate_wiki_content E w = (r, w') -> r = Ok false) ->
  run_trace E l r ->
  (exists e, r = Raise e) /\
  Forall (fun c => is_publish c = false) (commands l) /\
  ((exists b, ran_ok (cmd_pull b) l) ->
   r = Raise (WikiGenerationError NoContent) \/ r = Raise OSError) /\
  ((exists url, ran_ok (cmd_remote_add url) l) ->
   r = Raise (WikiGenerationError NoInitialContent) \/ r = Raise OSError).
Proof.
  intros Hfalse Htr. invert_trace; without_content Hfalse.
  all: split; [eauto|]; split; [repeat constructor|].
  all: split; intros (? & ? & Hin & Hrc); members Hin;
    try match goal with
      | H : passed (Exited _) = false |- _ => simpl in H; lia
      end.
  all: match goal with
       | H : final_exception _ _ |- _ =>
           destruct H as [-> | (? & H)];
           [now right | inversion H; subst; now left]
       end.
Qed.

(** C1, as the code has it.  With both data files holding an empty
    value, [generate_wiki_content] returns [False] without raising,
    writes no file and starts no program; the run that calls it does not
    end well: it ends with an exception, and it has staged, committed
    and pushed nothing.  Once the pull of an existing wiki has passed
    the exception is [WikiGenerationError("No se pudo generar el
    contenido")], once the remote of a new wiki is set it is
    [WikiGenerationError("No se pudo generar el contenido inicial")] —
    or, in both cases, the [OSError] of a last clean-up that could not
    be started. *)
Theorem empty_data_fails_the_run E w issues milestones :
  E_file E (issues_file E) = Holds issues ->
  E_file E (milestones_file E) = Holds milestones ->
  truthy issues = false -> truthy milestones = false ->
  (exists w1, generate_wiki_content E w = (Ok false, w1) /\
              w_wiki w1 = w_wiki w /\ w_spawned w1 = w_spawned w) /\
  (forall r w', generate_wiki_pages E w = (r, w') ->
     (exists e, r = Raise e) /\
     exists l, w_spawned w' = (w_spawned w ++ l)%list /\
               Forall (fun c => is_publish c = false) (commands l) /\
               ((exists b, ran_ok (cmd_pull b) l) ->
                r = Raise (WikiGenerationError NoContent) \/ r = Raise OSError) /\
               ((exists url, ran_ok (cmd_remote_add url) l) ->
                r = Raise (WikiGenerationError NoInitialContent) \/ r = Raise OSError)).
Proof.
  intros Hi Hm Ti Tm.
  pose proof (empty_data_returns_false E issues milestones Hi Hm Ti Tm) as Hfalse.
  split.
  - destruct (generate_wiki_content E w) as [r w1] eqn:Hg.
    apply Hfalse in Hg as (-> & Hw & Hs). eauto.
  - intros r w' H. apply run_spec in H as ((l & Hl & Htr) & _).
    apply (no_publish_without_content E l r) in Htr as (Hr & Hnp & Hpull & Hinit).
    + split; [assumption|]. exists l. auto.
    + intros w1 r1 w2 Hg. now apply Hfalse in Hg.
Qed.

(** C1 fails as stated: with two empty lists and an existing wiki the
    run ends with [WikiGenerationError("No se pudo generar el
    contenido")], not with a success. *)
Lemma empty_data_is_not_no_change : ~ no_change_outcome empty_data_env fresh_world.
Proof. intros (Hr & _). vm_compute in Hr. discriminate. Qed.

Lemma empty_data_fails_the_run_witness :
  (exists w1, generate_wiki_content empty_data_env empty_checkout = (Ok false, w1) /\
              w_wiki w1 = w_wiki empty_checkout /\
              w_spawned w1 = w_spawned empty_checkout) /\
  (forall r w', generate_wiki_pages empty_data_env empty_checkout = (r, w') ->
     (exists e, r = Raise e) /\
     exists l, w_spawned w' = (w_spawned empty_checkout ++ l)%list /\
               Forall (fun c => is_publish c = false) (commands l) /\
               ((exists b, ran_ok (cmd_pull b) l) ->
                r = Raise (WikiGenerationError NoContent) \/ r = Raise OSError) /\
               ((exists url, ran_ok (cmd_remote_add url) l) ->
                r = Raise (WikiGenerationError NoInitialContent) \/ r = Raise OSError)).
Proof.
  apply (empty_data_fails_the_run empty_data_env empty_checkout (JList []) (JList []));
    reflexivity.
Defined.

(** ** Milestones without a title, in a run *)

(** What is left of the shapes of a run when content generation raises
    [e0] in a directory and returns [False] without one. *)
Ltac with_failing_content Hgen Hk :=
  repeat match goal with
    | H : generated _ |- _ =>
        let w1 := fresh "w" in let w2 := fresh "w" in
        destruct H as (w1 & w2 & H);
        apply Hgen in H as [(? & _ & H) | (_ & H)]; discriminate H
    | H : content_failure _ _ _ |- _ =>
        let w1 := fresh "w" in let w2 := fresh "w" in
        let Hreach := fresh "Hreach" in
        destruct H as [(_ & w1 & w2 & H & Hreach) | (w1 & w2 & H)];
        [ apply Hgen in H as [(? & _ & H) | (H & _)];
          [discriminate H | now apply (Hreach Hk) in H]
        | apply Hgen in H as [(? & _ & H) | (_ & H)];
          [inversion H; subst | discriminate H] ]
    end.

Lemma no_publish_with_failing_content E e0 l r :
  keeps_directory E ->
  (forall w r w', generate_wiki_content E w = (r, w') ->
     (exists t, w_wiki w = Some t /\ r = Raise e0) \/
     (w_wiki w = None /\ r = Ok false)) ->
  (forall w, handlers e0 w = (Raise (WikiGenerationError (Unexpected e0)), w)) ->
  run_trace E l r ->
  (exists e, r = Raise e) /\
  Forall (fun c => is_publish c = false) (commands l) /\
  ((exists b, ran_ok (cmd_pull b) l) \/ (exists url, ran_ok (cmd_remote_add url) l) ->
   r = Raise (WikiGenerationError (Unexpected e0)) \/ r = Raise OSError).
Proof.
  intros Hk Hgen Hh Htr. invert_trace; with_failing_content Hgen Hk.
  all: split; [eauto|]; split; [repeat constructor|].
  all: intros [(? & ? & Hin & Hrc) | (? & ? & Hin & Hrc)]; members Hin;
    try match goal with
      | H : passed (Exited _) = false |- _ => simpl in H; lia
      end.
  all: match goal with
       | H : final_exception _ _ |- _ =>
           destruct H as [-> | (? & H)];
           [now right | rewrite Hh in H; inversion H; subst; now left]
       end.
Qed.

(** C8, as the code has it.  Nothing validates a milestone before the
    pages are written.  With a milestone without the key [title] in the
    list, after milestones that render, [generate_wiki_content] raises
    [KeyError('title')] when the milestones page reaches it: by then
    [Home.md] is written, and [Milestones.md] holds its header and the
    entries of the milestones before.  When no Git command removes
    the directory, every run with such a list ends with an exception
    and stages, commits and pushes nothing; once the pull of an
    existing wiki, or the remote of a new one, has passed, the
    exception is [WikiGenerationError("Error inesperado: 'title'")], or
    the [OSError] of a final clean-up that cannot start [rm].  A
    milestone whose title is null has the key: with a state it is
    rendered, under the heading [## None]. *)
Theorem untitled_milestone_raises_midway E issues before ms after :
  E_file E (issues_file E) = Holds issues ->
  E_file E (milestones_file E) = Holds (JList (before ++ ms :: after)) ->
  lacks_title ms ->
  Forall (fun m => snd (milestone_entry m) = Ok tt) before ->
  E_can_open E "Home.md" = true ->
  E_can_open E "Milestones.md" = true ->
  keeps_directory E ->
  (forall w t,
     w_wiki w = Some t ->
     exists w',
       generate_wiki_content E w = (Raise (KeyError "title"), w') /\
       w_wiki w'
       = Some (tree_put "Milestones.md"
                 (milestones_header
                  ++ concat_text (map (fun m => fst (milestone_entry m)) before))
                 (tree_put "Home.md" home_text t))) /\
  (forall w r w',
     generate_wiki_pages E w = (r, w') ->
     (exists e, r = Raise e) /\
     exists l, w_spawned w' = (w_spawned w ++ l)%list /\
               Forall (fun c => is_publish c = false) (commands l) /\
               ((exists b, ran_ok (cmd_pull b) l) \/
                (exists url, ran_ok (cmd_remote_add url) l) ->
                r = Raise (WikiGenerationError (Unexpected (KeyError "title"))) \/
                r = Raise OSError)) /\
  (forall kv st,
     assoc "title" kv = Some JNull -> assoc "state" kv = Some st ->
     exists rest, milestone_entry (JDict kv) = (("## None" ++ nl) ++ rest, Ok tt)).
Proof.
  intros Hi Hm Hms Hbefore Hhome Hmil Hk.
  pose proof (untitled_generation E issues before ms after Hi Hm Hms Hbefore Hhome Hmil)
    as Hgen.
  split; [|split].
  - intros w t Hw. destruct (generate_wiki_content E w) as [r w1] eqn:Hg.
    apply Hgen in Hg as [(t' & Ht' & -> & Hw1) | (Hn & _)]; [|congruence].
    rewrite Hw in Ht'. inversion Ht'; subst t'. eauto.
  - intros w r w' H. apply run_spec in H as ((l & Hl & Htr) & _).
    apply (no_publish_with_failing_content E (KeyError "title") l r) in Htr
      as (Hr & Hnp & Hend).
    + split; [assumption|]. exists l. auto.
    + exact Hk.
    + intros w1 r1 w2 Hg. apply Hgen in Hg as [(t & Ht & Hr & _) | Hn]; eauto.
    + reflexivity.
  - apply null_title_entry.
Qed.

(** ** Pushing *)

(** C3, as the code has it.  Every push of a run is one of two: on the
    path of a wiki that could not be cloned, [git push --force origin
    main]; on the path of a cloned wiki, [git push origin b] without
    [--force], started only after [git checkout b] and [git pull origin
    b] have both exited with status 0.  When a checkout or a pull does
    not pass, the run ends with an exception and pushes nothing. *)
Theorem push_discipline E w r w' :
  generate_wiki_pages E w = (r, w') ->
  exists l,
    w_spawned w' = (w_spawned w ++ l)%list /\
    (forall pre cmd o post,
       l = (pre ++ (cmd, o) :: post)%list -> is_push cmd = true -> push_guard pre cmd) /\
    (forall cmd o,
       In (cmd, o) l ->
       is_git "checkout" cmd = true \/ is_git "pull" cmd = true ->
       passed o = false ->
       (exists e, r = Raise e) /\ Forall (fun c => is_push c = false) (commands l)).
Proof.
  intros H. apply run_spec in H as ((l & Hl & Htr) & _).
  exists l. split; [assumption|]. split.
  - apply (pushes_guarded E l r Htr).
  - apply (sync_failure_fatal E l r Htr).
Qed.

(** C3 fails as stated: the first publication of a wiki pushes with
    [--force]. *)
Lemma first_run_force_pushes : ~ never_force_pushes first_run_env fresh_world.
Proof. intros H. apply H. vm_compute. tauto. Qed.

Lemma push_discipline_witness :
  exists l,
    w_spawned (snd (generate_wiki_pages update_env fresh_world))
    = (w_spawned fresh_world ++ l)%list /\
    (forall pre cmd o post,
       l = (pre ++ (cmd, o) :: post)%list -> is_push cmd = true -> push_guard pre cmd) /\
    (forall cmd o,
       In (cmd, o) l ->
       is_git "checkout" cmd = true \/ is_git "pull" cmd = true ->
       passed o = false ->
       (exists e, fst (generate_wiki_pages update_env fresh_world) = Raise e) /\
       Forall (fun c => is_push c = false) (commands l)).
Proof.
  apply (push_discipline update_env fresh_world).
  vm_compute. reflexivity.
Defined.

(** ** Committing *)

Lemma commits_guarded E l r :
  run_trace E l r ->
  forall pre cmd o post,
    l = (pre ++ (cmd, o) :: post)%list -> is_commit cmd = true -> commit_guard pre cmd.
Proof.
  intros Htr. invert_trace; intros pre0 cmd0 out0 post0 Hl Hcommit; simpl in Hl;
    positions Hl; try discriminate Hcommit.
  all: first
    [ left; split; [reflexivity|]; split; [show_clone|]; split; [show_ran_ok|];
      simpl; intros Hin; members Hin
    | right; split; [reflexivity|]; split; [show_clone|]; split; [show_ran_ok|];
      match goal with
      | |- exists st, In (cmd_status, Exited st) ?h /\ _ =>
          match h with
          | context [(cmd_status, Exited ?c)] =>
              exists c; split; [in_history | split; assumption]
          end
      end ].
Qed.

Lemma status_decides E l r :
  run_trace E l r ->
  forall st, In (cmd_status, Exited st) l -> returncode st = 0%Z ->
    if clean st
    then r = Ok tt /\
         Forall (fun c => is_commit c = false /\ is_push c = false) (commands l)
    else In (cmd_commit "Update wiki content") (commands l) /\
         (ran_ok (cmd_commit "Update wiki content") l ->
          exists b, In (cmd_push b) (commands l)).
Proof.
  intros Htr. invert_trace; intros st Hin Hst; members Hin;
    try match goal with
      | H : passed (Exited st) = false |- _ => simpl in H; lia
      end;
    match goal with
    | H : clean _ = _ |- _ => rewrite H
    | _ => idtac
    end.
  all: try (split; [reflexivity | repeat constructor]).
  all: try (split; [in_history|];
            first [ intros _; eexists; in_history
                  | intros (? & Hc & Hrc); members Hc;
                    match goal with
                    | H : passed (Exited ?c) = false |- _ => simpl in H; lia
                    end ]).
Qed.

Lemma new_store_unconditional E l r :
  run_trace E l r -> clone_failed l ->
  ~ In cmd_status (commands l) /\
  (ran_ok cmd_add l -> In (cmd_commit "Initial wiki content") (commands l)).
Proof.
  intros Htr. invert_trace; intros (cmd0 & out0 & Hin & Hclone & Hfailed);
    members Hin; try discriminate Hclone; try (simpl in Hfailed; lia).
  all: split;
    [ simpl; intros Hs; members Hs
    | first [ intros _; in_history
            | intros (? & Hc & Hrc); members Hc;
              match goal with
              | H : passed (Exited ?c) = false |- _ => simpl in H; lia
              end ] ].
Qed.

(** C5, as the code has it.  A commit of a run is one of two.  On the
    path of a cloned wiki it is [git commit -m "Update wiki content"],
    made after [git add .] and after [git status --porcelain] has
    printed something: when the status is empty the run ends well and
    has committed and pushed nothing, and when it is not the commit is
    made and, once it passes, the push.  On the path of a wiki that
    could not be cloned it is [git commit -m "Initial wiki content"],
    made after [git add .] whatever the state of the working tree:
    [git status] is not run on that path. *)
Theorem commit_discipline E w r w' :
  generate_wiki_pages E w = (r, w') ->
  exists l,
    w_spawned w' = (w_spawned w ++ l)%list /\
    (forall pre cmd o post,
       l = (pre ++ (cmd, o) :: post)%list -> is_commit cmd = true ->
       commit_guard pre cmd) /\
    (forall st,
       In (cmd_status, Exited st) l -> returncode st = 0%Z ->
       if clean st
       then r = Ok tt /\
            Forall (fun c => is_commit c = false /\ is_push c = false) (commands l)
       else In (cmd_commit "Update wiki content") (commands l) /\
            (ran_ok (cmd_commit "Update wiki content") l ->
             exists b, In (cmd_push b) (commands l))) /\
    (clone_failed l ->
     ~ In cmd_status (commands l) /\
     (ran_ok cmd_add l -> In (cmd_commit "Initial wiki content") (commands l))).
Proof.
  intros H. apply run_spec in H as ((l & Hl & Htr) & _).
  exists l. split; [assumption|]. split; [|split].
  - apply (commits_guarded E l r Htr).
  - apply (status_decides E l r Htr).
  - apply (new_store_unconditional E l r Htr).
Qed.

(** C5 fails as stated: the first publication of a wiki commits though
    no status was asked for, and none would have shown a change. *)
Lemma first_run_commits_unconditionally : ~ commits_only_if_dirty first_run_env fresh_world.
Proof.
  intros H. destruct (H (cmd_commit "Initial wiki content")) as (st & Hin & _).
  - vm_compute. tauto.
  - reflexivity.
  - vm_compute in Hin. intuition discriminate.
Qed.

Lemma commit_discipline_witness :
  exists l,
    w_spawned (snd (generate_wiki_pages update_env fresh_world))
    = (w_spawned fresh_world ++ l)%list /\
    (forall pre cmd o post,
       l = (pre ++ (cmd, o) :: post)%list -> is_commit cmd = true ->
       commit_guard pre cmd) /\
    (forall st,
       In (cmd_status, Exited st) l -> returncode st = 0%Z ->
       if clean st
       then fst (generate_wiki_pages update_env fresh_world) = Ok tt /\
            Forall (fun c => is_commit c = false /\ is_push c = false) (commands l)
       else In (cmd_commit "Update wiki content") (commands l) /\
            (ran_ok (cmd_commit "Update wiki content") l ->
             exists b, In (cmd_push b) (commands l))) /\
    (clone_failed l ->
     ~ In cmd_status (commands l) /\
     (ran_ok cmd_add l -> In (cmd_commit "Initial wiki content") (commands l))).
Proof.
  apply (commit_discipline update_env fresh_world).
  vm_compute. reflexivity.
Defined.

(** ** Sample runs *)

(** C4.  The claim does not hold of the code at this input: the labels
    of the first issue are a list of a text and a number;
    [format_labels] returns that list as it is, [', '.join] raises
    [TypeError] on it, nothing catches it before the [except] clauses
    of [generate_wiki_pages], and the run ends with
    [WikiGenerationError("Error inesperado: ...")] having staged and
    published nothing, the well-formed second issue included. *)
Theorem mixed_labels_abort_the_run :
  format_labels (JList [JStr "bug"; JInt 1]) = JList [JStr "bug"; JInt 1] /\
  join_value ", " (JList [JStr "bug"; JInt 1]) = Raise TypeError /\
  fst (generate_wiki_pages mixed_labels_env fresh_world)
  = Raise (WikiGenerationError (Unexpected TypeError)) /\
  Forall (fun c => is_publish c = false)
         (commands (w_spawned (snd (generate_wiki_pages mixed_labels_env fresh_world)))).
Proof. vm_compute. repeat split; repeat constructor. Qed.

Lemma issue_pages_partition_witness :
  let items := [sample_issue 1 "Timeout" "open" (JList []);
                sample_issue 2 "Refund" "draft" (JList [])] in
  let w' := snd (generate_wiki_content draft_env empty_checkout) in
  let active := filter (state_is "open") items in
  let closed := filter (state_is "closed") items in
  exists t,
    w_wiki w' = Some t /\
    tree_get "Issues-Activos.md" t
    = Some (active_header ++ concat_text (map (fun i => fst (active_entry i)) active)) /\
    tree_get "Issues-Cerrados.md" t
    = Some (closed_header ++ concat_text (map (fun i => fst (closed_entry i)) closed)) /\
    (forall i, In i active -> ~ In i closed) /\
    (forall i, In i items ->
       state_is "open" i = false -> state_is "closed" i = false ->
       ~ In i active /\ ~ In i closed) /\
    (Forall (fun i => state_is "open" i = true \/ state_is "closed" i = true) items ->
     Permutation (active ++ closed) items) /\
    (forall i, In i active ->
       exists number title rest,
         subscript i "number" = Ok number /\ subscript i "title" = Ok title /\
         fst (active_entry i)
         = ("## #" ++ py_str number ++ ": " ++ py_str title ++ nl) ++ rest) /\
    (forall i, In i closed ->
       exists number title rest,
         subscript i "number" = Ok number /\ subscript i "title" = Ok title /\
         fst (closed_entry i)
         = ("## #" ++ py_str number ++ ": " ++ py_str title ++ nl) ++ rest).
Proof.
  apply (issue_pages_partition draft_env empty_checkout).
  - reflexivity.
  - vm_compute. reflexivity.
Defined.

Lemma guard_forbidden_witness :
  exists m,
    fst (generate_wiki_pages read_only_env fresh_world) = Raise (WikiGenerationError m) /\
    forbidden m = true /\
    m = NoWritePermission /\
    exists l,
      w_spawned (snd (generate_wiki_pages read_only_env fresh_world))
      = (w_spawned fresh_world ++ l)%list /\
      Forall (fun c => c = rm_wiki read_only_env) (commands l) /\
      (w_wiki (snd (generate_wiki_pages read_only_env fresh_world)) = None \/
       w_wiki (snd (generate_wiki_pages read_only_env fresh_world)) = w_wiki fresh_world).
Proof.
  apply (guard_forbidden read_only_env fresh_world _ _ "t0k3n" "owner/project" 200%Z
           (sample_repo_data false true true true) (Access true false true true)).
  - reflexivity.
  - reflexivity.
  - reflexivity.
  - reflexivity.
  - reflexivity.
  - intros h. vm_compute. discriminate.
  - reflexivity.
  - reflexivity.
  - reflexivity.
  - left. reflexivity.
  - vm_compute. reflexivity.
Defined.

(** C8 fails as stated: with a milestone without title after a titled
    one, content generation raises only after it has written [Home.md]
    and the beginning of [Milestones.md]. *)
Lemma untitled_milestone_not_rejected_first :
  ~ rejected_before_rendering untitled_env empty_checkout.
Proof.
  intros (e & w' & H & Hw). vm_compute in H. inversion H; subst.
  vm_compute in Hw. discriminate.
Qed.

Lemma untitled_milestone_raises_midway_witness :
  (forall w t,
     w_wiki w = Some t ->
     exists w',
       generate_wiki_content untitled_env w = (Raise (KeyError "title"), w') /\
       w_wiki w'
       = Some (tree_put "Milestones.md"
                 (milestones_header
                  ++ concat_text (map (fun m => fst (milestone_entry m)) [titled "v1"]))
                 (tree_put "Home.md" home_text t))) /\
  (forall w r w',
     generate_wiki_pages untitled_env w = (r, w') ->
     (exists e, r = Raise e) /\
     exists l, w_spawned w' = (w_spawned w ++ l)%list /\
               Forall (fun c => is_publish c = false) (commands l) /\
               ((exists b, ran_ok (cmd_pull b) l) \/
                (exists url, ran_ok (cmd_remote_add url) l) ->
                r = Raise (WikiGenerationError (Unexpected (KeyError "title"))) \/
                r = Raise OSError)) /\
  (forall kv st,
     assoc "title" kv = Some JNull -> assoc "state" kv = Some st ->
     exists rest, milestone_entry (JDict kv) = (("## None" ++ nl) ++ rest, Ok tt)).
Proof.
  apply (untitled_milestone_raises_midway untitled_env
           (JList sample_issues) [titled "v1"] untitled []).
  - reflexivity.
  - reflexivity.
  - eexists. split; reflexivity.
  - repeat constructor.
  - reflexivity.
  - reflexivity.
  - intros cmd r t. unfold untitled_env, sample_env, E_git_tree, sample_git_tree.
    destruct (_ && _)%bool; discriminate.
Defined.

(** * Further properties of the functions *)

(** ** [verify_token] *)

Lemma lstrip_nil l : lstrip_pieces l = [] <-> forallb is_space_piece l = true.
Proof.
  induction l as [|c l IH]; simpl; [tauto|].
  destruct (is_space_piece c); simpl; [exact IH|]. split; discriminate.
Qed.

Lemma lstrip_keeps_ink l :
  forallb is_space_piece l = false -> forallb is_space_piece (lstrip_pieces l) = false.
Proof.
  induction l as [|c l IH]; simpl; [discriminate|].
  destruct (is_space_piece c) eqn:Hc; simpl; [exact IH|]. now rewrite Hc.
Qed.

Lemma forallb_rev {A} (f : A -> bool) l : forallb f (rev l) = forallb f l.
Proof.
  induction l as [|x l IH]; simpl; [reflexivity|].
  rewrite forallb_app, IH. simpl. rewrite andb_true_r. apply andb_comm.
Qed.

Lemma has_ink_spec s :
  has_ink s = negb (forallb is_space_piece (pieces (list_ascii_of_string s))).
Proof.
  unfold has_ink. induction (pieces (list_ascii_of_string s)) as [|c l IH]; simpl;
    [reflexivity|].
  rewrite IH. now destruct (is_space_piece c).
Qed.

Lemma pieces_cons a l1 :
  pieces (a :: l1)
  = match l1 with
    | b :: l2 =>
        if two_byte_space a b then [a; b] :: pieces l2
        else match l2 with
             | c :: l3 =>
                 if three_byte_space a b c then [a; b; c] :: pieces l3
                 else [a] :: pieces l1
             | [] => [a] :: pieces l1
             end
    | [] => [a] :: pieces l1
    end.
Proof. destruct l1; reflexivity. Qed.

(** No piece of a text is empty. *)
Lemma pieces_inhabited l : Forall (fun p => p <> []) (pieces l).
Proof.
  remember (length l) as n eqn:Hn. revert l Hn.
  induction n as [n IH] using lt_wf_ind. intros l Hn.
  destruct l as [|a l1]; [constructor|]. rewrite pieces_cons.
  assert (H1 : Forall (fun p : list ascii => p <> []) (pieces l1))
    by (apply (IH (length l1)); [subst n; simpl; lia | reflexivity]).
  destruct l1 as [|b l2]; [constructor; [discriminate | exact H1]|].
  assert (H2 : Forall (fun p : list ascii => p <> []) (pieces l2))
    by (apply (IH (length l2)); [subst n; simpl; lia | reflexivity]).
  destruct (two_byte_space a b); [constructor; [discriminate | exact H2]|].
  destruct l2 as [|c l3]; [constructor; [discriminate | exact H1]|].
  assert (H3 : Forall (fun p : list ascii => p <> []) (pieces l3))
    by (apply (IH (length l3)); [subst n; simpl; lia | reflexivity]).
  destruct (three_byte_space a b c); constructor; try discriminate; assumption.
Qed.

Lemma lstrip_inhabited l :
  Forall (fun p : list ascii => p <> []) l ->
  Forall (fun p : list ascii => p <> []) (lstrip_pieces l).
Proof.
  induction 1 as [|p l Hp Hl IH]; simpl; [constructor|].
  destruct (is_space_piece p); [exact IH | now constructor].
Qed.

Lemma strip_truthy s : str_truthy (strip s) = has_ink s.
Proof.
  rewrite has_ink_spec. unfold strip.
  set (l := pieces (list_ascii_of_string s)).
  assert (Hne : Forall (fun p : list ascii => p <> []) l) by apply pieces_inhabited.
  destruct (forallb is_space_piece l) eqn:Hall; simpl.
  - apply lstrip_nil in Hall. rewrite Hall. reflexivity.
  - apply lstrip_keeps_ink in Hall. rewrite <- forallb_rev in Hall.
    apply lstrip_keeps_ink in Hall. rewrite <- forallb_rev in Hall.
    apply lstrip_inhabited, Forall_rev, lstrip_inhabited, Forall_rev in Hne.
    destruct (rev (lstrip_pieces (rev (lstrip_pieces l)))) as [|p r]; [discriminate|].
    inversion Hne as [|? ? Hp _]; subst.
    destruct p as [|c p]; [contradiction|]. reflexivity.
Qed.

(** X1.  [verify_token] accepts a token exactly when some character of
    it is not white space — the white space of [str.strip], that of
    ASCII and that of the rest of Unicode — and then returns it as it
    is, the white space around it included; an unset or empty token is
    reported as missing, a token of white space only as empty.  It
    changes nothing in the world. *)
Theorem verify_token_decides E w :
  verify_token E w
  = (match E_token E with
     | None => Raise (WikiGenerationError TokenMissing)
     | Some token =>
         if has_ink token then Ok token
         else if str_truthy token then Raise (WikiGenerationError TokenBlank)
         else Raise (WikiGenerationError TokenMissing)
     end, w).
Proof.
  unfold verify_token. destruct (E_token E) as [token|]; [|reflexivity].
  rewrite strip_truthy. destruct token as [|c token]; [reflexivity|].
  simpl str_truthy. cbn [negb]. destruct (has_ink (String c token)); reflexivity.
Qed.

(** ** [run_git_command], [get_default_branch], [safe_cleanup] *)

(** X2.  [run_git_command] starts its command once and prints nothing.
    It raises nothing but [WikiGenerationError]: a command that cannot
    be started, or whose output cannot be decoded as text, gives "Error
    ejecutando Git", a command that exits with a status other than 0
    gives, when [check] is set, the message chosen by its error output
    — an authentication failure first, then a missing repository, then
    the message of the caller — and is returned like a success when
    [check] is not set. *)
Theorem run_git_command_outcome E cmd msg check w :
  let o := E_run E (w_spawned w) cmd in
  let w' := snd (run_git_command E cmd msg check w) in
  fst (run_git_command E cmd msg check w)
  = match o with
    | NotStarted => Raise (WikiGenerationError (GitNotRun OSError))
    | Exited c =>
        if readable c
        then if check && negb (returncode c =? 0)%Z
             then Raise (WikiGenerationError (git_failure msg (stderr (as_text c))))
             else Ok (as_text c)
        else Raise (WikiGenerationError (GitNotRun UnicodeDecodeError))
    end /\
  w_spawned w' = (w_spawned w ++ [(cmd, in_text_mode o)])%list /\
  w_stdout w' = w_stdout w.
Proof.
  unfold run_git_command, try_except, bind, run_command, subprocess_run, bind.
  cbn zeta. destruct (E_run E (w_spawned w) cmd) as [c|]; cbn [andb negb ret in_text_mode].
  - destruct (readable c); cbn [andb negb ret]; [|repeat split].
    cbn [returncode as_text]. unfold git_failure.
    destruct (check && negb (returncode c =? 0)%Z); [|repeat split].
    destruct (contains "Authentication failed" (stderr (as_text c))); [repeat split|].
    destruct (contains "repository not found" (stderr (as_text c))); [repeat split|].
    destruct (opt_truthy msg); repeat split.
  - repeat split.
Qed.

(** X3.  [get_default_branch] never raises.  It starts one [git
    ls-remote --symref] and answers "master" when that command could be
    started and its output is text that names [refs/heads/master],
    whatever its exit status, and "main" in every other case: when the
    command cannot be started, when its output cannot be decoded, and
    when the output does not name that branch. *)
Theorem get_default_branch_answer E url w :
  let o := E_run E (w_spawned w) (cmd_symref url) in
  let w' := snd (get_default_branch E url w) in
  fst (get_default_branch E url w)
  = Ok (match o with
        | Exited c => if readable c
                         && contains "ref: refs/heads/master" (stdout (as_text c))
                      then "master" else "main"
        | NotStarted => "main"
        end) /\
  w_spawned w' = (w_spawned w ++ [(cmd_symref url, in_text_mode o)])%list /\
  w_wiki w' = w_wiki w /\ w_stdout w' = w_stdout w.
Proof.
  unfold get_default_branch, try_except, bind, run_command, subprocess_run, bind, cmd_symref.
  cbn zeta. destruct (E_run E (w_spawned w) _) as [c|]; cbn [andb negb ret in_text_mode].
  - destruct (readable c); cbn [andb negb ret].
    + destruct (contains "ref: refs/heads/master" (stdout (as_text c))); repeat split;
        cbn [snd w_wiki set_wiki add_spawned];
        apply (after_command_git E); reflexivity.
    + repeat split; cbn [snd w_wiki set_wiki add_spawned];
        apply (after_command_git E); reflexivity.
  - repeat split.
Qed.

(** The line printed for a [rm] that exits with status 1, and for
    one killed by signal 9, the directory being [/work/wiki_content]. *)
Example cleanup_line_of_status :
  ("Error limpiando " ++ "/work/wiki_content" ++ ": "
   ++ str_process_error 1 "['rm', '-rf', PosixPath('/work/wiki_content')]")
  = "Error limpiando /work/wiki_content: Command '['rm', '-rf', PosixPath('/work/wiki_content')]' returned non-zero exit status 1.".
Proof. reflexivity. Qed.

Example cleanup_line_of_signal :
  ("Error limpiando " ++ "/work/wiki_content" ++ ": "
   ++ str_process_error (-9) "['rm', '-rf', PosixPath('/work/wiki_content')]")
  = "Error limpiando /work/wiki_content: Command '['rm', '-rf', PosixPath('/work/wiki_content')]' died with <Signals.SIGKILL: 9>.".
Proof. reflexivity. Qed.

(** X4.  [safe_cleanup] starts nothing when there is no wiki directory.
    When there is one it starts [rm -rf] once, its output left
    undecoded: an exit status 0 removes the directory; any other status
    is not an error of the clean-up, which prints one line — the text
    of the [CalledProcessError], whose command shows the directory as a
    [PosixPath] and whose negative status names the signal — leaves the
    directory and returns; only a [rm] that cannot be started makes it
    raise ([OSError]). *)
Theorem safe_cleanup_outcome E w :
  let o := E_run E (w_spawned w) (rm_wiki E) in
  let r := fst (safe_cleanup E w) in
  let w' := snd (safe_cleanup E w) in
  match w_wiki w with
  | None => r = Ok tt /\ w' = w
  | Some t =>
      w_spawned w' = (w_spawned w ++ [(rm_wiki E, o)])%list /\
      match o with
      | NotStarted => r = Raise OSError /\ w_wiki w' = Some t
      | Exited c =>
          r = Ok tt /\
          if (returncode c =? 0)%Z
          then w_wiki w' = None /\ w_stdout w' = w_stdout w
          else w_wiki w' = Some t /\
               w_stdout w'
               = (w_stdout w
                  ++ [("Error limpiando " ++ wiki_dir E ++ ": "
                       ++ str_process_error (returncode c)
                            ("['rm', '-rf', PosixPath(" ++ repr_str (wiki_dir E)
                             ++ ")]"))%string])%list
      end
  end.
Proof.
  unfold safe_cleanup, bind, wiki_dir_exists, when, try_except, subprocess_run_plain, bind.
  cbn zeta. destruct (w_wiki w) as [t|] eqn:Hw; [|split; reflexivity].
  destruct (E_run E (w_spawned w) (rm_wiki E)) as [c|]; cbn [andb negb ret].
  - unfold after_command. rewrite cmd_eqb_refl. cbn [w_wiki add_spawned].
    destruct (returncode c =? 0)%Z; cbn [negb]; rewrite ?Hw; repeat split.
  - cbn. rewrite Hw. repeat split.
Qed.

(** ** [check_repo_access] *)

(** X5.  On an HTTP error status [check_repo_access] looks at nothing in
    the answer: 401 is reported as an invalid token, 403 as a token
    without permissions, 404 as a missing repository, and any other
    status from 400 to 599 as an error of the API.  One GET request has
    been sent and nothing printed. *)
Theorem check_repo_access_http_error E url w status body :
  E_get E = Response status body ->
  (400 <= status < 600)%Z ->
  check_repo_access E url w
  = (Raise (WikiGenerationError (http_failure status)), add_http "GET" url w).
Proof.
  intros Hget Hstatus.
  unfold check_repo_access, try_except, bind at 1, requests_get. rewrite Hget.
  cbn [fst snd]. unfold bind at 1, raise_for_status.
  replace ((400 <=? status)%Z && (status <? 600)%Z) with true
    by (symmetry; apply andb_true_iff; split; lia).
  unfold raise at 1, http_failure.
  destruct (status =? 401)%Z; [reflexivity|].
  destruct (status =? 403)%Z; [reflexivity|].
  destruct (status =? 404)%Z; reflexivity.
Qed.

Lemma check_repo_access_http_error_witness :
  check_repo_access
    (Env "/work" true (fun _ => Absent) (Some "t") (Some "o/p")
         (Response 404 None) ConnectionFailed (fun _ _ => NotStarted)
         (fun _ _ t => t) (fun _ => true) "")
    "https://api.github.com/repos/o/p" fresh_world
  = (Raise (WikiGenerationError (http_failure 404)),
     add_http "GET" "https://api.github.com/repos/o/p" fresh_world).
Proof.
  apply (check_repo_access_http_error _ _ _ 404%Z None); [reflexivity | lia].
Defined.

Lemma check_repo_access_ok_world E url w v w' :
  check_repo_access E url w = (Ok v, w') -> w' = add_http "GET" url w.
Proof.
  unfold check_repo_access. intros H.
  apply try_except_inv in H as [(a & H & _) | (e & w1 & H & Hh)].
  2:{ destruct e as [k| | | | |rc cmd|[st|]|m| | | ];
        try (apply raise_inv in Hh as (? & _); discriminate).
      destruct (st =? 401)%Z; [apply raise_inv in Hh as (? & _); discriminate|].
      destruct (st =? 403)%Z; [apply raise_inv in Hh as (? & _); discriminate|].
      destruct (st =? 404)%Z; apply raise_inv in Hh as (? & _); discriminate. }
  apply bind_inv in H as [(resp & w1 & H1 & H) | (e & _ & ?)]; [|discriminate].
  assert (Hw1 : w1 = add_http "GET" url w).
  { unfold requests_get in H1. destruct (E_get E); inversion H1; reflexivity. }
  subst w1. clear H1.
  apply bind_inv in H as [(? & w2 & H2 & H) | (e & _ & ?)]; [|discriminate].
  assert (w2 = add_http "GET" url w) as ->.
  { unfold raise_for_status in H2.
    destruct ((400 <=? fst resp)%Z && (fst resp <? 600)%Z);
      [apply raise_inv in H2 as (? & _); discriminate | now apply ret_inv in H2]. }
  clear H2.
  apply bind_inv in H as [(repo_data & w3 & H3 & H) | (e & _ & ?)]; [|discriminate].
  assert (w3 = add_http "GET" url w) as ->.
  { unfold response_json in H3. destruct (snd resp);
      [now apply ret_inv in H3 | apply raise_inv in H3 as (? & _); discriminate]. }
  clear H3.
  apply bind_inv in H as [(perms & w4 & H4 & H) | (e & _ & ?)]; [|discriminate].
  apply lift_inv in H4 as (_ & ->).
  apply bind_inv in H as [(push & w5 & H5 & H) | (e & _ & ?)]; [|discriminate].
  apply lift_inv in H5 as (_ & ->).
  destruct (negb (truthy push)).
  { apply bind_inv in H as [(? & w6 & _ & H) | (e & _ & ?)]; [|discriminate].
    apply raise_inv in H as (? & _). discriminate. }
  apply bind_inv in H as [(pull & w6 & H6 & H) | (e & _ & ?)]; [|discriminate].
  apply lift_inv in H6 as (_ & ->).
  destruct (negb (truthy pull)); [apply raise_inv in H as (? & _); discriminate|].
  apply bind_inv in H as [(has_wiki & w7 & H7 & H) | (e & _ & ?)]; [|discriminate].
  apply lift_inv in H7 as (_ & ->).
  apply bind_inv in H as [(no_admin & w8 & H8 & H) | (e & _ & ?)]; [|discriminate].
  assert (w8 = add_http "GET" url w) as ->.
  { destruct (negb (truthy has_wiki)); [|now apply ret_inv in H8].
    apply bind_inv in H8 as [(adm & w9 & H9 & H8) | (e & _ & ?)]; [|discriminate].
    apply lift_inv in H9 as (_ & ->). now apply ret_inv in H8. }
  destruct no_admin; [apply raise_inv in H as (? & _); discriminate|].
  now apply ret_inv in H.
Qed.

(** X6.  When the API grants writing and reading, and the wiki is
    enabled or the token is an administrator, [check_repo_access]
    returns the answer of the API as it is; it has sent one GET request
    and printed nothing. *)
Theorem check_repo_access_granted E url w status repo_data a :
  E_get E = Response status (Some repo_data) ->
  (400 <=? status)%Z && (status <? 600)%Z = false ->
  reported repo_data = Some a ->
  canWrite a = true -> canRead a = true ->
  wikiEnabled a = true \/ canAdmin a = true ->
  check_repo_access E url w = (Ok repo_data, add_http "GET" url w).
Proof.
  intros Hget Hstatus Hrep Hw Hr Hwiki.
  pose proof (check_repo_access_reported E url w status repo_data a Hget Hstatus Hrep)
    as Hres.
  rewrite Hw, Hr in Hres. cbn [negb] in Hres.
  replace (negb (wikiEnabled a) && negb (canAdmin a)) with false in Hres
    by (destruct Hwiki as [-> | ->]; [reflexivity | now rewrite andb_false_r]).
  destruct (check_repo_access E url w) as [r w'] eqn:Hc. cbn [fst] in Hres. subst r.
  apply check_repo_access_ok_world in Hc. now subst w'.
Qed.

Lemma check_repo_access_granted_witness :
  check_repo_access update_env "https://api.github.com/repos/owner/project" fresh_world
  = (Ok all_granted,
     add_http "GET" "https://api.github.com/repos/owner/project" fresh_world).
Proof.
  apply (check_repo_access_granted update_env _ fresh_world 200%Z all_granted
           (Access true true true true)); try reflexivity.
  left. reflexivity.
Defined.

(** ** What a run leaves alone *)

(** A step made of one primitive that does not touch the component the
    relation is about. *)
Ltac leaf :=
  let H := fresh "H" in
  intros ? ? ? H;
  unfold print, wiki_dir_exists, credentials_exist, remove_credentials, chdir,
    chdir_wiki, mkdir_wiki, with_open, subprocess_run, subprocess_run_plain,
    requests_get, requests_patch,
    verify_token, environ_repository, raise, ret, lift in H;
  repeat match type of H with
    | context [match ?x with _ => _ end] => destruct x
    end;
  inversion H; subst; reflexivity.

Create HintDb keeps.

Ltac keep_steps Rrefl Rtrans :=
  repeat first
    [ solve [auto with keeps]
    | apply (preserves_ret _ Rrefl)
    | apply (preserves_raise _ Rrefl)
    | apply (preserves_lift _ Rrefl)
    | apply (preserves_when _ Rrefl)
    | apply (preserves_bind _ Rtrans); [|intros ?]
    | apply (preserves_try_except _ Rtrans); [|intros ?]
    | match goal with
      | |- preserves _ (if ?b then _ else _) => destruct b
      | |- preserves _ (match ?x with _ => _ end) => destruct x
      end
    | solve [leaf] ].

Lemma same_http_refl w : same_http w w.
Proof. reflexivity. Qed.

Lemma same_http_trans w1 w2 w3 : same_http w1 w2 -> same_http w2 w3 -> same_http w1 w3.
Proof. unfold same_http. congruence. Qed.

Lemma same_cwd_refl w : same_cwd w w.
Proof. reflexivity. Qed.

Lemma same_cwd_trans w1 w2 w3 : same_cwd w1 w2 -> same_cwd w2 w3 -> same_cwd w1 w3.
Proof. unfold same_cwd. congruence. Qed.

Lemma safe_cleanup_same_cwd E : preserves same_cwd (safe_cleanup E).
Proof. unfold safe_cleanup. keep_steps same_cwd_refl same_cwd_trans. Qed.

Lemma safe_cleanup_same_http E : preserves same_http (safe_cleanup E).
Proof. unfold safe_cleanup. keep_steps same_http_refl same_http_trans. Qed.

Lemma finalizer_same_http E success : preserves same_http (finalizer E success).
Proof.
  unfold finalizer. keep_steps same_http_refl same_http_trans.
  all: apply safe_cleanup_same_http.
Qed.

Lemma run_git_command_same_http E cmd msg check :
  preserves same_http (run_git_command E cmd msg check).
Proof. unfold run_git_command, run_command. keep_steps same_http_refl same_http_trans. Qed.

Lemma run_command_same_http E cmd check : preserves same_http (run_command E cmd check).
Proof. unfold run_command. keep_steps same_http_refl same_http_trans. Qed.

Lemma generate_wiki_content_same_http E : preserves same_http (generate_wiki_content E).
Proof.
  unfold generate_wiki_content, verify_json_content, write_pages.
  keep_steps same_http_refl same_http_trans.
Qed.

#[local] Hint Resolve safe_cleanup_same_cwd safe_cleanup_same_http finalizer_same_http
  run_git_command_same_http run_command_same_http generate_wiki_content_same_http
  : keeps.

Lemma get_default_branch_same_http E url : preserves same_http (get_default_branch E url).
Proof. unfold get_default_branch. keep_steps same_http_refl same_http_trans. Qed.

#[local] Hint Resolve get_default_branch_same_http : keeps.

Lemma new_wiki_same_http E url : preserves same_http (new_wiki E url).
Proof. unfold new_wiki. keep_steps same_http_refl same_http_trans. Qed.

Lemma existing_wiki_same_http E url : preserves same_http (existing_wiki E url).
Proof. unfold existing_wiki. keep_steps same_http_refl same_http_trans. Qed.

#[local] Hint Resolve new_wiki_same_http existing_wiki_same_http : keeps.

(** X7.  A run that finds its data directory ends in the directory it
    was started from, whatever its outcome: the [finally] clause goes
    back there first, and nothing after that moves. *)
Theorem run_restores_directory E w r w' :
  E_data_dir_exists E = true ->
  generate_wiki_pages E w = (r, w') ->
  w_cwd w' = original_dir E.
Proof.
  intros Hdata H. unfold generate_wiki_pages in H.
  apply bind_inv in H as [(? & w1 & _ & H) | (e & H1 & _)];
    [|apply print_quiet in H1 as (? & _); discriminate].
  rewrite Hdata in H. cbn [negb] in H.
  apply try_finally_inv in H as (r1 & w2 & r2 & _ & Hfin & _).
  unfold finalizer in Hfin.
  apply bind_inv in Hfin as [(? & w3 & H3 & Hfin) | (e & H3 & _)]; [|discriminate].
  assert (Hcwd : w_cwd w3 = original_dir E) by (inversion H3; reflexivity).
  assert (Hrest : same_cwd w3 w').
  { revert Hfin. generalize w3 r2 w'.
    match goal with
    | |- forall a b c, ?m a = (b, c) -> _ => change (preserves same_cwd m)
    end.
    keep_steps same_cwd_refl same_cwd_trans. all: apply safe_cleanup_same_cwd. }
  unfold same_cwd in Hrest. congruence.
Qed.

Lemma run_restores_directory_witness :
  w_cwd (snd (generate_wiki_pages first_run_env fresh_world)) = original_dir first_run_env.
Proof.
  apply (run_restores_directory first_run_env fresh_world
           (fst (generate_wiki_pages first_run_env fresh_world))).
  - reflexivity.
  - vm_compute. reflexivity.
Defined.

(** ** The requests of a run *)

Lemma check_repo_access_sends_get E url w r w' :
  check_repo_access E url w = (r, w') -> w_http w' = (w_http w ++ [("GET", url)])%list.
Proof.
  unfold check_repo_access. intros H.
  assert (Hbody : forall r1 w1,
    (response <- requests_get E url ;;
     raise_for_status (fst response) ;;
     repo_data <- response_json (fst response) (snd response) ;;
     permissions <- lift (get_default repo_data "permissions" (JDict [])) ;;
     push <- lift (get permissions "push") ;;
     if negb (truthy push)
     then print ("Permisos actuales: " ++ py_str permissions) ;;
          raise (WikiGenerationError NoWritePermission)
     else
     pull <- lift (get permissions "pull") ;;
     if negb (truthy pull)
     then raise (WikiGenerationError NoReadPermission)
     else
     has_wiki <- lift (get repo_data "has_wiki") ;;
     no_admin <- (if negb (truthy has_wiki)
                  then admin <- lift (get permissions "admin") ;; ret (negb (truthy admin))
                  else ret false) ;;
     if no_admin
     then raise (WikiGenerationError WikiDisabledNoAdmin)
     else ret repo_data)%M w = (r1, w1) ->
    w_http w1 = (w_http w ++ [("GET", url)])%list).
  { intros r1 w1 Hb.
    apply bind_inv in Hb as [(resp & w2 & H1 & Hb) | (e & H1 & _)].
    - assert (H2 : w_http w2 = (w_http w ++ [("GET", url)])%list)
        by (unfold requests_get in H1; destruct (E_get E); inversion H1; reflexivity).
      rewrite <- H2. revert Hb. generalize w2 r1 w1.
      match goal with
      | |- forall a b c, ?m a = (b, c) -> _ => change (preserves same_http m)
      end.
      unfold raise_for_status, response_json.
      keep_steps same_http_refl same_http_trans.
    - unfold requests_get in H1. destruct (E_get E); inversion H1; reflexivity. }
  apply try_except_inv in H as [(a & H & _) | (e & w1 & H & Hh)].
  - now apply Hbody in H.
  - apply Hbody in H. rewrite <- H. revert Hh. generalize w1 r w'.
    match goal with
    | |- forall a b c, ?m a = (b, c) -> _ => change (preserves same_http m)
    end.
    keep_steps same_http_refl same_http_trans.
Qed.

Lemma check_repo_access_ok_get E url w v w' :
  check_repo_access E url w = (Ok v, w') -> exists status, E_get E = Response status (Some v).
Proof.
  unfold check_repo_access. intros H.
  apply try_except_inv in H as [(a & H & Ha) | (e & w1 & H & Hh)].
  2:{ destruct e as [k| | | | |rc cmd|[st|]|m| | | ];
        try (apply raise_inv in Hh as (? & _); discriminate).
      destruct (st =? 401)%Z; [apply raise_inv in Hh as (? & _); discriminate|].
      destruct (st =? 403)%Z; [apply raise_inv in Hh as (? & _); discriminate|].
      destruct (st =? 404)%Z; apply raise_inv in Hh as (? & _); discriminate. }
  inversion Ha; subst a. clear Ha.
  apply bind_inv in H as [(resp & w1 & H1 & H) | (e & _ & ?)]; [|discriminate].
  unfold requests_get in H1. destruct (E_get E) as [|status body]; [discriminate|].
  inversion H1; subst resp w1. clear H1. cbn [fst snd] in H.
  apply bind_inv in H as [(? & w2 & _ & H) | (e & _ & ?)]; [|discriminate].
  apply bind_inv in H as [(repo_data & w3 & H3 & H) | (e & _ & ?)]; [|discriminate].
  unfold response_json in H3. destruct body as [body|];
    [|apply raise_inv in H3 as (? & _); discriminate].
  apply ret_inv in H3 as (H3 & _). inversion H3; subst repo_data.
  assert (Hv : body = v); [|subst; eauto].
  apply bind_inv in H as [(perms & w4 & _ & H) | (e & _ & ?)]; [|discriminate].
  apply bind_inv in H as [(push & w5 & _ & H) | (e & _ & ?)]; [|discriminate].
  destruct (negb (truthy push)).
  { apply bind_inv in H as [(? & w6 & _ & H) | (e & _ & ?)]; [|discriminate].
    apply raise_inv in H as (? & _). discriminate. }
  apply bind_inv in H as [(pull & w6 & _ & H) | (e & _ & ?)]; [|discriminate].
  destruct (negb (truthy pull)); [apply raise_inv in H as (? & _); discriminate|].
  apply bind_inv in H as [(has_wiki & w7 & _ & H) | (e & _ & ?)]; [|discriminate].
  apply bind_inv in H as [(no_admin & w8 & _ & H) | (e & _ & ?)]; [|discriminate].
  destruct no_admin; [apply raise_inv in H as (? & _); discriminate|].
  apply ret_inv in H as (H & _). now inversion H.
Qed.

Lemma print_same_http s : preserves same_http (print s).
Proof. leaf. Qed.

#[local] Hint Resolve print_same_http : keeps.

Lemma requests_patch_sends E url w r w' :
  requests_patch E url w = (r, w') -> w_http w' = (w_http w ++ [("PATCH", url)])%list.
Proof.
  unfold requests_patch. destruct (E_patch E); intros H; inversion H; reflexivity.
Qed.

(** The [try] block after the wiki has been enabled. *)
Lemma rest_same_http E token repo :
  preserves same_http
    (print "URL de wiki configurada (token oculto)" ;;
     run_command E ["git"; "config"; "--global"; "user.name"; "github-actions[bot]"] true ;;
     run_command E ["git"; "config"; "--global"; "user.email";
                    "github-actions[bot]@users.noreply.github.com"] true ;;
     print "Verificando acceso Git..." ;;
     run_git_command E
       ["git"; "ls-remote";
        "https://x-access-token:" ++ token ++ "@github.com/" ++ repo ++ ".wiki.git"]
       (Some "No se puede acceder al repositorio wiki") true ;;
     print ("Intentando clonar wiki en: " ++ wiki_dir E) ;;
     clone_result <-
       run_git_command E
         ["git"; "clone";
          "https://x-access-token:" ++ token ++ "@github.com/" ++ repo ++ ".wiki.git";
          wiki_dir E]
         (Some "Error clonando repositorio wiki") false ;;
     (if negb (returncode clone_result =? 0)%Z
      then new_wiki E
             ("https://x-access-token:" ++ token ++ "@github.com/" ++ repo ++ ".wiki.git")
      else existing_wiki E
             ("https://x-access-token:" ++ token ++ "@github.com/" ++ repo
              ++ ".wiki.git")))%M.
Proof. keep_steps same_http_refl same_http_trans. Qed.

Lemma try_block_requests E w r w' :
  try_block E w = (r, w') ->
  exists reqs, w_http w' = (w_http w ++ reqs)%list /\ requests_of_run E reqs.
Proof.
  unfold try_block. intros H.
  assert (Hnone : forall w0, w_http w0 = w_http w ->
            exists reqs, w_http w0 = (w_http w ++ reqs)%list /\ requests_of_run E reqs).
  { intros w0 H0. exists []. rewrite app_nil_r. split; [assumption | now left]. }
  apply bind_inv in H as [(token & w1 & H1 & H) | (e & H1 & _)];
    apply verify_token_spec in H1 as ->; [|now apply Hnone].
  apply bind_inv in H as [(present & w1 & H1 & H) | (e & H1 & _)];
    apply wiki_dir_exists_spec in H1 as (-> & _); [|now apply Hnone].
  apply bind_inv in H as [(? & w2 & H2 & H) | (e & H2 & _)];
    apply (preserves_when same_http same_http_refl present (safe_cleanup E)
             (safe_cleanup_same_http E)) in H2;
    [|now apply Hnone].
  apply bind_inv in H as [(repo & w3 & H3 & H) | (e & H3 & _)];
    pose proof H3 as Hrepo; apply environ_repository_spec in H3 as ->;
    [|now apply Hnone].
  unfold environ_repository in Hrepo.
  destruct (E_repository E) as [repo'|] eqn:Erepo; [|discriminate].
  inversion Hrepo; subst repo'. clear Hrepo.
  change ("https://api.github.com/repos/" ++ repo) with (api_url repo) in H.
  apply bind_inv in H as [(? & w3 & H3 & H) | (e & H3 & _)];
    apply print_same_http in H3; [|apply Hnone; unfold same_http in *; congruence].
  assert (Hget : forall w0, w_http w0 = (w_http w3 ++ [("GET", api_url repo)])%list ->
            exists reqs, w_http w0 = (w_http w ++ reqs)%list /\ requests_of_run E reqs).
  { intros w0 H0. exists [("GET", api_url repo)].
    split; [unfold same_http in *; congruence|]. right. exists repo. auto. }
  apply bind_inv in H as [(repo_data & w4 & H4 & H) | (e & H4 & _)];
    pose proof H4 as Hok; apply check_repo_access_sends_get in H4;
    [|now apply Hget].
  apply check_repo_access_ok_get in Hok as (status & Eget).
  apply bind_inv in H as [(has_wiki & w5 & H5 & H) | (e & H5 & _)];
    apply lift_inv in H5 as (Hhw & ->); [|now apply Hget].
  destruct (truthy has_wiki) eqn:Thw; cbn [negb when] in H.
  - apply bind_inv in H as [(? & w5 & H5 & H) | (e & H5 & _)];
      apply ret_inv in H5 as (_ & ->); [|now apply Hget].
    apply rest_same_http in H. apply Hget. unfold same_http in H. congruence.
  - assert (Hpatch : forall w0,
              w_http w0 = (w_http w4 ++ [("PATCH", api_url repo)])%list ->
              exists reqs, w_http w0 = (w_http w ++ reqs)%list /\ requests_of_run E reqs).
    { intros w0 H0. exists [("GET", api_url repo); ("PATCH", api_url repo)].
      split.
      - rewrite H0, H4. unfold same_http in *. rewrite H3, H2.
        now rewrite <- app_assoc.
      - right. exists repo. split; [assumption|]. right. split; [reflexivity|].
        exists status, repo_data, has_wiki. auto. }
    apply bind_inv in H as [(? & w5 & H5 & H) | (e & H5 & _)].
    + apply bind_inv in H5 as [(? & w6 & H6 & H5) | (e & H6 & ?)];
        [apply print_same_http in H6 | discriminate].
      apply bind_inv in H5 as [(st & w7 & H7 & H5) | (e & H7 & ?)];
        [apply requests_patch_sends in H7 | discriminate].
      assert (w_http w5 = w_http w7).
      { destruct (negb (st =? 200)%Z); cbn [when] in H5;
          [apply raise_inv in H5 as (_ & ->) | apply ret_inv in H5 as (_ & ->)];
          reflexivity. }
      apply rest_same_http in H. apply Hpatch. unfold same_http in *. congruence.
    + apply bind_inv in H5 as [(? & w6 & H6 & H5) | (e' & H6 & _)];
        [apply print_same_http in H6
        |apply print_quiet in H6 as (? & _); discriminate].
      apply bind_inv in H5 as [(st & w7 & H7 & H5) | (e' & H7 & _)];
        apply requests_patch_sends in H7.
      2:{ apply Hpatch. unfold same_http in *. congruence. }
      assert (w_http w' = w_http w7).
      { destruct (negb (st =? 200)%Z); cbn [when] in H5;
          [apply raise_inv in H5 as (_ & ->) | apply ret_inv in H5 as (_ & ->)];
          reflexivity. }
      apply Hpatch. unfold same_http in *. congruence.
Qed.

(** X8.  A run sends at most two requests and always in this order: the
    GET of the access check, then, only when the API has answered that
    the wiki is not enabled, the PATCH that enables it.  A run that
    stops before the access check sends none. *)
Theorem requests_of_a_run E w r w' :
  generate_wiki_pages E w = (r, w') ->
  exists reqs, w_http w' = (w_http w ++ reqs)%list /\ requests_of_run E reqs.
Proof.
  unfold generate_wiki_pages. intros H.
  apply bind_inv in H as [(? & w1 & H1 & H) | (e & H1 & _)];
    apply print_same_http in H1;
    [|exists []; rewrite app_nil_r; split; [exact H1 | now left]].
  destruct (negb (E_data_dir_exists E)).
  { apply raise_inv in H as (_ & ->). exists []. rewrite app_nil_r.
    split; [exact H1 | now left]. }
  apply try_finally_inv in H as (r1 & w2 & r2 & Htry & Hfin & _).
  apply finalizer_same_http in Hfin.
  assert (Htry' : exists r0 w0, try_block E w1 = (r0, w0) /\ w_http w2 = w_http w0).
  { apply try_except_inv in Htry as [(a & Htry & _) | (e & w3 & Htry & Hh)].
    - eauto.
    - apply handlers_raise in Hh as (-> & _). eauto. }
  destruct Htry' as (r0 & w0 & Htry' & H20).
  apply try_block_requests in Htry' as (reqs & Hreqs & Hshape).
  exists reqs. split; [|assumption].
  unfold same_http in *. congruence.
Qed.

Lemma requests_of_a_run_witness :
  exists reqs,
    w_http (snd (generate_wiki_pages update_env fresh_world))
    = (w_http fresh_world ++ reqs)%list /\ requests_of_run update_env reqs.
Proof.
  apply (requests_of_a_run update_env fresh_world
           (fst (generate_wiki_pages update_env fresh_world))).
  vm_compute. reflexivity.
Defined.

(** ** Runs that stop at the API *)

Lemma verify_token_ok E token w :
  E_token E = Some token -> has_ink token = true -> verify_token E w = (Ok token, w).
Proof.
  intros Htoken Hink. unfold verify_token. rewrite Htoken, strip_truthy, Hink.
  destruct token as [|c token]; [discriminate Hink | reflexivity].
Qed.

Lemma cleanup_only E l : cleanup_trace E l -> only_cleanups E l.
Proof. intros [-> | (o & ->)]; repeat constructor. Qed.

Lemma only_cleanups_app E l1 l2 :
  only_cleanups E l1 -> only_cleanups E l2 -> only_cleanups E (l1 ++ l2)%list.
Proof.
  unfold only_cleanups, commands. intros H1 H2. rewrite map_app.
  apply Forall_app. split; assumption.
Qed.

(** The [try] block up to the access check: nothing but a clean-up has
    been started by then, and no request sent. *)
Lemma reaches_access_check E w r w' token repo :
  E_token E = Some token -> has_ink token = true ->
  E_repository E = Some repo ->
  (forall h, E_run E h (rm_wiki E) <> NotStarted) ->
  try_block E w = (r, w') ->
  exists w0 l,
    w_spawned w0 = (w_spawned w ++ l)%list /\ cleanup_trace E l /\
    w_credentials w0 = w_credentials w /\
    (repo_data <- check_repo_access E (api_url repo) ;;
     after_access E token repo repo_data)%M w0 = (r, w').
Proof.
  intros Htoken Hink Hrepo Hrm H. unfold try_block in H.
  apply bind_inv in H as [(tk & w1 & H1 & H) | (e & H1 & _)];
    rewrite (verify_token_ok E token w Htoken Hink) in H1; [|discriminate].
  inversion H1; subst tk w1. clear H1.
  apply bind_inv in H as [(present & w2 & H2 & H) | (e & H2 & _)];
    apply wiki_dir_exists_spec in H2 as (-> & R2); [|discriminate].
  pose proof H as H3.
  apply bind_inv in H3 as [(? & w3 & H3 & _) | (e & H3 & _)];
    apply (first_cleanup E present w _ _ Hrm) in H3 as (R3 & l & Hl & Hcl & Hwl);
    [|discriminate].
  apply bind_inv in H as [(? & w3' & H3 & H) | (e & H3 & _)].
  2:{ apply (first_cleanup E present w _ _ Hrm) in H3 as (? & _). discriminate. }
  pose proof H3 as Hc.
  apply (first_cleanup E present w _ _ Hrm) in H3 as (_ & l' & Hl' & Hcl' & _).
  assert (Hcr : w_credentials w3' = w_credentials w).
  { destruct present; cbn [when] in Hc.
    - now apply safe_cleanup_spec in Hc as (Hc & _).
    - now apply ret_inv in Hc as (_ & ->). }
  apply bind_inv in H as [(rp & w4 & H4 & H) | (e & H4 & _)];
    [|unfold environ_repository in H4; rewrite Hrepo in H4; discriminate].
  pose proof H4 as Hrp. apply environ_repository_spec in H4 as ->.
  unfold environ_repository in Hrp. rewrite Hrepo in Hrp. inversion Hrp; subst rp.
  apply bind_inv in H as [(? & w5 & H5 & H) | (e & H5 & _)];
    apply print_quiet in H5 as (R5 & (Q5s & Q5c & Q5w)); [|discriminate].
  exists w5, l'. repeat split; try congruence. exact H.
Qed.

Lemma handlers_world e w w0 : handlers e w = (fst (handlers e w0), w).
Proof.
  unfold handlers. destruct e as [k| | | | |rc cmd|st|m| | | ]; try reflexivity.
  destruct (contains "Authentication failed" (str_CalledProcessError rc cmd)); reflexivity.
Qed.

(** A run whose [try] block can only raise [e], having started nothing
    but a clean-up: the run raises what the [except] clauses make of
    [e], and has started nothing but clean-ups. *)
Lemma run_of_stopped_block E w r w' e :
  E_data_dir_exists E = true ->
  (forall h, E_run E h (rm_wiki E) <> NotStarted) ->
  (forall w1 r1 w1', try_block E w1 = (r1, w1') ->
     r1 = Raise e /\
     exists l, w_spawned w1' = (w_spawned w1 ++ l)%list /\ only_cleanups E l) ->
  generate_wiki_pages E w = (r, w') ->
  r = fst (handlers e w) /\
  exists l, w_spawned w' = (w_spawned w ++ l)%list /\ only_cleanups E l.
Proof.
  intros Hdata Hrm Hblock H. unfold generate_wiki_pages in H.
  apply bind_inv in H as [(? & w1 & H1 & H) | (e0 & H1 & _)];
    apply print_quiet in H1 as (R1 & (Qs & Qc & Qw)); [|discriminate].
  rewrite Hdata in H. cbn [negb] in H.
  apply try_finally_inv in H as (r1 & w2 & r2 & Htry & Hfin & ->).
  apply finalizer_spec in Hfin as (post & Hpost & Hs' & Hres & _).
  destruct Hres as [(-> & _) | (_ & _ & (h & Hh))]; [|now apply Hrm in Hh].
  apply try_except_inv in Htry as [(a & Htry & _) | (e0 & w3 & Htry & Hh)];
    apply Hblock in Htry as (Hr & l & Hl & Honly); [discriminate|].
  inversion Hr; subst e0. clear Hr.
  rewrite (handlers_world e w3 w) in Hh. inversion Hh; subst r1 w3. clear Hh.
  split; [reflexivity|].
  exists (l ++ post)%list. split.
  - rewrite Hs', Hl, Qs. now rewrite <- app_assoc.
  - apply only_cleanups_app; [assumption | now apply cleanup_only].
Qed.

Lemma reported_has_wiki repo_data a :
  reported repo_data = Some a ->
  exists v, get repo_data "has_wiki" = Ok v /\ truthy v = wikiEnabled a.
Proof.
  unfold reported, get. destruct repo_data as [| | | | |kv]; try discriminate.
  destruct (match assoc "permissions" kv with Some p => p | None => JDict [] end);
    try discriminate.
  intros H. inversion H; subst a. clear H. cbn [wikiEnabled].
  destruct (assoc "has_wiki" kv) as [v|]; eauto.
Qed.

(** X9.  When the API reports a disabled wiki to a token that may
    administer the repository, the run asks the API to enable the wiki
    and goes on only if the answer has status 200.  On any other status
    it raises "Error habilitando wiki: <status>", and when no answer
    comes, "Error en API de GitHub"; no git command has been started by
    then. *)
Theorem enable_wiki_failure E w r w' token repo status repo_data a :
  E_data_dir_exists E = true ->
  E_token E = Some token -> has_ink token = true ->
  E_repository E = Some repo ->
  (forall h, E_run E h (rm_wiki E) <> NotStarted) ->
  E_get E = Response status (Some repo_data) ->
  (400 <=? status)%Z && (status <? 600)%Z = false ->
  reported repo_data = Some a ->
  canWrite a = true -> canRead a = true ->
  wikiEnabled a = false -> canAdmin a = true ->
  (forall body, E_patch E <> Response 200 body) ->
  generate_wiki_pages E w = (r, w') ->
  r = Raise (WikiGenerationError (enable_failure (E_patch E))) /\
  exists l, w_spawned w' = (w_spawned w ++ l)%list /\ only_cleanups E l.
Proof.
  intros Hdata Htoken Hink Hrepo Hrm Hget Hstatus Hrep Hwr Hrd Hwiki Hadm Hpatch H.
  assert (Hblock : forall w1 r1 w1', try_block E w1 = (r1, w1') ->
            r1 = Raise (match E_patch E with
                        | Response st _ => WikiGenerationError (EnableWikiFailed st)
                        | ConnectionFailed => RequestException None
                        end) /\
            exists l, w_spawned w1' = (w_spawned w1 ++ l)%list /\ only_cleanups E l).
  { intros w1 r1 w1' Hb.
    apply (reaches_access_check E w1 r1 w1' token repo Htoken Hink Hrepo Hrm) in Hb
      as (w0 & l & Hl & Hcl & _ & Hb).
    pose proof (check_repo_access_reported E (api_url repo) w0 status repo_data a
                  Hget Hstatus Hrep) as Hres.
    rewrite Hwr, Hrd, Hwiki, Hadm in Hres. cbn [negb andb] in Hres.
    apply bind_inv in Hb as [(rd & w2 & H2 & Hb) | (e & H2 & _)];
      rewrite H2 in Hres; cbn [fst] in Hres; [|discriminate].
    inversion Hres; subst rd. clear Hres.
    apply check_repo_access_quiet in H2 as (Q2s & _ & _).
    destruct (reported_has_wiki repo_data a Hrep) as (v & Hv & Tv).
    unfold after_access in Hb. cbn zeta in Hb.
    apply bind_inv in Hb as [(hw & w3 & H3 & Hb) | (e & H3 & _)];
      apply lift_inv in H3 as (R3 & ->); rewrite Hv in R3; [|discriminate].
    inversion R3; subst hw. clear R3.
    rewrite Tv, Hwiki in Hb. cbn [negb when] in Hb.
    assert (Hstop : forall r0 w4,
              (print "Habilitando wiki..." ;;
               st <- requests_patch E ("https://api.github.com/repos/" ++ repo) ;;
               when (negb (st =? 200)%Z)
                    (raise (WikiGenerationError (EnableWikiFailed st))))%M w2 = (r0, w4) ->
              r0 = Raise (match E_patch E with
                          | Response st _ => WikiGenerationError (EnableWikiFailed st)
                          | ConnectionFailed => RequestException None
                          end) /\ w_spawned w4 = w_spawned w2).
    { intros r0 w4 He. unfold bind, print, requests_patch in He.
      destruct (E_patch E) as [|st body] eqn:Ep.
      - inversion He; subst. split; reflexivity.
      - destruct (st =? 200)%Z eqn:Est.
        + apply Z.eqb_eq in Est. subst st. now contradiction (Hpatch body).
        + cbn [negb when] in He. inversion He; subst. split; reflexivity. }
    apply bind_inv in Hb as [(? & w3 & H3 & _) | (e & H3 & ->)];
      apply Hstop in H3 as (R3 & S3); [discriminate|].
    inversion R3; subst e. split; [reflexivity|].
    exists l. split; [congruence | now apply cleanup_only]. }
  apply (run_of_stopped_block E w r w' _ Hdata Hrm Hblock) in H as (-> & Hl).
  split; [|exact Hl].
  unfold enable_failure. destruct (E_patch E); reflexivity.
Qed.

Lemma enable_wiki_failure_witness :
  fst (generate_wiki_pages (disabled_wiki_env (Response 500 None)) fresh_world)
  = Raise (WikiGenerationError (EnableWikiFailed 500)) /\
  exists l,
    w_spawned (snd (generate_wiki_pages (disabled_wiki_env (Response 500 None)) fresh_world))
    = (w_spawned fresh_world ++ l)%list /\
    only_cleanups (disabled_wiki_env (Response 500 None)) l.
Proof.
  apply (enable_wiki_failure (disabled_wiki_env (Response 500 None)) fresh_world _ _
           "t0k3n" "owner/project" 200%Z (sample_repo_data true true true false)
           (Access true true true false)); try reflexivity.
  - intros h. discriminate.
  - intros body. discriminate.
Defined.

(** X10.  When the API cannot be reached, [check_repo_access] fails on
    its own [except] clause, which reads the status of an answer that
    never came: the run does not report an error of the API but
    "Error inesperado", made from the [UnboundLocalError].  No git
    command has been started. *)
Theorem offline_run_is_unexpected E w r w' token repo :
  E_data_dir_exists E = true ->
  E_token E = Some token -> has_ink token = true ->
  E_repository E = Some repo ->
  (forall h, E_run E h (rm_wiki E) <> NotStarted) ->
  E_get E = ConnectionFailed ->
  generate_wiki_pages E w = (r, w') ->
  r = Raise (WikiGenerationError (Unexpected UnboundLocalError)) /\
  exists l, w_spawned w' = (w_spawned w ++ l)%list /\ only_cleanups E l.
Proof.
  intros Hdata Htoken Hink Hrepo Hrm Hget H.
  apply (run_of_stopped_block E w r w' UnboundLocalError Hdata Hrm); [|exact H].
  intros w1 r1 w1' Hb.
  apply (reaches_access_check E w1 r1 w1' token repo Htoken Hink Hrepo Hrm) in Hb
    as (w0 & l & Hl & Hcl & _ & Hb).
  unfold bind at 1, check_repo_access, try_except, bind at 1, requests_get in Hb.
  rewrite Hget in Hb. unfold raise in Hb. inversion Hb; subst r1 w1'.
  split; [reflexivity|]. exists l. split; [exact Hl | now apply cleanup_only].
Qed.

Lemma offline_run_is_unexpected_witness :
  fst (generate_wiki_pages offline_env fresh_world)
  = Raise (WikiGenerationError (Unexpected UnboundLocalError)) /\
  exists l,
    w_spawned (snd (generate_wiki_pages offline_env fresh_world))
    = (w_spawned fresh_world ++ l)%list /\
    only_cleanups offline_env l.
Proof.
  apply (offline_run_is_unexpected offline_env fresh_world _ _ "t0k3n" "owner/project");
    try reflexivity.
  intros h. discriminate.
Defined.

(** ** The outcome of a run *)



Ltac passed_failed :=
  match goal with
  | H : passed (Exited ?c) = false, H' : returncode ?c = 0%Z |- _ =>
      simpl in H; rewrite H' in H; discriminate H
  end.

Lemma success_shape E l : run_trace E l (Ok tt) -> ran_ok cmd_add l /\ published l.
Proof.
  intros Htr. invert_trace.
  all: split; [show_ran_ok|].
  all: first
    [ left; split; [show_clone|]; split; show_ran_ok
    | right; split; [show_clone|];
      first
        [ left;
          match goal with
          | H : default_branch_name ?b |- _ => exists b; split; show_ran_ok
          end
        | right;
          match goal with
          | H : clean ?st = true |- _ =>
              exists st; split; [in_history|]; split; [assumption|]; split; [assumption|];
              repeat constructor
          end ] ].
Qed.

(** X12.  A run that ends well has staged the pages and has either
    published them or found nothing to publish: after a failed clone it
    has committed and pushed with [--force]; after a clone that passed
    it has committed and pushed to the default branch, or [git status]
    has shown a clean tree and it has committed and pushed nothing. *)
Theorem success_means_published E w w' :
  generate_wiki_pages E w = (Ok tt, w') ->
  exists l,
    w_spawned w' = (w_spawned w ++ l)%list /\ ran_ok cmd_add l /\ published l.
Proof.
  intros H. apply run_spec in H as ((l & Hl & Htr) & _).
  exists l. split; [assumption|]. now apply success_shape in Htr.
Qed.

Lemma success_means_published_witness :
  exists l,
    w_spawned (snd (generate_wiki_pages first_run_env fresh_world))
    = (w_spawned fresh_world ++ l)%list /\ ran_ok cmd_add l /\ published l.
Proof.
  apply (success_means_published first_run_env fresh_world).
  vm_compute. reflexivity.
Defined.

Lemma failure_is_final E l r :
  run_trace E l r ->
  forall pre cmd o post,
    l = (pre ++ (cmd, o) :: post)%list ->
    hd "" cmd = "git" -> is_clone cmd = false -> is_probe cmd = false ->
    passed o = false ->
    (exists e, r = Raise e) /\ cleanup_trace E post.
Proof.
  intros Htr. invert_trace; intros pre0 cmd0 out0 post0 Hl Hgit Hclone Hprobe Hfailed;
    simpl in Hl; positions Hl;
    try discriminate Hgit; try discriminate Hclone; try discriminate Hprobe;
    try passed_failed.
  all: split; [eauto|]; simpl;
    first [ left; reflexivity | right; eexists; reflexivity ].
Qed.

(** X13.  Apart from the clone and from the question for the default
    branch, whose failures are looked at, every git command of a run is
    fatal: when one does not exit with status 0 (or cannot be started)
    the run ends with an exception and starts nothing after it but the
    final clean-up. *)
Theorem fail_fast E w r w' :
  generate_wiki_pages E w = (r, w') ->
  exists l,
    w_spawned w' = (w_spawned w ++ l)%list /\
    forall pre cmd o post,
      l = (pre ++ (cmd, o) :: post)%list ->
      hd "" cmd = "git" -> is_clone cmd = false -> is_probe cmd = false ->
      passed o = false ->
      (exists e, r = Raise e) /\ cleanup_trace E post.
Proof.
  intros H. apply run_spec in H as ((l & Hl & Htr) & _).
  exists l. split; [assumption|]. apply (failure_is_final E l r Htr).
Qed.

Lemma fail_fast_witness :
  exists l,
    w_spawned (snd (generate_wiki_pages push_rejected_env fresh_world))
    = (w_spawned fresh_world ++ l)%list /\
    forall pre cmd o post,
      l = (pre ++ (cmd, o) :: post)%list ->
      hd "" cmd = "git" -> is_clone cmd = false -> is_probe cmd = false ->
      passed o = false ->
      (exists e, fst (generate_wiki_pages push_rejected_env fresh_world) = Raise e) /\
      cleanup_trace push_rejected_env post.
Proof.
  apply (fail_fast push_rejected_env fresh_world).
  vm_compute. reflexivity.
Defined.

(** ** Pages of the data written by [fetch_github_data] *)

Section FetchedData.
Context {datetime : Type} (isoformat : datetime -> string).

Lemma strings_of_names (labels : list github_label) :
  strings_of (map (fun label => JStr (gl_name label)) labels) = Some (map gl_name labels).
Proof.
  induction labels as [|l labels IH]; [reflexivity|].
  simpl. now rewrite IH.
Qed.

Lemma fetched_labels_line (issue : github_issue datetime) :
  issue_labels (issue_record isoformat issue)
  = (match gi_labels issue with
     | [] => ""
     | _ => "**Labels:** " ++ join ", " (map gl_name (gi_labels issue)) ++ nl ++ nl
     end, Ok tt).
Proof.
  unfold issue_labels, issue_record. cbn [get subscript assoc String.eqb Ascii.eqb Bool.eqb andb].
  rewrite ?w_bind_eval_ok.
  destruct (gi_labels issue) as [|l labels] eqn:Hl; [reflexivity|].
  unfold format_labels. cbn [map truthy negb forallb is_dict andb].
  unfold join_value. cbn [iterate].
  change (JStr (gl_name l) :: map (fun label => JStr (gl_name label)) labels)
    with (map (fun label => JStr (gl_name label)) (l :: labels)).
  rewrite strings_of_names. rewrite ?w_bind_eval_ok. reflexivity.
Qed.

Lemma fetched_milestone_line (issue : github_issue datetime) :
  issue_milestone (issue_record isoformat issue)
  = (match gi_milestone issue with
     | Some m => if str_truthy (gm_title m)
                 then "**Milestone:** " ++ gm_title m ++ nl ++ nl
                 else ""
     | None => ""
     end, Ok tt).
Proof.
  unfold issue_milestone, issue_record.
  cbn [get subscript assoc String.eqb Ascii.eqb Bool.eqb andb].
  rewrite ?w_bind_eval_ok.
  destruct (gi_milestone issue) as [m|]; [|reflexivity].
  cbn [truthy]. destruct (str_truthy (gm_title m)); [|reflexivity].
  rewrite ?w_bind_eval_ok. cbn [is_dict]. rewrite ?w_bind_eval_ok. reflexivity.
Qed.

Lemma fetched_body_lines (issue : github_issue datetime) :
  issue_body (issue_record isoformat issue)
  = ((if str_truthy (or_empty (gi_body issue))
      then or_empty (gi_body issue) else "Sin descripción")
     ++ nl ++ nl ++ "---" ++ nl ++ nl, Ok tt).
Proof.
  unfold issue_body, issue_record.
  cbn [get subscript assoc String.eqb Ascii.eqb Bool.eqb andb].
  rewrite ?w_bind_eval_ok. unfold py_or. cbn [truthy].
  destruct (str_truthy (or_empty (gi_body issue))); reflexivity.
Qed.

Lemma w_bind_pair {A B} s (a : A) (k : A -> W B) :
  w_bind (s, Ok a) k = (s ++ fst (k a), snd (k a)).
Proof. unfold w_bind. destruct (k a). reflexivity. Qed.

Lemma fetched_tail (issue : github_issue datetime) :
  w_bind (issue_milestone (issue_record isoformat issue))
    (fun _ => w_bind (issue_labels (issue_record isoformat issue))
                (fun _ => issue_body (issue_record isoformat issue)))
  = (fetched_issue_tail issue, Ok tt).
Proof.
  rewrite fetched_milestone_line, fetched_labels_line, fetched_body_lines.
  rewrite !w_bind_pair. reflexivity.
Qed.

(** X14.  The entries of an issue written by [fetch_github_data] never
    raise, and read as follows.  Both open with the heading and the
    date of creation; the milestone line is written when the issue has
    a milestone with a title that is not empty, the labels line when it
    has a label, and a missing or empty body reads "Sin descripción".
    On the page of closed issues the line "Cerrado" shows the date of
    closing, and the text [None] when there is none: the placeholder
    "Desconocido" is not used, since the key is always written. *)
Theorem fetched_issue_entries (issue : github_issue datetime) :
  active_entry (issue_record isoformat issue)
  = (("## #" ++ str_int (gi_number issue) ++ ": " ++ gi_title issue ++ nl)
     ++ ("**Creado:** " ++ isoformat (gi_created_at issue) ++ nl ++ nl)
     ++ fetched_issue_tail issue, Ok tt) /\
  closed_entry (issue_record isoformat issue)
  = (("## #" ++ str_int (gi_number issue) ++ ": " ++ gi_title issue ++ nl)
     ++ ("**Creado:** " ++ isoformat (gi_created_at issue) ++ nl)
     ++ ("**Cerrado:** "
         ++ match gi_closed_at issue with
            | Some d => isoformat d
            | None => "None"
            end ++ nl ++ nl)
     ++ fetched_issue_tail issue, Ok tt).
Proof.
  split.
  - unfold active_entry. rewrite fetched_tail.
    unfold issue_record. cbn [subscript assoc String.eqb Ascii.eqb Bool.eqb andb].
    rewrite ?w_bind_eval_ok. unfold write. rewrite !w_bind_pair. reflexivity.
  - unfold closed_entry. rewrite fetched_tail.
    unfold issue_record. cbn [subscript get_default assoc String.eqb Ascii.eqb Bool.eqb andb].
    rewrite ?w_bind_eval_ok. unfold write. rewrite !w_bind_pair.
    destruct (gi_closed_at issue); reflexivity.
Qed.

End FetchedData.

(** ** When the pages are generated *)

Lemma w_for_all_ok {A} (body : A -> W unit) l :
  Forall (fun x => snd (body x) = Ok tt) l ->
  w_for l body = (concat_text (map (fun x => fst (body x)) l), Ok tt).
Proof.
  induction 1 as [|x l Hx _ IH]; [reflexivity|].
  simpl. rewrite IH. unfold w_bind.
  destruct (body x) as [s r]. simpl in Hx. subst r. reflexivity.
Qed.

(** Content generation, forwards: with data that renders, a wiki
    directory and files that can be opened, it returns [True]. *)
Lemma generates E w t issues milestones active closed :
  E_file E (issues_file E) = Holds issues ->
  E_file E (milestones_file E) = Holds milestones ->
  truthy issues || truthy milestones = true ->
  w_wiki w = Some t ->
  Forall (fun name => E_can_open E name = true) page_names ->
  snd (milestones_block milestones) = Ok tt ->
  issues_with_state "open" issues = Ok active ->
  snd (active_block active) = Ok tt ->
  issues_with_state "closed" issues = Ok closed ->
  snd (closed_block closed) = Ok tt ->
  exists w',
    generate_wiki_content E w = (Ok true, w') /\
    w_wiki w' = Some (pages milestones active closed t).
Proof.
  intros Hi Hm Hdata Hw Hopen Bm Ha Ba Hc Bc.
  inversion Hopen as [|? ? Ohome Hopen1]; subst.
  inversion Hopen1 as [|? ? Omil Hopen2]; subst.
  inversion Hopen2 as [|? ? Oact Hopen3]; subst.
  inversion Hopen3 as [|? ? Oclo _]; subst.
  destruct (generate_wiki_content E w) as [r w'] eqn:Hg.
  unfold generate_wiki_content in Hg.
  apply bind_inv in Hg as [(i & w1 & H1 & Hg) | (e & H1 & _)];
    apply verify_json_content_spec in H1 as (Q1 & R1); rewrite Hi in R1;
    [|discriminate].
  inversion R1; subst i. clear R1.
  apply bind_inv in Hg as [(m & w2 & H2 & Hg) | (e & H2 & _)];
    apply verify_json_content_spec in H2 as (Q2 & R2); rewrite Hm in R2;
    [|discriminate].
  inversion R2; subst m. clear R2.
  replace (negb (truthy issues) && negb (truthy milestones)) with false in Hg
    by (destruct (truthy issues), (truthy milestones); try reflexivity; discriminate).
  destruct (quiet_trans _ _ _ Q1 Q2) as (_ & _ & Qw). rewrite <- Qw in Hw.
  unfold try_except, write_pages, bind, with_open, lift in Hg.
  cbn [w_wiki set_wiki] in Hg.
  rewrite Hw, Ohome, Omil, Oact, Oclo, Ha, Hc in Hg. cbn [w_wiki set_wiki] in Hg.
  rewrite Bm, Ba, Bc in Hg. cbn [snd home_block write ret] in Hg.
  inversion Hg; subst r w'.
  eexists. split; reflexivity.
Qed.

Section FetchedPages.
Context {datetime : Type} (isoformat : datetime -> string).

Lemma select_fetched st (issues : list (github_issue datetime)) :
  select_state st (map (issue_record isoformat) issues)
  = Ok (fetched_with_state isoformat st issues).
Proof.
  unfold fetched_with_state. induction issues as [|i issues IH]; [reflexivity|].
  cbn [map select_state]. rewrite IH.
  unfold issue_record at 1. cbn [subscript assoc String.eqb Ascii.eqb Bool.eqb andb eq_str].
  cbn [filter]. destruct (String.eqb (gi_state i) st); reflexivity.
Qed.

(** X15.  The entry of a milestone written by [fetch_github_data]
    never raises: it is the title, the state, the description — "Sin
    descripción" when the milestone has none or an empty one — and the
    due date when there is one. *)
Theorem fetched_milestone_entry (milestone : github_milestone datetime) :
  milestone_entry (milestone_record isoformat milestone)
  = (("## " ++ gm_title milestone ++ nl)
     ++ ("**Estado:** " ++ gm_state milestone ++ nl ++ nl)
     ++ ("**Descripción:** "
         ++ (if str_truthy (or_empty (gm_description milestone))
             then or_empty (gm_description milestone) else "Sin descripción")
         ++ nl ++ nl)
     ++ match gm_due_on milestone with
        | Some d => if str_truthy (isoformat d)
                    then "**Fecha límite:** " ++ isoformat d ++ nl ++ nl
                    else ""
        | None => ""
        end
     ++ ("---" ++ nl ++ nl), Ok tt).
Proof.
  unfold milestone_entry, milestone_record.
  cbn [subscript get assoc String.eqb Ascii.eqb Bool.eqb andb].
  rewrite ?w_bind_eval_ok. unfold write, py_or. cbn [truthy].
  destruct (str_truthy (or_empty (gm_description milestone)));
    destruct (gm_due_on milestone) as [d|]; cbn [isoformat_or_none truthy];
    try destruct (str_truthy (isoformat d));
    rewrite ?w_bind_eval_ok; unfold w_ret; rewrite ?w_bind_pair; reflexivity.
Qed.

Lemma fetched_blocks (issues : list (github_issue datetime))
  (milestones : list (github_milestone datetime)) st :
  snd (milestones_block (JList (map (milestone_record isoformat) milestones))) = Ok tt /\
  snd (active_block (fetched_with_state isoformat st issues)) = Ok tt /\
  snd (closed_block (fetched_with_state isoformat st issues)) = Ok tt.
Proof.
  assert (Hms : Forall (fun m => snd (milestone_entry m) = Ok tt)
                  (map (milestone_record isoformat) milestones)).
  { apply Forall_map, Forall_forall. intros m _.
    unfold milestone_entry, milestone_record.
    cbn [subscript get assoc String.eqb Ascii.eqb Bool.eqb andb].
    rewrite ?w_bind_eval_ok. unfold write, py_or. cbn [truthy].
    destruct (str_truthy (or_empty (gm_description m)));
      destruct (gm_due_on m) as [d|]; cbn [isoformat_or_none truthy];
      try destruct (str_truthy (isoformat d));
      rewrite ?w_bind_eval_ok; unfold w_ret; rewrite ?w_bind_pair; reflexivity. }
  assert (Ha : Forall (fun i => snd (active_entry i) = Ok tt)
                 (fetched_with_state isoformat st issues)).
  { apply Forall_map, Forall_forall. intros i _.
    unfold active_entry. rewrite fetched_tail.
    unfold issue_record. cbn [subscript assoc String.eqb Ascii.eqb Bool.eqb andb].
    rewrite ?w_bind_eval_ok. unfold write. rewrite ?w_bind_pair. reflexivity. }
  assert (Hc : Forall (fun i => snd (closed_entry i) = Ok tt)
                 (fetched_with_state isoformat st issues)).
  { apply Forall_map, Forall_forall. intros i _.
    unfold closed_entry. rewrite fetched_tail.
    unfold issue_record.
    cbn [subscript get_default assoc String.eqb Ascii.eqb Bool.eqb andb].
    rewrite ?w_bind_eval_ok. unfold write. rewrite ?w_bind_pair. reflexivity. }
  unfold milestones_block, active_block, closed_block, write, eval.
  cbn [iterate]. rewrite ?w_bind_pair.
  rewrite (w_for_all_ok _ _ Hms), (w_for_all_ok _ _ Ha), (w_for_all_ok _ _ Hc).
  repeat split.
Qed.

(** X16.  The two scripts compose: whatever the repository holds, the
    data written by [fetch_github_data] is data [generate_wiki_content]
    renders without raising.  Unless the repository has neither issue
    nor milestone, and given a wiki directory whose files can be
    opened, generation returns [True]; the page of active issues lists
    the issues whose state is "open" and the page of closed issues
    those whose state is "closed", in the order of the repository. *)
Theorem fetched_data_generates E w t (issues : list (github_issue datetime))
  (milestones : list (github_milestone datetime)) :
  E_file E (issues_file E)
  = Holds (fst (fetch_github_data isoformat issues milestones)) ->
  E_file E (milestones_file E)
  = Holds (snd (fetch_github_data isoformat issues milestones)) ->
  issues <> [] \/ milestones <> [] ->
  w_wiki w = Some t ->
  (forall name, E_can_open E name = true) ->
  exists w',
    generate_wiki_content E w = (Ok true, w') /\
    w_wiki w'
    = Some (pages (snd (fetch_github_data isoformat issues milestones))
              (fetched_with_state isoformat "open" issues)
              (fetched_with_state isoformat "closed" issues) t).
Proof.
  intros Hi Hm Hdata Hw Hopen. cbn [fetch_github_data fst snd] in *.
  destruct (fetched_blocks issues milestones "open") as (Bm & Ba & _).
  destruct (fetched_blocks issues milestones "closed") as (_ & _ & Bc).
  apply (generates E w t _ _ _ _ Hi Hm); try assumption.
  - destruct Hdata as [Hne | Hne].
    + destruct issues; [contradiction | reflexivity].
    + destruct milestones; [contradiction | apply orb_true_r].
  - repeat constructor; apply Hopen.
  - unfold issues_with_state. cbn [iterate]. apply select_fetched.
  - unfold issues_with_state. cbn [iterate]. apply select_fetched.
Qed.

End FetchedPages.

Lemma fetched_data_generates_witness :
  exists w',
    generate_wiki_content fetched_env empty_checkout = (Ok true, w') /\
    w_wiki w'
    = Some (pages (snd (fetch_github_data (fun d => d) sample_github_issues
                          [sample_github_milestone]))
              (fetched_with_state (fun d => d) "open" sample_github_issues)
              (fetched_with_state (fun d => d) "closed" sample_github_issues) []).
Proof.
  apply (fetched_data_generates (fun d => d) fetched_env empty_checkout []
           sample_github_issues [sample_github_milestone]); try reflexivity.
  left. discriminate.
Defined.

(** ** What content generation writes *)

Lemma milestones_block_ok milestones :
  snd (milestones_block milestones) = Ok tt ->
  exists items,
    iterate milestones = Ok items /\
    fst (milestones_block milestones)
    = milestones_header ++ concat_text (map (fun m => fst (milestone_entry m)) items) /\
    Forall (fun m => snd (milestone_entry m) = Ok tt) items.
Proof.
  unfold milestones_block, write, eval. rewrite w_bind_pair. cbn [fst snd].
  destruct (iterate milestones) as [items|e]; [|discriminate].
  rewrite w_bind_pair. cbn [fst snd]. intros H.
  destruct (w_for items milestone_entry) as [s r] eqn:Hfor. cbn [fst snd] in *. subst r.
  apply w_for_ok in Hfor as (-> & Hall). eauto.
Qed.

Lemma pages_keep_other_files name milestones active closed t :
  ~ In name page_names ->
  tree_get name (pages milestones active closed t) = tree_get name t.
Proof.
  intros Hname. unfold pages.
  rewrite !tree_get_put_other; [reflexivity| | | |];
    apply String.eqb_neq; intros <-; apply Hname; simpl; auto.
Qed.

(** X17.  When [generate_wiki_content] returns [True] it has written
    its four pages into the wiki directory and touched no other file
    there: a page of the wiki that the script does not write is neither
    changed nor removed.  [Home.md] is the fixed text, and
    [Milestones.md] the header followed by the entries of the
    milestones in the order of the data, each rendered in full. *)
Theorem generated_pages E w w' :
  generate_wiki_content E w = (Ok true, w') ->
  exists t t' milestones items,
    w_wiki w = Some t /\ w_wiki w' = Some t' /\
    E_file E (milestones_file E) = Holds milestones /\
    iterate milestones = Ok items /\
    Forall (fun m => snd (milestone_entry m) = Ok tt) items /\
    tree_get "Home.md" t' = Some home_text /\
    tree_get "Milestones.md" t'
    = Some (milestones_header
            ++ concat_text (map (fun m => fst (milestone_entry m)) items)) /\
    (forall name, ~ In name page_names -> tree_get name t' = tree_get name t).
Proof.
  intros Hgen.
  apply generate_wiki_content_spec in Hgen as (_ & _ & _ & [(_ & (m & Hm & _) & _) | Hh]);
    [discriminate|].
  destruct Hh as (issues & milestones & _ & Hfile & Hh).
  destruct (negb (truthy issues) && negb (truthy milestones));
    [destruct Hh; discriminate|].
  destruct (Hh eq_refl) as (t & active & closed & Hw & _ & _ & Bm & _ & _ & Hw').
  apply milestones_block_ok in Bm as (items & Hitems & Htext & Hall).
  exists t, (pages milestones active closed t), milestones, items.
  repeat (split; [assumption|]). split; [|split].
  - unfold pages. rewrite !tree_get_put_other by reflexivity.
    apply tree_get_put_same.
  - unfold pages. rewrite !tree_get_put_other by reflexivity.
    rewrite tree_get_put_same. now rewrite Htext.
  - intros name Hname. now apply pages_keep_other_files.
Qed.

Lemma generated_pages_witness :
  exists t t' milestones items,
    w_wiki (set_wiki (Some [("Old-Page.md", "kept")]) fresh_world) = Some t /\
    w_wiki (snd (generate_wiki_content update_env
                   (set_wiki (Some [("Old-Page.md", "kept")]) fresh_world))) = Some t' /\
    E_file update_env (milestones_file update_env) = Holds milestones /\
    iterate milestones = Ok items /\
    Forall (fun m => snd (milestone_entry m) = Ok tt) items /\
    tree_get "Home.md" t' = Some home_text /\
    tree_get "Milestones.md" t'
    = Some (milestones_header
            ++ concat_text (map (fun m => fst (milestone_entry m)) items)) /\
    (forall name, ~ In name page_names -> tree_get name t' = tree_get name t).
Proof.
  apply (generated_pages update_env
           (set_wiki (Some [("Old-Page.md", "kept")]) fresh_world)).
  vm_compute. reflexivity.
Defined.

(** ** What content generation raises *)

Lemma raises_ret {A} (a : A) : raises_data_errors (w_ret a).
Proof. intros e H. discriminate. Qed.

Lemma raises_write s : raises_data_errors (write s).
Proof. intros e H. discriminate. Qed.

Lemma raises_bind {A B} (m : W A) (k : A -> W B) :
  raises_data_errors m -> (forall a, raises_data_errors (k a)) ->
  raises_data_errors (w_bind m k).
Proof.
  intros Hm Hk e. unfold w_bind. destruct m as [s [a|e']].
  - specialize (Hk a). destruct (k a) as [s' r]. exact (Hk e).
  - cbn [snd]. intros H. inversion H; subst e'. now apply (Hm e).
Qed.

Lemma raises_for {A} (body : A -> W unit) l :
  (forall x, raises_data_errors (body x)) -> raises_data_errors (w_for l body).
Proof.
  intros Hb. induction l as [|x l IH]; [apply raises_ret|].
  simpl. apply raises_bind; [apply Hb | intros _; exact IH].
Qed.

Lemma raises_subscript v k : raises_data_errors (eval (subscript v k)).
Proof.
  intros e. unfold eval, subscript. cbn [snd].
  destruct v as [| | | | |kv]; try (intros H; inversion H; reflexivity).
  destruct (assoc k kv); intros H; inversion H; reflexivity.
Qed.

Lemma raises_get v k : raises_data_errors (eval (get v k)).
Proof.
  intros e. unfold eval, get. cbn [snd].
  destruct v as [| | | | |kv]; try (intros H; inversion H; reflexivity).
  destruct (assoc k kv); discriminate.
Qed.

Lemma raises_get_default v k d : raises_data_errors (eval (get_default v k d)).
Proof.
  intros e. unfold eval, get_default. cbn [snd].
  destruct v as [| | | | |kv]; try (intros H; inversion H; reflexivity).
  destruct (assoc k kv); discriminate.
Qed.

Lemma raises_iterate v : raises_data_errors (eval (iterate v)).
Proof.
  intros e. unfold eval, iterate. cbn [snd].
  destruct v; try discriminate; intros H; inversion H; reflexivity.
Qed.

Lemma raises_join sep v : raises_data_errors (eval (join_value sep v)).
Proof.
  intros e. unfold eval, join_value. cbn [snd].
  pose proof (raises_iterate v e) as Hi. unfold eval in Hi. cbn [snd] in Hi.
  destruct (iterate v) as [l|e']; [|intros H; inversion H; subst e'; now apply Hi].
  destruct (strings_of l); [discriminate|]. intros H. inversion H. reflexivity.
Qed.

Create HintDb blocks.

#[local] Hint Resolve raises_ret raises_write raises_subscript raises_get
  raises_get_default raises_iterate raises_join : blocks.

Ltac block_steps :=
  repeat first
    [ solve [auto with blocks]
    | apply raises_bind; [|intros ?]
    | apply raises_for; intros ?
    | match goal with
      | |- raises_data_errors (if ?b then _ else _) => destruct b
      end ].

Lemma raises_milestone_entry ms : raises_data_errors (milestone_entry ms).
Proof. unfold milestone_entry. block_steps. Qed.

Lemma raises_issue_milestone i : raises_data_errors (issue_milestone i).
Proof. unfold issue_milestone. block_steps. Qed.

Lemma raises_issue_labels i : raises_data_errors (issue_labels i).
Proof. unfold issue_labels. block_steps. Qed.

Lemma raises_issue_body i : raises_data_errors (issue_body i).
Proof. unfold issue_body. block_steps. Qed.

#[local] Hint Resolve raises_milestone_entry raises_issue_milestone raises_issue_labels
  raises_issue_body : blocks.

Lemma raises_milestones_block ms : raises_data_errors (milestones_block ms).
Proof. unfold milestones_block. block_steps. Qed.

Lemma raises_active_block l : raises_data_errors (active_block l).
Proof. unfold active_block, active_entry. block_steps. Qed.

Lemma raises_closed_block l : raises_data_errors (closed_block l).
Proof. unfold closed_block, closed_entry. block_steps. Qed.

Lemma raises_select_state st items e :
  select_state st items = Raise e -> data_error e = true.
Proof.
  induction items as [|i items IH]; [discriminate|].
  simpl. pose proof (raises_subscript i "state" e) as Hs.
  unfold eval in Hs. cbn [snd] in Hs.
  destruct (subscript i "state") as [s|e0];
    [|intros H; inversion H; subst e0; now apply Hs].
  destruct (select_state st items) as [r|e1]; [discriminate|].
  intros H. inversion H; subst e1. now apply IH.
Qed.

Lemma raises_issues_with_state st issues e :
  issues_with_state st issues = Raise e -> data_error e = true.
Proof.
  unfold issues_with_state.
  pose proof (raises_iterate issues e) as Hi. unfold eval in Hi. cbn [snd] in Hi.
  destruct (iterate issues) as [items|e0]; [|exact Hi].
  apply raises_select_state.
Qed.

Lemma write_pages_raises E issues milestones w e w' :
  write_pages E issues milestones w = (Raise e, w') ->
  e = OSError \/ data_error e = true.
Proof.
  unfold write_pages. intros H.
  apply bind_inv in H as [(? & w1 & H1 & H) | (e0 & H1 & He)];
    apply with_open_spec in H1 as (_ & [(_ & R1) | (t1 & _ & _ & R1)]);
    try discriminate;
    try (inversion He; subst; inversion R1; now left).
  apply bind_inv in H as [(? & w2 & H2 & H) | (e0 & H2 & He)];
    apply with_open_spec in H2 as (_ & [(_ & R2) | (t2 & _ & _ & R2)]);
    try discriminate;
    try (inversion He; subst;
         first [ inversion R2; now left
               | right; now apply (raises_milestones_block milestones) ]).
  apply bind_inv in H as [(active & w3 & H3 & H) | (e0 & H3 & He)];
    apply lift_inv in H3 as (R3 & _);
    try (inversion He; subst; right;
         now apply (raises_issues_with_state "open" issues)).
  apply bind_inv in H as [(? & w4 & H4 & H) | (e0 & H4 & He)];
    apply with_open_spec in H4 as (_ & [(_ & R4) | (t4 & _ & _ & R4)]);
    try discriminate;
    try (inversion He; subst;
         first [ inversion R4; now left
               | right; now apply (raises_active_block active) ]).
  apply bind_inv in H as [(closed & w5 & H5 & H) | (e0 & H5 & He)];
    apply lift_inv in H5 as (R5 & _);
    try (inversion He; subst; right;
         now apply (raises_issues_with_state "closed" issues)).
  apply bind_inv in H as [(? & w6 & H6 & H) | (e0 & H6 & He)];
    apply with_open_spec in H6 as (_ & [(_ & R6) | (t6 & _ & _ & R6)]);
    try discriminate;
    try (inversion He; subst;
         first [ inversion R6; now left
               | right; now apply (raises_closed_block closed) ]).
Qed.



(** ** Pages that cannot be written *)

Lemma verify_holds E path data w :
  E_file E path = Holds data ->
  verify_json_content E path w
  = (Ok data,
     if truthy data then w else add_stdout ("Advertencia: " ++ path ++ " está vacío") w).
Proof.
  intros H. unfold verify_json_content. rewrite H.
  destruct (truthy data); reflexivity.
Qed.

Lemma unwritable_returns_false E issues milestones :
  E_file E (issues_file E) = Holds issues ->
  E_file E (milestones_file E) = Holds milestones ->
  truthy issues || truthy milestones = true ->
  E_can_open E "Home.md" = false ->
  forall w, exists w',
    generate_wiki_content E w = (Ok false, w') /\
    w_wiki w' = w_wiki w /\ w_spawned w' = w_spawned w /\
    last (w_stdout w') "" = write_failure_line E.
Proof.
  intros Hi Hm Hdata Hopen w.
  unfold generate_wiki_content.
  unfold bind at 1. rewrite (verify_holds E _ issues w Hi).
  set (w1 := if truthy issues then w else add_stdout _ w).
  unfold bind at 1. rewrite (verify_holds E _ milestones w1 Hm).
  set (w2 := if truthy milestones then w1 else add_stdout _ w1).
  assert (Hw2 : w_wiki w2 = w_wiki w /\ w_spawned w2 = w_spawned w)
    by (subst w1 w2; destruct (truthy issues), (truthy milestones); split; reflexivity).
  destruct Hw2 as (Hwiki & Hspawned).
  replace (negb (truthy issues) && negb (truthy milestones)) with false
    by (destruct (truthy issues), (truthy milestones); try reflexivity; discriminate).
  exists (add_stdout (write_failure_line E) w2).
  split; [|split; [exact Hwiki | split; [exact Hspawned | apply last_last]]].
  unfold try_except, write_pages. unfold bind at 1, with_open at 1.
  destruct (w_wiki w2); rewrite ?Hopen; reflexivity.
Qed.

(** X19.  When [Home.md], the first page, cannot be opened for
    writing, that is not an error of [generate_wiki_content]: it prints
    the cause, returns [False] and leaves the directory as it was.  The run that called it then fails
    the way a run without data does, with "No se pudo generar el
    contenido" (or "... inicial" for a new wiki); the cause is on the
    standard output only, and nothing is staged, committed or pushed. *)
Theorem unwritable_pages_fail_the_run E w issues milestones :
  E_file E (issues_file E) = Holds issues ->
  E_file E (milestones_file E) = Holds milestones ->
  truthy issues || truthy milestones = true ->
  E_can_open E "Home.md" = false ->
  (exists w1, generate_wiki_content E w = (Ok false, w1) /\
              w_wiki w1 = w_wiki w /\
              last (w_stdout w1) "" = write_failure_line E) /\
  (forall r w', generate_wiki_pages E w = (r, w') ->
     (exists e, r = Raise e) /\
     exists l, w_spawned w' = (w_spawned w ++ l)%list /\
               Forall (fun c => is_publish c = false) (commands l) /\
               ((exists b, ran_ok (cmd_pull b) l) ->
                r = Raise (WikiGenerationError NoContent) \/ r = Raise OSError) /\
               ((exists url, ran_ok (cmd_remote_add url) l) ->
                r = Raise (WikiGenerationError NoInitialContent) \/ r = Raise OSError)).
Proof.
  intros Hi Hm Hdata Hopen.
  pose proof (unwritable_returns_false E issues milestones Hi Hm Hdata Hopen) as Hfalse.
  split.
  - destruct (Hfalse w) as (w1 & Hg & Hw & _ & Hout). eauto.
  - intros r w' H. apply run_spec in H as ((l & Hl & Htr) & _).
    apply (no_publish_without_content E l r) in Htr as (Hr & Hnp & Hpull & Hinit).
    + split; [assumption|]. exists l. auto.
    + intros w1 r1 w2 Hg. destruct (Hfalse w1) as (w3 & Hg' & _).
      rewrite Hg' in Hg. now inversion Hg.
Qed.

Lemma unwritable_pages_fail_the_run_witness :
  (exists w1, generate_wiki_content read_only_wiki_env empty_checkout = (Ok false, w1) /\
              w_wiki w1 = w_wiki empty_checkout /\
              last (w_stdout w1) "" = write_failure_line read_only_wiki_env) /\
  (forall r w', generate_wiki_pages read_only_wiki_env empty_checkout = (r, w') ->
     (exists e, r = Raise e) /\
     exists l, w_spawned w' = (w_spawned empty_checkout ++ l)%list /\
               Forall (fun c => is_publish c = false) (commands l) /\
               ((exists b, ran_ok (cmd_pull b) l) ->
                r = Raise (WikiGenerationError NoContent) \/ r = Raise OSError) /\
               ((exists url, ran_ok (cmd_remote_add url) l) ->
                r = Raise (WikiGenerationError NoInitialContent) \/ r = Raise OSError)).
Proof.
  apply (unwritable_pages_fail_the_run read_only_wiki_env empty_checkout
           (JList sample_issues) sample_milestones); reflexivity.
Defined.

(** ** Issues without a state *)

Lemma select_stateless st items :
  Forall (fun i => is_dict i = true) items ->
  Exists (fun i => subscript i "state" = Raise (KeyError "state")) items ->
  select_state st items = Raise (KeyError "state").
Proof.
  induction 1 as [|i items Hi _ IH]; intros Hex; [inversion Hex|].
  simpl. destruct i as [| | | | |kv]; try discriminate Hi.
  unfold subscript at 1. destruct (assoc "state" kv) as [s|] eqn:Hs; [|reflexivity].
  rewrite IH; [reflexivity|].
  inversion Hex as [? ? Hhead | ? ? Htail]; subst; [|assumption].
  unfold subscript in Hhead. rewrite Hs in Hhead. discriminate.
Qed.

(** X20.  The selection of the issues of a page reads the state of
    every issue of the data.  One issue without the key [state],
    wherever it stands and whatever its state would have been, makes
    [generate_wiki_content] raise [KeyError('state')] before either
    issue page is opened: [Home.md] and [Milestones.md] are written by
    then, and the issue pages are as they were. *)
Theorem stateless_issue_aborts E w t items milestones :
  E_file E (issues_file E) = Holds (JList items) ->
  E_file E (milestones_file E) = Holds milestones ->
  w_wiki w = Some t ->
  E_can_open E "Home.md" = true ->
  E_can_open E "Milestones.md" = true ->
  snd (milestones_block milestones) = Ok tt ->
  Forall (fun i => is_dict i = true) items ->
  Exists (fun i => subscript i "state" = Raise (KeyError "state")) items ->
  exists w',
    generate_wiki_content E w = (Raise (KeyError "state"), w') /\
    w_wiki w'
    = Some (tree_put "Milestones.md" (fst (milestones_block milestones))
              (tree_put "Home.md" home_text t)).
Proof.
  intros Hi Hm Hw Hhome Hmil Bm Hdicts Hex.
  assert (Htruthy : truthy (JList items) = true)
    by (destruct items; [inversion Hex | reflexivity]).
  destruct (generate_wiki_content E w) as [r w'] eqn:Hg.
  unfold generate_wiki_content in Hg.
  apply bind_inv in Hg as [(i & w1 & H1 & Hg) | (e & H1 & _)];
    apply verify_json_content_spec in H1 as (Q1 & R1); rewrite Hi in R1;
    [|discriminate].
  inversion R1; subst i. clear R1.
  apply bind_inv in Hg as [(m & w2 & H2 & Hg) | (e & H2 & _)];
    apply verify_json_content_spec in H2 as (Q2 & R2); rewrite Hm in R2;
    [|discriminate].
  inversion R2; subst m. clear R2.
  rewrite Htruthy in Hg. cbn [negb andb] in Hg.
  destruct (quiet_trans _ _ _ Q1 Q2) as (_ & _ & Qw). rewrite <- Qw in Hw.
  unfold try_except, write_pages in Hg.
  unfold bind at 1 in Hg. unfold with_open at 1 in Hg.
  rewrite Hw, Hhome in Hg. cbn [snd home_block write fst] in Hg.
  unfold bind at 1 in Hg. unfold with_open at 1 in Hg.
  cbn [w_wiki set_wiki] in Hg. rewrite Hmil, Bm in Hg.
  unfold bind at 1, lift, issues_with_state in Hg. cbn [iterate] in Hg.
  rewrite (select_stateless "open" items Hdicts Hex) in Hg.
  cbn [raise] in Hg. inversion Hg; subst r w'.
  eexists. split; reflexivity.
Qed.

Lemma stateless_issue_aborts_witness :
  exists w',
    generate_wiki_content stateless_env empty_checkout = (Raise (KeyError "state"), w') /\
    w_wiki w'
    = Some (tree_put "Milestones.md" (fst (milestones_block sample_milestones))
              (tree_put "Home.md" home_text [])).
Proof.
  apply (stateless_issue_aborts stateless_env empty_checkout []
           (sample_issues ++ [stateless_issue]) sample_milestones); try reflexivity.
  - repeat constructor.
  - repeat (first [ apply Exists_cons_hd; reflexivity | apply Exists_cons_tl ]).
Defined.

(** ** Generating twice *)

Lemma tree_put_same name text t : tree_get name t = Some text -> tree_put name text t = t.
Proof.
  induction t as [|[n x] t IH]; simpl; [discriminate|].
  destruct (String.eqb n name) eqn:Hn.
  - apply String.eqb_eq in Hn. subst n. intros H. now inversion H.
  - intros H. now rewrite IH.
Qed.

Lemma pages_twice milestones active closed t :
  pages milestones active closed (pages milestones active closed t)
  = pages milestones active closed t.
Proof.
  set (p := pages milestones active closed t).
  assert (Hhome : tree_get "Home.md" p = Some home_text).
  { unfold p, pages. rewrite !tree_get_put_other by reflexivity.
    apply tree_get_put_same. }
  assert (Hmil : tree_get "Milestones.md" p = Some (fst (milestones_block milestones))).
  { unfold p, pages. rewrite !tree_get_put_other by reflexivity.
    apply tree_get_put_same. }
  assert (Hact : tree_get "Issues-Activos.md" p = Some (fst (active_block active))).
  { unfold p, pages. rewrite !tree_get_put_other by reflexivity.
    apply tree_get_put_same. }
  assert (Hclo : tree_get "Issues-Cerrados.md" p = Some (fst (closed_block closed))).
  { unfold p, pages. apply tree_get_put_same. }
  unfold pages at 1. fold p.
  now rewrite (tree_put_same _ _ _ Hhome), (tree_put_same _ _ _ Hmil),
    (tree_put_same _ _ _ Hact), (tree_put_same _ _ _ Hclo).
Qed.

Lemma with_open_opened can name block w (a : unit) w' :
  with_open can name block w = (Ok a, w') -> can name = true.
Proof.
  unfold with_open. destruct (w_wiki w); [|discriminate].
  destruct (can name); [reflexivity | discriminate].
Qed.

Lemma write_pages_opened E issues milestones w b w' :
  write_pages E issues milestones w = (Ok b, w') ->
  Forall (fun name => E_can_open E name = true) page_names.
Proof.
  unfold write_pages. intros H.
  apply bind_inv in H as [(? & w1 & H1 & H) | (e & _ & ?)]; [|discriminate].
  apply with_open_opened in H1.
  apply bind_inv in H as [(? & w2 & H2 & H) | (e & _ & ?)]; [|discriminate].
  apply with_open_opened in H2.
  apply bind_inv in H as [(? & w3 & _ & H) | (e & _ & ?)]; [|discriminate].
  apply bind_inv in H as [(? & w4 & H4 & H) | (e & _ & ?)]; [|discriminate].
  apply with_open_opened in H4.
  apply bind_inv in H as [(? & w5 & _ & H) | (e & _ & ?)]; [|discriminate].
  apply bind_inv in H as [(? & w6 & H6 & H) | (e & _ & ?)]; [|discriminate].
  apply with_open_opened in H6.
  repeat constructor; assumption.
Qed.

Lemma generated_opened E w w' :
  generate_wiki_content E w = (Ok true, w') ->
  Forall (fun name => E_can_open E name = true) page_names.
Proof.
  unfold generate_wiki_content. intros H.
  apply bind_inv in H as [(issues & w1 & _ & H) | (e & _ & ?)]; [|discriminate].
  apply bind_inv in H as [(milestones & w2 & _ & H) | (e & _ & ?)]; [|discriminate].
  destruct (negb (truthy issues) && negb (truthy milestones)).
  { apply bind_inv in H as [(? & w3 & _ & H) | (e & _ & ?)]; [|discriminate].
    apply ret_inv in H as (? & _). discriminate. }
  apply try_except_inv in H as [(b & H & _) | (e & w3 & _ & Hh)].
  - now apply write_pages_opened in H.
  - destruct e; try (apply raise_inv in Hh as (? & _); discriminate).
    apply bind_inv in Hh as [(? & w4 & _ & Hh) | (e & _ & ?)]; [|discriminate].
    apply ret_inv in Hh as (? & _). discriminate.
Qed.

(** X21.  Generating the pages a second time from the same data
    changes nothing: [generate_wiki_content] returns [True] again and
    every file of the wiki directory is as the first generation left
    it.  So when the wiki already holds the pages of the data, the run
    finds nothing to commit. *)
Theorem generation_is_idempotent E w w1 :
  generate_wiki_content E w = (Ok true, w1) ->
  exists w2, generate_wiki_content E w1 = (Ok true, w2) /\ w_wiki w2 = w_wiki w1.
Proof.
  intros Hgen. pose proof (generated_opened E w w1 Hgen) as Hopen.
  apply generate_wiki_content_spec in Hgen as (_ & _ & _ & [(_ & (m & Hm & _) & _) | Hh]);
    [discriminate|].
  destruct Hh as (issues & milestones & Hi & Hm & Hh).
  destruct (negb (truthy issues) && negb (truthy milestones)) eqn:Hempty;
    [destruct Hh; discriminate|].
  destruct (Hh eq_refl) as (t & active & closed & Hw & Ha & Hc & Bm & Ba & Bc & Hw1).
  destruct (generates E w1 (pages milestones active closed t) issues milestones
              active closed) as (w2 & Hg2 & Hw2); try assumption.
  - destruct (truthy issues), (truthy milestones); try reflexivity; discriminate.
  - exists w2. split; [assumption|]. now rewrite Hw2, pages_twice, Hw1.
Qed.

Lemma generation_is_idempotent_witness :
  exists w2,
    generate_wiki_content update_env
      (snd (generate_wiki_content update_env empty_checkout)) = (Ok true, w2) /\
    w_wiki w2 = w_wiki (snd (generate_wiki_content update_env empty_checkout)).
Proof.
  apply (generation_is_idempotent update_env empty_checkout).
  vm_compute. reflexivity.
Defined.

(** ** Where a reported authentication failure comes from *)

Lemma lacks_char_app c a b : lacks_char c (a ++ b) = lacks_char c a && lacks_char c b.
Proof.
  unfold lacks_char. induction a as [|x a IH]; [reflexivity|].
  simpl. now rewrite IH, andb_assoc.
Qed.

Lemma lacks_char_contains c needle s :
  lacks_char c s = true -> contains (String c needle) s = false.
Proof.
  unfold lacks_char. induction s as [|x s IH]; [reflexivity|].
  simpl. intros H. apply andb_true_iff in H as (Hx & Hs).
  destruct (ascii_dec c x) as [->|_].
  - rewrite Ascii.eqb_refl in Hx. discriminate.
  - now apply IH.
Qed.

Lemma lacks_char_uint d : lacks_char "A" (NilEmpty.string_of_uint d) = true.
Proof. induction d; simpl; auto. Qed.

Lemma lacks_char_nilzero d : lacks_char "A" (NilZero.string_of_uint d) = true.
Proof.
  unfold NilZero.string_of_uint. destruct d; try reflexivity;
    match goal with
    | |- lacks_char _ (NilEmpty.string_of_uint ?u) = true => apply (lacks_char_uint u)
    end.
Qed.

Lemma lacks_char_str_int z : lacks_char "A" (str_int z) = true.
Proof.
  unfold str_int, NilZero.string_of_int.
  destruct (Z.to_int z) as [d|d]; [apply lacks_char_nilzero|].
  change (lacks_char "A" (String "-" (NilZero.string_of_uint d)))
    with (lacks_char "A" (NilZero.string_of_uint d)).
  apply lacks_char_nilzero.
Qed.

Lemma signal_name_none n table :
  ~ In n (map fst table) -> signal_name n table = None.
Proof.
  induction table as [|[k name] table IH]; simpl; [reflexivity|].
  intros H. destruct (k =? n)%Z eqn:Hk.
  - apply Z.eqb_eq in Hk. tauto.
  - apply IH. tauto.
Qed.

Lemma config_error_text rc cmd :
  cmd = cmd_config_name \/ cmd = cmd_config_email ->
  contains "Authentication failed" (str_CalledProcessError rc cmd) = false.
Proof.
  intros Hcmd.
  destruct (in_dec Z.eq_dec (- rc)%Z (map fst signals)) as [Hin | Hout].
  - cbn in Hin.
    repeat (destruct Hin as [Hin | Hin];
            [ apply (f_equal Z.opp) in Hin; rewrite Z.opp_involutive in Hin; subst rc;
              destruct Hcmd as [-> | ->]; vm_compute; reflexivity |]).
    contradiction.
  - apply lacks_char_contains. unfold str_CalledProcessError, str_process_error.
    rewrite (signal_name_none _ _ Hout). rewrite !lacks_char_app.
    assert (Hrepr : lacks_char "A" (py_repr (JList (map JStr cmd))) = true)
      by (destruct Hcmd as [-> | ->]; vm_compute; reflexivity).
    rewrite Hrepr. destruct (rc <? 0)%Z; rewrite !lacks_char_app, lacks_char_str_int;
      reflexivity.
Qed.

Lemma accounted_app l1 l2 e : accounted l2 e -> accounted (l1 ++ l2)%list e.
Proof.
  destruct e as [k| | | | |rc cmd|st|m| | | ]; try exact (fun H => H).
  destruct m; try exact (fun H => H).
  intros (cmd & c & Hin & Hrc & Hc). exists cmd, c.
  split; [apply in_or_app; now right | now split].
Qed.

Lemma accounts_ret {A} (a : A) : accounts (ret a).
Proof.
  intros w r w' H. apply ret_inv in H as (-> & ->).
  exists []. now rewrite app_nil_r.
Qed.

Lemma accounts_raise {A} e : accounted [] e -> accounts (@raise A e).
Proof.
  intros He w r w' H. apply raise_inv in H as (-> & ->).
  exists []. now rewrite app_nil_r.
Qed.

Lemma accounts_lift {A} (x : result A) :
  (forall e, x = Raise e -> data_error e = true) -> accounts (lift x).
Proof.
  intros Hx w r w' H. apply lift_inv in H as (-> & ->).
  exists []. rewrite app_nil_r. split; [reflexivity|].
  destruct x as [a|e]; [exact I|].
  specialize (Hx e eq_refl). destruct e; try discriminate Hx; exact I.
Qed.

Lemma accounts_bind {A B} (m : M A) (f : A -> M B) :
  accounts m -> (forall a, accounts (f a)) -> accounts (bind m f).
Proof.
  intros Hm Hf w r w' H.
  apply bind_inv in H as [(a & w1 & H1 & H2) | (e & H1 & ->)].
  - apply Hm in H1 as (l1 & Hl1 & _). apply Hf in H2 as (l2 & Hl2 & Hr).
    exists (l1 ++ l2)%list. split; [rewrite Hl2, Hl1; now rewrite app_assoc|].
    destruct r; [exact I | now apply accounted_app].
  - now apply Hm in H1.
Qed.

Lemma accounts_when b m : accounts m -> accounts (when b m).
Proof. intros Hm. destruct b; [exact Hm | apply accounts_ret]. Qed.

(** A handler that starts nothing, and raises [e] again or an
    exception that needs no account. *)
Lemma accounts_try_except {A} (m : M A) h :
  accounts m ->
  (forall e l w r w', accounted l e -> h e w = (r, w') ->
     w_spawned w' = w_spawned w /\
     match r with Raise e' => accounted l e' | Ok _ => True end) ->
  accounts (try_except m h).
Proof.
  intros Hm Hh w r w' H.
  apply try_except_inv in H as [(a & H & ->) | (e & w1 & H & H')].
  - now apply Hm in H.
  - apply Hm in H as (l & Hl & He).
    apply (Hh e l) in H' as (Hs & Hr); [|assumption].
    exists l. split; [congruence | assumption].
Qed.

(** A step that starts nothing and raises nothing that needs an
    account. *)
Ltac quiet_leaf :=
  let H := fresh "H" in
  intros ? ? ? H; exists []; rewrite app_nil_r;
  unfold print, wiki_dir_exists, credentials_exist, remove_credentials, chdir,
    chdir_wiki, mkdir_wiki, with_open, requests_get, requests_patch, raise_for_status,
    response_json, verify_token, environ_repository, raise, ret, lift in H;
  repeat match type of H with
    | context [match ?x with _ => _ end] => destruct x
    | context [if ?b then _ else _] => destruct b
    end;
  (inversion H; subst; split; [reflexivity | exact I]).

Lemma accounts_print s : accounts (print s).
Proof. quiet_leaf. Qed.

Lemma accounts_verify_token E : accounts (verify_token E).
Proof. quiet_leaf. Qed.

Lemma accounts_wiki_dir_exists : accounts wiki_dir_exists.
Proof. quiet_leaf. Qed.

Lemma accounts_environ_repository E : accounts (environ_repository E).
Proof. quiet_leaf. Qed.

Lemma accounts_requests_get E url : accounts (requests_get E url).
Proof. quiet_leaf. Qed.

Lemma accounts_requests_patch E url : accounts (requests_patch E url).
Proof. quiet_leaf. Qed.

Lemma accounts_raise_for_status status : accounts (raise_for_status status).
Proof. quiet_leaf. Qed.

Lemma accounts_response_json status body : accounts (response_json status body).
Proof. quiet_leaf. Qed.

Lemma accounts_chdir_wiki d : accounts (chdir_wiki d).
Proof. quiet_leaf. Qed.

Lemma accounts_mkdir_wiki : accounts mkdir_wiki.
Proof. quiet_leaf. Qed.

Lemma accounts_with_open can name block :
  raises_data_errors block -> accounts (with_open can name block).
Proof.
  intros Hb w r w' H. exists []. rewrite app_nil_r. unfold with_open in H.
  destruct (w_wiki w); [|inversion H; subst; split; [reflexivity | exact I]].
  destruct (can name); [|inversion H; subst; split; [reflexivity | exact I]].
  inversion H; subst. split; [reflexivity|].
  destruct (snd block) as [a|e] eqn:Hs; [exact I|].
  specialize (Hb e Hs). destruct e; try discriminate Hb; exact I.
Qed.

Lemma accounts_get v k : accounts (lift (get v k)).
Proof.
  apply accounts_lift. intros e H. apply (raises_get v k e). exact H.
Qed.

Lemma accounts_get_default v k d : accounts (lift (get_default v k d)).
Proof.
  apply accounts_lift. intros e H. apply (raises_get_default v k d e). exact H.
Qed.

Lemma accounts_issues_with_state st v : accounts (lift (issues_with_state st v)).
Proof. apply accounts_lift. apply raises_issues_with_state. Qed.

Lemma accounts_run_command E cmd check :
  check = false \/ cmd = cmd_config_name \/ cmd = cmd_config_email ->
  accounts (run_command E cmd check).
Proof.
  intros Hcheck w r w' H. exists [(cmd, in_text_mode (E_run E (w_spawned w) cmd))].
  unfold run_command, bind, subprocess_run in H. cbn zeta in H.
  destruct (E_run E (w_spawned w) cmd) as [c0|]; cbn [in_text_mode] in *;
    [|inversion H; subst; split; [reflexivity | exact I]].
  destruct (readable c0); [|inversion H; subst; split; [reflexivity | exact I]].
  set (c := as_text c0) in *.
  destruct (check && negb (returncode c =? 0)%Z) eqn:Hc.
  - unfold print, raise in H. inversion H; subst. split; [reflexivity|].
    destruct Hcheck as [-> | Hcmd]; [discriminate Hc | exact Hcmd].
  - unfold ret in H. inversion H; subst. split; [reflexivity | exact I].
Qed.

Lemma accounts_run_git_command E cmd msg check :
  accounts (run_git_command E cmd msg check).
Proof.
  intros w r w' H. exists [(cmd, in_text_mode (E_run E (w_spawned w) cmd))].
  unfold run_git_command, try_except, bind, run_command, subprocess_run, bind in H.
  cbn zeta in H.
  destruct (E_run E (w_spawned w) cmd) as [c0|] eqn:Hrun;
    cbn [andb negb ret in_text_mode] in *;
    [|inversion H; subst; split; [reflexivity | exact I]].
  destruct (readable c0); cbn [andb negb ret] in H;
    [|inversion H; subst; split; [reflexivity | exact I]].
  set (c := as_text c0) in *.
  destruct (check && negb (returncode c =? 0)%Z) eqn:Hc;
    [|inversion H; subst; split; [reflexivity | exact I]].
  destruct (contains "Authentication failed" (stderr c)) eqn:Hauth.
  - inversion H; subst. split; [reflexivity|].
    exists cmd, c. split; [now left|]. split; [|assumption].
    apply andb_true_iff in Hc as (_ & Hc). apply negb_true_iff, Z.eqb_neq in Hc.
    exact Hc.
  - destruct (contains "repository not found" (stderr c));
      [inversion H; subst; split; [reflexivity | exact I]|].
    destruct (opt_truthy msg); (inversion H; subst; split; [reflexivity | exact I]).
Qed.

Lemma accounts_safe_cleanup E : accounts (safe_cleanup E).
Proof.
  intros w r w' H.
  apply safe_cleanup_spec in H as (_ & [(_ & -> & (Qs & _)) | (o & _ & Hs & Hcase)]).
  - exists []. rewrite app_nil_r. now split.
  - exists [(rm_wiki E, o)]. split; [assumption|].
    destruct o as [c|]; destruct Hcase as (-> & _); exact I.
Qed.

Create HintDb accounting.

#[local] Hint Resolve accounts_print accounts_verify_token accounts_wiki_dir_exists
  accounts_environ_repository accounts_requests_get accounts_requests_patch
  accounts_raise_for_status accounts_response_json accounts_chdir_wiki
  accounts_mkdir_wiki accounts_get accounts_get_default accounts_issues_with_state
  accounts_run_git_command accounts_safe_cleanup
  raises_milestones_block raises_active_block raises_closed_block : accounting.

Ltac account_steps :=
  repeat first
    [ solve [auto with accounting]
    | apply accounts_ret
    | apply accounts_raise; exact I
    | apply accounts_when
    | apply accounts_with_open
    | apply accounts_run_command; solve [auto]
    | apply accounts_bind; [|intros ?]
    | match goal with
      | |- accounts (if ?b then _ else _) => destruct b
      | |- accounts (match ?x with _ => _ end) => destruct x
      end ].

(** A handler of the script: it starts nothing and raises the
    exception again, or one that needs no account. *)
Ltac handler_steps :=
  let Hacc := fresh "Hacc" in let H := fresh "H" in
  intros ? ? ? ? ? Hacc H;
  unfold print, raise, ret, bind in H;
  repeat match type of H with
    | context [match ?x with _ => _ end] => destruct x
    | context [if ?b then _ else _] => destruct b
    end;
  (inversion H; subst; split; first [reflexivity | exact I | exact Hacc]).

Lemma accounts_get_default_branch E url : accounts (get_default_branch E url).
Proof.
  unfold get_default_branch. apply accounts_try_except; [account_steps | handler_steps].
Qed.

Lemma accounts_check_repo_access E url : accounts (check_repo_access E url).
Proof.
  unfold check_repo_access. apply accounts_try_except; [account_steps | handler_steps].
Qed.

Lemma accounts_verify_json_content E path : accounts (verify_json_content E path).
Proof.
  unfold verify_json_content.
  destruct (E_file E path) as [| | |le|data]; try solve [account_steps].
  apply accounts_raise. destruct le; exact I.
Qed.

Lemma accounts_generate_wiki_content E : accounts (generate_wiki_content E).
Proof.
  unfold generate_wiki_content.
  apply accounts_bind; [apply accounts_verify_json_content | intros ?].
  apply accounts_bind; [apply accounts_verify_json_content | intros ?].
  account_steps.
  apply accounts_try_except; [unfold write_pages; account_steps | handler_steps].
  intros e H. discriminate.
Qed.

#[local] Hint Resolve accounts_get_default_branch accounts_check_repo_access
  accounts_generate_wiki_content : accounting.

Lemma accounts_new_wiki E url : accounts (new_wiki E url).
Proof. unfold new_wiki. account_steps. Qed.

Lemma accounts_existing_wiki E url : accounts (existing_wiki E url).
Proof. unfold existing_wiki. account_steps. Qed.

#[local] Hint Resolve accounts_new_wiki accounts_existing_wiki : accounting.

Lemma accounts_try_block E : accounts (try_block E).
Proof. unfold try_block. account_steps. Qed.

Lemma auth_evidence_app l1 l2 l3 : auth_evidence l2 -> auth_evidence (l1 ++ l2 ++ l3)%list.
Proof.
  intros (cmd & c & Hin & Hrc & Hc). exists cmd, c.
  split; [|now split]. apply in_or_app. right. apply in_or_app. now left.
Qed.

(** X22.  A run reports "Autenticación Git fallida" only on the word of
    git: one of the commands it started exited with a status other than
    0 and wrote "Authentication failed" on its error output.  The
    [except] clause for [CalledProcessError], which looks for the same
    words in the text of the exception, never finds them: the only
    commands that raise it are the two [git config], and the text of
    their exception does not hold these words. *)
Theorem auth_failure_reported_by_git E w w' :
  generate_wiki_pages E w = (Raise (WikiGenerationError GitAuthFailed), w') ->
  exists l, w_spawned w' = (w_spawned w ++ l)%list /\ auth_evidence l.
Proof.
  unfold generate_wiki_pages. intros H.
  apply bind_inv in H as [(? & w1 & H1 & H) | (e & H1 & _)];
    apply print_quiet in H1 as (R1 & (Qs & _)); [|discriminate].
  destruct (negb (E_data_dir_exists E)).
  { apply raise_inv in H as (H & _). discriminate. }
  apply try_finally_inv in H as (r1 & w2 & r2 & Htry & Hfin & Hr).
  apply finalizer_spec in Hfin as (post & _ & Hpost & Hres & _).
  destruct Hres as [(-> & _) | (-> & _)]; [|discriminate].
  subst r1.
  apply try_except_inv in Htry as [(a & _ & ?) | (e & w3 & Htry & Hh)]; [discriminate|].
  apply accounts_try_block in Htry as (l & Hl & Hacc).
  assert (He : e = WikiGenerationError GitAuthFailed /\ w2 = w3).
  { unfold handlers in Hh. destruct e as [k| | | | |rc cmd|st|m| | | ];
      try (apply raise_inv in Hh as (Hh & _); discriminate).
    - rewrite (config_error_text rc cmd Hacc) in Hh.
      apply raise_inv in Hh as (Hh & _). discriminate.
    - apply raise_inv in Hh as (Hh & ->). inversion Hh. now split. }
  destruct He as (-> & ->).
  exists (l ++ post)%list. split.
  - rewrite Hpost, Hl, Qs. now rewrite app_assoc.
  - apply (auth_evidence_app [] l post). exact Hacc.
Qed.

Lemma auth_failure_reported_by_git_witness :
  exists l,
    w_spawned (snd (generate_wiki_pages auth_refused_env fresh_world))
    = (w_spawned fresh_world ++ l)%list /\ auth_evidence l.
Proof.
  apply (auth_failure_reported_by_git auth_refused_env fresh_world).
  vm_compute. reflexivity.
Defined.

(** ** Issues in the shape of the REST API *)

Lemma named_labels labels names :
  Forall2 named labels names ->
  forallb is_dict labels = true /\
  strings_of (map label_name labels) = Some names.
Proof.
  induction 1 as [|l n labels names (fields & -> & Hn) _ (IHd & IHs)];
    [split; reflexivity|].
  split; [exact IHd|]. cbn [map label_name]. rewrite Hn. cbn [strings_of].
  now rewrite IHs.
Qed.

(** X23.  The pages also take issues in the shape of the REST API.  A
    milestone that is an object is shown by its title, and by "Sin
    título" when it has none; labels that are objects are shown by
    their names, joined with commas. *)
Theorem object_fields_are_shown fields milestone labels names :
  (assoc "milestone" fields = Some (JDict milestone) -> milestone <> [] ->
   issue_milestone (JDict fields)
   = ("**Milestone:** "
      ++ py_str (match assoc "title" milestone with
                 | Some title => title
                 | None => JStr "Sin título"
                 end) ++ nl ++ nl, Ok tt)) /\
  (assoc "labels" fields = Some (JList labels) -> labels <> [] ->
   Forall2 named labels names ->
   issue_labels (JDict fields)
   = ("**Labels:** " ++ join ", " names ++ nl ++ nl, Ok tt)).
Proof.
  split.
  - intros Hm Hne. unfold issue_milestone, get, subscript. rewrite Hm.
    rewrite ?w_bind_eval_ok.
    destruct milestone as [|p milestone]; [contradiction|].
    cbn [truthy is_dict]. rewrite ?w_bind_eval_ok.
    unfold get_default. destruct (assoc "title" (p :: milestone));
      rewrite ?w_bind_eval_ok; reflexivity.
  - intros Hl Hne Hnames. apply named_labels in Hnames as (Hd & Hs).
    unfold issue_labels, get, subscript. rewrite Hl. rewrite ?w_bind_eval_ok.
    destruct labels as [|l labels]; [contradiction|].
    cbn [truthy]. rewrite ?w_bind_eval_ok.
    unfold format_labels. cbn [truthy negb]. rewrite Hd.
    cbn [map truthy]. unfold join_value. cbn [iterate].
    change (label_name l :: map label_name labels) with (map label_name (l :: labels)).
    rewrite Hs, ?w_bind_eval_ok. reflexivity.
Qed.

Lemma object_fields_are_shown_witness :
  issue_milestone api_shaped_issue = ("**Milestone:** v2" ++ nl ++ nl, Ok tt) /\
  issue_labels api_shaped_issue = ("**Labels:** bug, payments" ++ nl ++ nl, Ok tt).
Proof.
  destruct (object_fields_are_shown
              [("number", JInt 5); ("title", JStr "Refund"); ("state", JStr "open");
               ("created_at", JStr "2024-03-01T00:00:00Z");
               ("milestone", JDict [("number", JInt 1); ("title", JStr "v2")]);
               ("labels", JList [JDict [("id", JInt 10); ("name", JStr "bug")];
                                 JDict [("id", JInt 11); ("name", JStr "payments")]]);
               ("body", JNull)]
              [("number", JInt 1); ("title", JStr "v2")]
              [JDict [("id", JInt 10); ("name", JStr "bug")];
               JDict [("id", JInt 11); ("name", JStr "payments")]]
              ["bug"; "payments"]) as (Hm & Hl).
  split.
  - apply Hm; [reflexivity | discriminate].
  - apply Hl; [reflexivity | discriminate |].
    repeat constructor; eexists; split; reflexivity.
Defined.

(** ** A directory left by an earlier run *)

Lemma safe_cleanup_starts_rm E w r w' t :
  w_wiki w = Some t -> safe_cleanup E w = (r, w') ->
  w_spawned w'
  = (w_spawned w ++ [(rm_wiki E, E_run E (w_spawned w) (rm_wiki E))])%list.
Proof.
  intros Hw H.
  apply safe_cleanup_spec in H as (_ & [(Hn & _) | (o & -> & Hs & _)]);
    [congruence | exact Hs].
Qed.

Lemma finalizer_starts_rm E w r w' t :
  w_wiki w = Some t -> finalizer E false w = (r, w') ->
  w_spawned w'
  = (w_spawned w ++ [(rm_wiki E, E_run E (w_spawned w) (rm_wiki E))])%list.
Proof.
  intros Hw H. unfold finalizer in H.
  apply bind_inv in H as [(? & w1 & H1 & H) | (e & H1 & _)]; [|discriminate].
  assert (Q1 : quiet w w1) by (inversion H1; repeat split). clear H1.
  apply bind_inv in H as [(? & w2 & H2 & H) | (e & H2 & _)];
    apply print_quiet in H2 as (R2 & Q2); [|discriminate].
  destruct (quiet_trans _ _ _ Q1 Q2) as (Qs & _ & Qw). rewrite <- Qw in Hw.
  apply bind_inv in H as [(present & w3 & H3 & H) | (e & H3 & _)];
    apply wiki_dir_exists_spec in H3 as (-> & R3); [|discriminate].
  rewrite Hw in R3. inversion R3; subst present. cbn [negb andb when] in H.
  apply bind_inv in H as [(? & w3 & H3 & H) | (e & H3 & ->)];
    apply (safe_cleanup_starts_rm E w2 _ _ t Hw) in H3 as Hs; rewrite Qs in Hs.
  - unfold bind, credentials_exist, when, remove_credentials, ret in H.
    destruct (w_credentials w3); inversion H; subst; cbn; congruence.
  - exact Hs.
Qed.

Lemma try_block_starts_rm E w r w' t :
  w_wiki w = Some t -> try_block E w = (r, w') ->
  (exists rest,
     w_spawned w'
     = (w_spawned w ++ (rm_wiki E, E_run E (w_spawned w) (rm_wiki E)) :: rest)%list) \/
  (w' = w /\ exists e, r = Raise e).
Proof.
  intros Hw H. unfold try_block in H.
  apply bind_inv in H as [(token & w1 & H1 & H) | (e & H1 & ->)];
    apply verify_token_spec in H1 as ->; [|right; eauto].
  left.
  apply bind_inv in H as [(present & w1 & H1 & H) | (e & H1 & _)];
    apply wiki_dir_exists_spec in H1 as (-> & R1); [|discriminate].
  rewrite Hw in R1. inversion R1; subst present. cbn [when] in H.
  apply bind_inv in H as [(? & w2 & H2 & H) | (e & H2 & _)];
    apply (safe_cleanup_starts_rm E w _ _ t Hw) in H2 as Hs;
    [|exists []; exact Hs].
  match type of H with
  | ?m w2 = _ => assert (Hacc : accounts m) by account_steps
  end.
  apply Hacc in H as (l & Hl & _).
  exists l. rewrite Hl, Hs. now rewrite <- app_assoc.
Qed.

(** X24.  When a run finds a wiki directory left behind by an earlier
    run (and its data directory), the first program it starts is
    [rm -rf] on that directory — before the access check when the
    token is usable, and in the [finally] clause when it is not.  This
    is about the order of the programs only, not about what that [rm]
    does to the directory. *)
Theorem stale_directory_removed_first E w r w' t :
  E_data_dir_exists E = true ->
  w_wiki w = Some t ->
  generate_wiki_pages E w = (r, w') ->
  exists rest,
    w_spawned w'
    = (w_spawned w ++ (rm_wiki E, E_run E (w_spawned w) (rm_wiki E)) :: rest)%list.
Proof.
  intros Hdata Hw H. unfold generate_wiki_pages in H.
  apply bind_inv in H as [(? & w1 & H1 & H) | (e & H1 & _)];
    apply print_quiet in H1 as (R1 & (Qs & _ & Qw)); [|discriminate].
  rewrite Hdata in H. cbn [negb] in H. rewrite <- Qw in Hw.
  apply try_finally_inv in H as (r1 & w2 & r2 & Htry & Hfin & _).
  assert (Hblock : exists r0, try_block E w1 = (r0, w2) /\
                              ((exists e, r0 = Raise e) -> exists e, r1 = Raise e)).
  { apply try_except_inv in Htry as [(a & Htry & ->) | (e & w3 & Htry & Hh)].
    - exists (Ok a). split; [assumption|]. intros (e & He). discriminate.
    - apply handlers_raise in Hh as (-> & m & ->). exists (Raise e).
      split; [assumption | intros _; eauto]. }
  destruct Hblock as (r0 & Hblock & Hraise).
  apply (try_block_starts_rm E w1 r0 w2 t Hw) in Hblock
    as [(rest & Hs) | (-> & He)].
  - apply finalizer_spec in Hfin as (post & _ & Hpost & _).
    exists (rest ++ post)%list. rewrite Hpost, Hs, Qs.
    now rewrite <- app_assoc.
  - destruct (Hraise He) as (e & ->).
    apply (finalizer_starts_rm E w1 r2 w' t Hw) in Hfin as Hs.
    exists []. rewrite Hs, Qs. reflexivity.
Qed.

Lemma stale_directory_removed_first_witness :
  exists rest,
    w_spawned (snd (generate_wiki_pages update_env
                      (set_wiki (Some [("Old-Page.md", "kept")]) fresh_world)))
    = (w_spawned (set_wiki (Some [("Old-Page.md", "kept")]) fresh_world)
       ++ (rm_wiki update_env,
           E_run update_env
             (w_spawned (set_wiki (Some [("Old-Page.md", "kept")]) fresh_world))
             (rm_wiki update_env)) :: rest)%list.
Proof.
  apply (stale_directory_removed_first update_env
           (set_wiki (Some [("Old-Page.md", "kept")]) fresh_world)
           (fst (generate_wiki_pages update_env
                   (set_wiki (Some [("Old-Page.md", "kept")]) fresh_world)))
           _ [("Old-Page.md", "kept")]).
  - reflexivity.
  - reflexivity.
  - vm_compute. reflexivity.
Defined.
